(** * AI_mezo editor: viewport transform, annotation store, mask compositor,
      undo history and tool state machine of [src/mezo/editor.py].

    Conventions of the embedding.
    - Python [int] is [Z].  Python [float] is an exact rational [Q]: every
      finite double is a rational, and the arithmetic is taken without
      rounding error.  [math.sqrt] is the one operation that leaves the
      rationals; it is modelled by [math_sqrt] below, a root truncated to 64
      fractional bits (exact on squares of such numbers).  The clamp of the
      viewer scale is stated on IEEE binary64 values as well.
    - [page.session] is the record [session]; a key that the code tests with
      [contains_key] is an [option] field.
    - A PIL image is a total function from pixel coordinates to RGBA values;
      only the pixels inside [image_size] are observable.
    - An uncaught Python exception is the result [None]. *)

From Stdlib Require Import ZArith QArith Qround Qabs Qpower List Bool String Lia Lqa Psatz.
From Stdlib Require Import SpecFloat Sorted.
Import ListNotations.

Local Open Scope Q_scope.

(** ** Python numerics *)

Definition py_ltb (a b : Q) : bool := negb (Qle_bool b a).
Definition py_leb (a b : Q) : bool := Qle_bool a b.
Definition py_eqb (a b : Q) : bool := Qeq_bool a b.

(** [min(a, b)]: the builtin keeps its first argument unless a later one is
    strictly smaller; [max(a, b)] likewise with strictly greater. *)
Definition py_min (a b : Q) : Q := if py_ltb b a then b else a.
Definition py_max (a b : Q) : Q := if py_ltb a b then b else a.
Definition py_min3 (a b c : Q) : Q := py_min (py_min a b) c.

(** [round(x)]: nearest integer, ties to the even one. *)
Definition py_round (x : Q) : Z :=
  let f := Qfloor x in
  let r := x - inject_Z f in
  if py_ltb r (1 # 2) then f
  else if py_ltb (1 # 2) r then (f + 1)%Z
  else if Z.even f then f else (f + 1)%Z.

(** [round(x, 0)]: the same rounding, the result kept as a float. *)
Definition py_round0 (x : Q) : Q := inject_Z (py_round x).

(** [round(x, 5)]. *)
Definition py_round5 (x : Q) : Q := inject_Z (py_round (x * 100000)) / 100000.

(** [math.sqrt]: the root of [x] truncated to 64 fractional bits. *)
Definition sqrt_bits : Z := 64.
Definition math_sqrt (x : Q) : Q :=
  Qred (Qmake (Z.sqrt ((Qnum x * 4 ^ sqrt_bits) / Zpos (Qden x)))
              (Z.to_pos (2 ^ sqrt_bits))).

(** [math.pi], the double nearest to pi. *)
Definition math_pi : Q := 884279719003555 # 281474976710656.

(** ** Session storage: the viewport part *)

Record margins := mk_margins {
  left : Q; top : Q; right : Q; bottom : Q
}.

Definition zero_margins : margins := mk_margins 0 0 0 0.

(** [ft.Offset] as the code builds it: both coordinates are results of
    [round]. *)
Record offset := mk_offset { off_x : Z; off_y : Z }.

Record viewport := mk_viewport {
  image_size : option (Z * Z);
  viewer_size : Q * Q;
  viewer_scale : Q;
  window_scale : Q;
  image_scale : Q;
  scale : option Q;
  main_offset : offset;
  viewer_offset : option offset;
  margin : margins;
  start_cursor : Q * Q;
  start_scale : Q;
  start_offset : option offset;
  move : option (Q * Q)
}.

(** [update_scale(scale)], editor.py 255-309. *)
Definition update_scale (factor : Q) (v : viewport) : viewport :=
  match image_size v with
  | None => v
  | Some (image_width, image_height) =>
    let '(viewer_width, viewer_height) := viewer_size v in
    let viewer_scale_0 := viewer_scale v in
    let viewer_scale' := viewer_scale_0 * factor in
    let viewer_scale' := py_max 1 (py_min 15 viewer_scale') in
    let window_scale' :=
      py_min3 (viewer_width / inject_Z image_width)
              (viewer_height / inject_Z image_height) 1 in
    let image_scale' := window_scale' * viewer_scale' in
    let scaled_image_width := inject_Z image_width * image_scale' in
    let scaled_image_height := inject_Z image_height * image_scale' in
    let main_viewer_offset :=
      mk_offset (py_round ((viewer_width - scaled_image_width) / 2))
                (py_round ((viewer_height - scaled_image_height) / 2)) in
    let first := match viewer_offset v with None => true | Some _ => false end in
    {| image_size := image_size v;
       viewer_size := viewer_size v;
       viewer_scale := viewer_scale';
       window_scale := window_scale';
       image_scale := image_scale';
       scale := Some (viewer_scale' / viewer_scale_0);
       main_offset := main_viewer_offset;
       viewer_offset := if first then Some main_viewer_offset else viewer_offset v;
       margin := if first then zero_margins else margin v;
       start_cursor := start_cursor v;
       start_scale := start_scale v;
       start_offset := start_offset v;
       move := move v |}
  end.

(** The viewer scales stored after each call of a sequence of
    [update_scale] calls. *)
Fixpoint scale_trace (factors : list Q) (v : viewport) : list Q :=
  match factors with
  | [] => []
  | f :: fs => let v' := update_scale f v in viewer_scale v' :: scale_trace fs v'
  end.

Definition in_scale_range (x : Q) : Prop := 1 <= x /\ x <= 15.

(** The clamp of [update_scale] once more, on binary64 values as IEEE 754
    has them ([spec_float]: zeros, infinities, NaN and finite numbers), to
    cover the factors that are not rationals.  A comparison with NaN is
    false, so [min] and [max] keep their first argument then. *)
Definition sf_1 : spec_float := S754_finite false 4503599627370496 (-52).
Definition sf_15 : spec_float := S754_finite false 8444249301319680 (-49).
Definition sf_min (a b : spec_float) : spec_float := if SFltb b a then b else a.
Definition sf_max (a b : spec_float) : spec_float := if SFltb a b then b else a.
Definition clamp_viewer_scale (product : spec_float) : spec_float :=
  sf_max sf_1 (sf_min sf_15 product).

(** [window_resized(e)], editor.py 311-330; [width], [height] are the
    window's. *)
Definition window_resized (width height : Q) (v : viewport) : viewport :=
  let v1 :=
    {| image_size := image_size v;
       viewer_size := (width - 5 - 5, height - 40 - 5 - 5 - 26);
       viewer_scale := viewer_scale v;
       window_scale := window_scale v;
       image_scale := image_scale v;
       scale := scale v;
       main_offset := main_offset v;
       viewer_offset := viewer_offset v;
       margin := margin v;
       start_cursor := start_cursor v;
       start_scale := start_scale v;
       start_offset := start_offset v;
       move := move v |} in
  update_scale 1 v1.

(** [viewer_interaction_start(e)], editor.py 332-350. *)
Definition viewer_interaction_start (local_focal_point : Q * Q) (v : viewport)
  : viewport :=
  {| image_size := image_size v;
     viewer_size := viewer_size v;
     viewer_scale := viewer_scale v;
     window_scale := window_scale v;
     image_scale := image_scale v;
     scale := scale v;
     main_offset := main_offset v;
     viewer_offset := viewer_offset v;
     margin := margin v;
     start_cursor := local_focal_point;
     start_scale := viewer_scale v;
     start_offset := viewer_offset v;
     move := move v |}.

(** [viewer_interaction_update(e)], editor.py 352-367. *)
Definition viewer_interaction_update (e_scale : Q) (local_focal_point : Q * Q)
  (v : viewport) : viewport :=
  if py_eqb e_scale 1 then
    {| image_size := image_size v;
       viewer_size := viewer_size v;
       viewer_scale := viewer_scale v;
       window_scale := window_scale v;
       image_scale := image_scale v;
       scale := scale v;
       main_offset := main_offset v;
       viewer_offset := viewer_offset v;
       margin := margin v;
       start_cursor := start_cursor v;
       start_scale := start_scale v;
       start_offset := start_offset v;
       move := Some local_focal_point |}
  else update_scale e_scale v.

(** The bounding box inside which the image may move, editor.py 398-413. *)
Record bounding_box := mk_bounding_box {
  scaled_image_width : Q;
  scaled_image_height : Q;
  bounding_box_width : Q;
  bounding_box_height : Q;
  bounds_left : Q;
  bounds_top : Q;
  bounds_right : Q;
  bounds_bottom : Q
}.

Definition bounding_box_of (v : viewport) : bounding_box :=
  let '(image_width, image_height) :=
    match image_size v with Some p => p | None => (0, 0)%Z end in
  let '(viewer_width, viewer_height) := viewer_size v in
  let siw := inject_Z image_width * image_scale v in
  let sih := inject_Z image_height * image_scale v in
  let bbw := viewer_width * (viewer_scale v - 1) + siw in
  let bbh := viewer_height * (viewer_scale v - 1) + sih in
  let bx := (viewer_width - bbw) / 2 in
  let by_ := (viewer_height - bbh) / 2 in
  {| scaled_image_width := siw;
     scaled_image_height := sih;
     bounding_box_width := bbw;
     bounding_box_height := bbh;
     bounds_left := py_round0 bx;
     bounds_top := py_round0 by_;
     bounds_right := py_round0 (bx + bbw);
     bounds_bottom := py_round0 (by_ + bbh) |}.

(** One [if m_lo < 0 ... elif m_hi < 0 ...] block of the reconciliation
    (editor.py 433-440, 441-448, 491-498, 499-506): the margin on the low
    side, the margin on the high side and the offset coordinate, from the
    candidates [m_lo], [m_hi], [vc], the free play [box - img] and the two
    pinned positions. *)
Definition clamp_axis (m_lo m_hi vc box img b_lo b_hi : Q) : Q * Q * Q :=
  if py_ltb m_lo 0 then (0, box - img, b_lo)
  else if py_ltb m_hi 0 then (box - img, 0, b_hi - img)
  else (m_lo, m_hi, vc).

Definition with_reconciled (m : margins) (o : offset) (drop_move drop_scale : bool)
  (v : viewport) : viewport :=
  {| image_size := image_size v;
     viewer_size := viewer_size v;
     viewer_scale := viewer_scale v;
     window_scale := window_scale v;
     image_scale := image_scale v;
     scale := if drop_scale then None else scale v;
     main_offset := main_offset v;
     viewer_offset := Some o;
     margin := m;
     start_cursor := start_cursor v;
     start_scale := start_scale v;
     start_offset := start_offset v;
     move := if drop_move then None else move v |}.

(** The "Moving" branch of [viewer_interaction_end], editor.py 416-463;
    [mv] is the stored ['move'] value. *)
Definition end_moving (mv : Q * Q) (v : viewport) : option viewport :=
  match viewer_offset v with
  | None => None
  | Some viewer_offset_ =>
    let bb := bounding_box_of v in
    let move_x := fst mv - fst (start_cursor v) in
    let move_y := snd mv - snd (start_cursor v) in
    let margin_0 := margin v in
    let margin_left := left margin_0 + move_x in
    let margin_top := top margin_0 + move_y in
    let margin_right := right margin_0 - move_x in
    let margin_bottom := bottom margin_0 - move_y in
    let vx := inject_Z (off_x viewer_offset_) + move_x in
    let vy := inject_Z (off_y viewer_offset_) + move_y in
    let '(margin_left, margin_right, vx) :=
      clamp_axis margin_left margin_right vx (bounding_box_width bb)
                 (scaled_image_width bb) (bounds_left bb) (bounds_right bb) in
    let '(margin_top, margin_bottom, vy) :=
      clamp_axis margin_top margin_bottom vy (bounding_box_height bb)
                 (scaled_image_height bb) (bounds_top bb) (bounds_bottom bb) in
    Some (with_reconciled
            (mk_margins margin_left margin_top margin_right margin_bottom)
            (mk_offset (py_round vx) (py_round vy)) true false v)
  end.

(** The "Scaling" branch of [viewer_interaction_end], editor.py 470-521;
    [sc] is the stored ['scale'] value. *)
Definition end_scaling (sc : Q) (v : viewport) : option viewport :=
  if py_eqb (py_round5 (image_scale v)) (py_round5 (window_scale v)) then
    Some (with_reconciled zero_margins
            (mk_offset (py_round (inject_Z (off_x (main_offset v))))
                       (py_round (inject_Z (off_y (main_offset v)))))
            false true v)
  else
    match start_offset v, viewer_offset v with
    | Some start_offset_, Some viewer_offset_ =>
      let bb := bounding_box_of v in
      let x_scale_viewer_offset :=
        (fst (start_cursor v) - inject_Z (off_x start_offset_)) * (1 - sc) in
      let y_scale_viewer_offset :=
        (snd (start_cursor v) - inject_Z (off_y start_offset_)) * (1 - sc) in
      let _x := inject_Z (off_x start_offset_) + x_scale_viewer_offset in
      let _y := inject_Z (off_y start_offset_) + y_scale_viewer_offset in
      let margin_left := _x - bounds_left bb in
      let margin_top := _y - bounds_top bb in
      let margin_right := bounds_right bb - (_x + scaled_image_width bb) in
      let margin_bottom := bounds_bottom bb - (_y + scaled_image_height bb) in
      let vx := inject_Z (off_x viewer_offset_ + py_round x_scale_viewer_offset) in
      let vy := inject_Z (off_y viewer_offset_ + py_round y_scale_viewer_offset) in
      let '(margin_left, margin_right, vx) :=
        clamp_axis margin_left margin_right vx (bounding_box_width bb)
                   (scaled_image_width bb) (bounds_left bb) (bounds_right bb) in
      let '(margin_top, margin_bottom, vy) :=
        clamp_axis margin_top margin_bottom vy (bounding_box_height bb)
                   (scaled_image_height bb) (bounds_top bb) (bounds_bottom bb) in
      Some (with_reconciled
              (mk_margins margin_left margin_top margin_right margin_bottom)
              (mk_offset (py_round vx) (py_round vy)) false true v)
    | _, _ => None
    end.

(** The click coordinates relative to the real image scale, editor.py
    536-543. *)
Definition click_coord (v : viewport) : option (Z * Z) :=
  match viewer_offset v with
  | None => None
  | Some offset_ =>
    Some (py_round ((fst (start_cursor v) - inject_Z (off_x offset_)) / image_scale v),
          py_round ((snd (start_cursor v) - inject_Z (off_y offset_)) / image_scale v))
  end.

Definition scale_limit (v : viewport) : bool :=
  py_eqb (start_scale v) 15 && py_eqb (viewer_scale v) 15.

(** ** Raster images (PIL) *)

(** An RGBA pixel: red, green, blue, alpha, each in 0..255. *)
Definition rgba : Type := (Z * Z * Z * Z)%type.

Definition image : Type := Z -> Z -> rgba.

(** [Image.new('RGBA', size, color)]. *)
Definition image_new (color : rgba) : image := fun _ _ => color.

Definition transparent : rgba := (255, 255, 255, 0)%Z.
Definition fill_color : rgba := (191, 255, 0, 128)%Z.
(** ['#BFFF00']. *)
Definition outline_color : rgba := (191, 255, 0, 255)%Z.

(** The filled ellipse that [ImageDraw.ellipse] draws into the square box
    [[(x - radius, y - radius), (x + radius, y + radius)]]: the pixels whose
    distance to [(x, y)] is at most [radius]. *)
Definition in_circle (x y radius : Q) (px py : Z) : bool :=
  py_leb 0 radius &&
  py_leb ((inject_Z px - x) * (inject_Z px - x) + (inject_Z py - y) * (inject_Z py - y))
         (radius * radius).

(** [draw.ellipse(box, fill=fill, outline=outline, width=width)]: the fill
    inside, the outline on the outermost [width] pixels. *)
Definition draw_ellipse (x y radius : Q) (fill : rgba) (outline : option (rgba * Q))
  (im : image) : image :=
  fun px py =>
    if in_circle x y radius px py then
      match outline with
      | None => fill
      | Some (ink, width) =>
        if in_circle x y (radius - width) px py then fill else ink
      end
    else im px py.

(** [Image.alpha_composite(dst, src)] on one pixel, the integer "over"
    operator of Pillow. *)
Definition shift_for_div255 (t : Z) : Z :=
  Z.shiftr (Z.shiftr t 8 + t) 8.

Definition alpha_composite_px (dst src : rgba) : rgba :=
  let '(dr, dg, db, da) := dst in
  let '(sr, sg, sb, sa) := src in
  if (sa =? 0)%Z then dst
  else
    let blend := (da * (255 - sa))%Z in
    let outa255 := (sa * 255 + blend)%Z in
    let coef1 := (sa * 255 * 255 * 128 / outa255)%Z in
    let coef2 := (255 * 128 - coef1)%Z in
    let ch s d :=
      Z.shiftr (shift_for_div255 (s * coef1 + d * coef2 + Z.shiftl 128 7)) 7 in
    (ch sr dr, ch sg dg, ch sb db, shift_for_div255 (outa255 + 128))%Z.

Definition alpha_composite (dst src : image) : image :=
  fun px py => alpha_composite_px (dst px py) (src px py).

(** The overlay of one mezo, editor.py 640-660: the circle with its
    translucent fill and 3 pixel outline, then the centre dot over it. *)
Definition mezo_overlay (x y radius : Q) : image :=
  let overlay := image_new transparent in
  let overlay :=
    draw_ellipse x y radius fill_color (Some (outline_color, 3)) overlay in
  draw_ellipse x y 2 outline_color None overlay.

(** ** The record store: table [mezo_data] of mezo.db *)

Record mezo_row := mk_mezo_row {
  mezo_id : Z;
  row_image_id : Z;
  center_x : Q;
  center_y : Q;
  diameter : Q;
  square : Q
}.

(** The rows in rowid order and the last id given out by AUTOINCREMENT. *)
Record database := mk_database {
  mezo_table : list mezo_row;
  mezo_seq : Z
}.

(** [INSERT INTO mezo_data (image_id, center_x, center_y, diameter, square)]. *)
Definition db_insert (image_id_ : Z) (cx cy d sq : Q) (db : database) : database :=
  let id := (mezo_seq db + 1)%Z in
  {| mezo_table := mezo_table db ++ [mk_mezo_row id image_id_ cx cy d sq];
     mezo_seq := id |}.

(** [SELECT * FROM mezo_data WHERE image_id = ?]. *)
Definition db_select_image (image_id_ : Z) (db : database) : list mezo_row :=
  filter (fun r => (row_image_id r =? image_id_)%Z) (mezo_table db).

(** [SELECT * FROM mezo_data WHERE mezo_id = ?], then [fetchone()]. *)
Definition db_select_id (key : Z) (db : database) : option mezo_row :=
  find (fun r => (mezo_id r =? key)%Z) (mezo_table db).

(** [... WHERE image_id = ? ORDER BY mezo_id DESC LIMIT 1], then
    [fetchone()]. *)
Definition db_select_last (image_id_ : Z) (db : database) : option mezo_row :=
  fold_left
    (fun acc r =>
       match acc with
       | None => Some r
       | Some r0 => if (mezo_id r0 <? mezo_id r)%Z then Some r else acc
       end)
    (db_select_image image_id_ db) None.

(** [DELETE FROM mezo_data WHERE mezo_id = ?]. *)
Definition db_delete (key : Z) (db : database) : database :=
  {| mezo_table := filter (fun r => negb (mezo_id r =? key)%Z) (mezo_table db);
     mezo_seq := mezo_seq db |}.

(** ** Session storage: the editor *)

Inductive tool_name := Magic_select | Manual_select | Remove_tool.

Inductive status :=
| Msg (text : string)
| Msg_click (x y : Z).

(** What the segmentation model and the circle fit of [magic_select] give
    for a click: the rounded centre and the radius. *)
Definition predictor : Type := Z * Z -> (Z * Z) * Q.

Record session := mk_session {
  view : viewport;
  tool : option tool_name;
  current_coord : option (Z * Z);
  center_markers : list (Z * Z);
  image_id : Z;
  mezo_data : option (list mezo_row);
  mask : image;
  mask_files : Z -> option image;
  prev_masks : list image;
  db : database;
  sam_model : option predictor;
  image_predictor : predictor;
  status_message : status
}.

Definition set_view (v : viewport) (s : session) : session :=
  {| view := v; tool := tool s; current_coord := current_coord s;
     center_markers := center_markers s; image_id := image_id s;
     mezo_data := mezo_data s; mask := mask s; mask_files := mask_files s;
     prev_masks := prev_masks s; db := db s; sam_model := sam_model s;
     image_predictor := image_predictor s; status_message := status_message s |}.

Definition set_tool (t : option tool_name) (s : session) : session :=
  {| view := view s; tool := t; current_coord := current_coord s;
     center_markers := center_markers s; image_id := image_id s;
     mezo_data := mezo_data s; mask := mask s; mask_files := mask_files s;
     prev_masks := prev_masks s; db := db s; sam_model := sam_model s;
     image_predictor := image_predictor s; status_message := status_message s |}.

(** Setting or removing ['current_coord'] together with the change of the
    centre indicators stacked on the canvas. *)
Definition set_current_coord (c : option (Z * Z)) (markers : list (Z * Z))
  (s : session) : session :=
  {| view := view s; tool := tool s; current_coord := c;
     center_markers := markers; image_id := image_id s;
     mezo_data := mezo_data s; mask := mask s; mask_files := mask_files s;
     prev_masks := prev_masks s; db := db s; sam_model := sam_model s;
     image_predictor := image_predictor s; status_message := status_message s |}.

Definition set_db (d : database) (s : session) : session :=
  {| view := view s; tool := tool s; current_coord := current_coord s;
     center_markers := center_markers s; image_id := image_id s;
     mezo_data := mezo_data s; mask := mask s; mask_files := mask_files s;
     prev_masks := prev_masks s; db := d; sam_model := sam_model s;
     image_predictor := image_predictor s; status_message := status_message s |}.

Definition set_mezo_data (m : option (list mezo_row)) (s : session) : session :=
  {| view := view s; tool := tool s; current_coord := current_coord s;
     center_markers := center_markers s; image_id := image_id s;
     mezo_data := m; mask := mask s; mask_files := mask_files s;
     prev_masks := prev_masks s; db := db s; sam_model := sam_model s;
     image_predictor := image_predictor s; status_message := status_message s |}.

(** The new mask is written to the mask file of the open image and stored
    in the session (editor.py 673-679, 1505-1511, 1618-1619). *)
Definition save_mask (m : image) (s : session) : session :=
  {| view := view s; tool := tool s; current_coord := current_coord s;
     center_markers := center_markers s; image_id := image_id s;
     mezo_data := mezo_data s; mask := m;
     mask_files := fun i => if (i =? image_id s)%Z then Some m else mask_files s i;
     prev_masks := prev_masks s; db := db s; sam_model := sam_model s;
     image_predictor := image_predictor s; status_message := status_message s |}.

Definition set_prev_masks (p : list image) (s : session) : session :=
  {| view := view s; tool := tool s; current_coord := current_coord s;
     center_markers := center_markers s; image_id := image_id s;
     mezo_data := mezo_data s; mask := mask s; mask_files := mask_files s;
     prev_masks := p; db := db s; sam_model := sam_model s;
     image_predictor := image_predictor s; status_message := status_message s |}.

Definition set_sam_model (p : option predictor) (s : session) : session :=
  {| view := view s; tool := tool s; current_coord := current_coord s;
     center_markers := center_markers s; image_id := image_id s;
     mezo_data := mezo_data s; mask := mask s; mask_files := mask_files s;
     prev_masks := prev_masks s; db := db s; sam_model := p;
     image_predictor := image_predictor s; status_message := status_message s |}.

(** [update_status_message(message)], editor.py 241-253. *)
Definition update_status_message (m : status) (s : session) : session :=
  {| view := view s; tool := tool s; current_coord := current_coord s;
     center_markers := center_markers s; image_id := image_id s;
     mezo_data := mezo_data s; mask := mask s; mask_files := mask_files s;
     prev_masks := prev_masks s; db := db s; sam_model := sam_model s;
     image_predictor := image_predictor s; status_message := m |}.

(** ** Annotation store *)

(** [get_mezo_data(image_id)], editor.py 159-196: the rows of the image, in
    row order, as the values of the session dictionary. *)
Definition get_mezo_data (image_id_ : Z) (s : session) : session :=
  set_mezo_data (Some (db_select_image image_id_ (db s))) s.

(** [add_mezo_to_db(center, diameter)], editor.py 562-603. *)
Definition add_mezo_to_db (center : Q * Q) (diameter_ : Q) (s : session) : session :=
  let image_id_ := image_id s in
  let square_ := (1 # 4) * math_pi * (diameter_ * diameter_) in
  let s := set_db (db_insert image_id_ (fst center) (snd center) diameter_ square_ (db s)) s in
  get_mezo_data image_id_ s.

(** ** Mask compositor *)

(** The history update of [add_mezo_to_viewer], editor.py 627-638. *)
Definition push_mask (m : image) (prev : list image) : list image :=
  let prev := prev ++ [m] in
  if (3 <? List.length prev)%nat then tl prev else prev.

(** [add_mezo_to_viewer(x, y, radius, recursive)], editor.py 605-682. *)
Definition add_mezo_to_viewer (x y radius : Q) (recursive : bool) (s : session)
  : session :=
  let mask_ := mask s in
  let s := if recursive then s
           else set_prev_masks (push_mask mask_ (prev_masks s)) s in
  let overlay := mezo_overlay x y radius in
  let mask_ := alpha_composite mask_ overlay in
  save_mask mask_ s.

(** [distance(x1, y1, x2, y2)], editor.py 1448-1459. *)
Definition distance (x1 y1 x2 y2 : Q) : Q :=
  math_sqrt ((x2 - x1) * (x2 - x1) + (y2 - y1) * (y2 - y1)).

(** [circles_intersect(mezo1, mezo2)], editor.py 1461-1473. *)
Definition circles_intersect (mezo1 mezo2 : Q * Q * Q) : bool :=
  let '(x1, y1, r1) := mezo1 in
  let '(x2, y2, r2) := mezo2 in
  let dist := distance x1 y1 x2 y2 in
  py_ltb dist (r1 + r2).

(** The triple [(row[2], row[3], row[4] / 2)]. *)
Definition circle_of (row : mezo_row) : Q * Q * Q :=
  (center_x row, center_y row, diameter row / 2).

(** [remove_mezo_from_viewer(mezo_to_removed)], editor.py 1475-1511. *)
Definition remove_mezo_from_viewer (mezo_to_removed : mezo_row) (s : session)
  : session :=
  let '(x, y, radius) := circle_of mezo_to_removed in
  let mask_ := draw_ellipse x y radius transparent None (mask s) in
  save_mask mask_ s.

(** [all_mezo.copy()] followed by [pop(i)]: the list without its [i]-th
    element; the popped element, [new_iter_row], is [row] itself. *)
Fixpoint list_pop {A} (i : nat) (l : list A) : list A :=
  match l, i with
  | [], _ => []
  | _ :: t, O => t
  | h :: t, S j => h :: list_pop j t
  end.

(** [enumerate(l)]. *)
Definition enumerate {A} (l : list A) : list (nat * A) :=
  combine (seq 0 (List.length l)) l.

(** [recursive_removing(start_mezo, all_mezo)], editor.py 1513-1538.  Each
    recursive call receives a list one element shorter, so a depth of
    [length all_mezo] is never exceeded. *)
Fixpoint recursive_removing_upto (depth : nat) (start_mezo : mezo_row)
  (all_mezo : list mezo_row) (s : session) : session :=
  match depth with
  | O => s
  | S depth' =>
    fold_left
      (fun s '(i, row) =>
         if circles_intersect (circle_of start_mezo) (circle_of row) then
           let new_all_mezo := list_pop i all_mezo in
           let new_iter_row := row in
           let s := remove_mezo_from_viewer row s in
           recursive_removing_upto depth' new_iter_row new_all_mezo s
         else s)
      (enumerate all_mezo) s
  end.

Definition recursive_removing (start_mezo : mezo_row) (all_mezo : list mezo_row)
  (s : session) : session :=
  recursive_removing_upto (List.length all_mezo) start_mezo all_mezo s.

(** [recursive_adding(start_mezo, all_mezo)], editor.py 1540-1567. *)
Fixpoint recursive_adding_upto (depth : nat) (start_mezo : mezo_row)
  (all_mezo : list mezo_row) (s : session) : session :=
  match depth with
  | O => s
  | S depth' =>
    fold_left
      (fun s '(i, row) =>
         if circles_intersect (circle_of start_mezo) (circle_of row) then
           let new_all_mezo := list_pop i all_mezo in
           let new_iter_row := row in
           let s :=
             add_mezo_to_viewer (center_x row) (center_y row) (diameter row / 2)
                                true s in
           recursive_adding_upto depth' new_iter_row new_all_mezo s
         else s)
      (enumerate all_mezo) s
  end.

Definition recursive_adding (start_mezo : mezo_row) (all_mezo : list mezo_row)
  (s : session) : session :=
  recursive_adding_upto (List.length all_mezo) start_mezo all_mezo s.

(** ** Tools *)

(** Sequencing of handlers that may raise. *)
Definition bind {A B} (o : option A) (f : A -> option B) : option B :=
  match o with Some a => f a | None => None end.

Notation "x <- c1 ;; c2" := (bind c1 (fun x => c2))
  (at level 61, c1 at next level, right associativity).

(** [magic_select(coord)], editor.py 684-725. *)
Definition magic_select (coord : Z * Z) (s : session) : option session :=
  match sam_model s with
  | None => None
  | Some predict =>
    let '((x, y), radius) := predict coord in
    let s := add_mezo_to_db (inject_Z x, inject_Z y) (radius * 2) s in
    Some (add_mezo_to_viewer (inject_Z x) (inject_Z y) radius false s)
  end.

(** [manual_select(coord)], editor.py 727-795. *)
Definition manual_select (coord : Z * Z) (s : session) : session :=
  let '(x, y) := coord in
  match current_coord s with
  | None =>
    let s := set_current_coord (Some (x, y)) (center_markers s ++ [(x, y)]) s in
    update_status_message
      (Msg "Click on the outer point of the mezophase to set the diameter.") s
  | Some (x0, y0) =>
    let radius :=
      math_sqrt (inject_Z ((x - x0) * (x - x0) + (y - y0) * (y - y0))) in
    let s := set_current_coord None (removelast (center_markers s)) s in
    let s := add_mezo_to_db (inject_Z x0, inject_Z y0) (radius * 2) s in
    let s := add_mezo_to_viewer (inject_Z x0) (inject_Z y0) radius false s in
    update_status_message (Msg "Click on the center of mezophase.") s
  end.

(** The key of [remove_mezo]: ['undo'], a mezo id, or [None]. *)
Inductive key := Key_undo | Key_id (id : Z) | Key_none.

(** [not key]. *)
Definition key_falsy (k : key) : bool :=
  match k with
  | Key_none => true
  | Key_id id => (id =? 0)%Z
  | Key_undo => false
  end.

Definition is_undo (k : key) : bool :=
  match k with Key_undo => true | _ => false end.

(** The row that [remove_mezo] selects, editor.py 1578-1589: the last mezo
    of the image for ['undo'], the mezo with the given id otherwise. *)
Definition fetch_mezo (k : key) (s : session) : option mezo_row :=
  match k with
  | Key_undo => db_select_last (image_id s) (db s)
  | Key_id id => db_select_id id (db s)
  | Key_none => None
  end.

(** [remove_mezo(key)], editor.py 1439-1633. *)
Definition remove_mezo (k : key) (s : session) : option session :=
  if key_falsy k then Some s
  else
    let image_id_ := image_id s in
    match fetch_mezo k s with
    | None => None
    | Some mezo_to_remove =>
      let s := set_db (db_delete (mezo_id mezo_to_remove) (db s)) s in
      let s := get_mezo_data image_id_ s in
      let rows := db_select_image image_id_ (db s) in
      let prev_masks_ := prev_masks s in
      if (0 <? List.length prev_masks_)%nat && is_undo k then
        let last_mask := last prev_masks_ (mask s) in
        let s := set_prev_masks (removelast prev_masks_) s in
        Some (save_mask last_mask s)
      else
        let s := remove_mezo_from_viewer mezo_to_remove s in
        let s := recursive_removing mezo_to_remove rows s in
        Some (recursive_adding mezo_to_remove rows s)
    end.

(** The Euclidean distance check of [remove_tool], editor.py 814-818. *)
Definition contains_click (x y : Z) (mezo : mezo_row) : bool :=
  let x0 := center_x mezo in
  let y0 := center_y mezo in
  let radius := diameter mezo / 2 in
  py_leb (math_sqrt ((inject_Z x - x0) * (inject_Z x - x0)
                     + (inject_Z y - y0) * (inject_Z y - y0)))
         radius.

(** The search loop of [remove_tool], editor.py 810-820. *)
Definition mezo_to_remove_at (x y : Z) (data : list mezo_row) : option Z :=
  match find (contains_click x y) (rev data) with
  | Some mezo => Some (mezo_id mezo)
  | None => None
  end.

Definition key_of (o : option Z) : key :=
  match o with Some id => Key_id id | None => Key_none end.

(** [remove_tool(coord)], editor.py 797-823. *)
Definition remove_tool (coord : Z * Z) (s : session) : option session :=
  let '(x, y) := coord in
  match mezo_data s with
  | None => None
  | Some data => remove_mezo (key_of (mezo_to_remove_at x y data)) s
  end.

(** ** Gesture end, keyboard and tool selection *)

Definition set_status_if_no_tool (m : status) (s : session) : session :=
  match tool s with
  | None => update_status_message m s
  | Some _ => s
  end.

(** [viewer_interaction_end(e)], editor.py 369-560. *)
Definition viewer_interaction_end (s : session) : option session :=
  let v := view s in
  match image_size v with
  | None => None
  | Some _ =>
    match move v with
    | Some mv =>
      v' <- end_moving mv v ;;
      Some (set_status_if_no_tool (Msg "moving") (set_view v' s))
    | None =>
      match scale v, scale_limit v with
      | Some sc, false =>
        v' <- end_scaling sc v ;;
        Some (set_status_if_no_tool (Msg "scaling") (set_view v' s))
      | _, _ =>
        if scale_limit v then
          Some (update_status_message (Msg "scale limit has been reached") s)
        else
          coord <- click_coord v ;;
          match tool s with
          | None => Some (update_status_message (Msg_click (fst coord) (snd coord)) s)
          | Some Magic_select => magic_select coord s
          | Some Manual_select => Some (manual_select coord s)
          | Some Remove_tool => remove_tool coord s
          end
      end
    end
  end.

(** [sam_init()], editor.py 1263-1293. *)
Definition sam_init (s : session) : session :=
  match sam_model s with
  | None => set_sam_model (Some (image_predictor s)) s
  | Some _ => s
  end.

(** The cancellation of a selected centre, shared by [change_tool] and the
    Escape key: the key is removed and the last control of the canvas
    stack deleted. *)
Definition drop_current_coord (s : session) : session :=
  match current_coord s with
  | Some _ => set_current_coord None (removelast (center_markers s)) s
  | None => s
  end.

Definition tools : list tool_name := [Magic_select; Manual_select; Remove_tool].

(** [change_tool(e)], editor.py 1295-1344. *)
Definition change_tool (index : nat) (s : session) : option session :=
  match nth_error tools index with
  | None => None
  | Some t =>
    let s := set_tool (Some t) s in
    match t with
    | Magic_select =>
      let s := drop_current_coord s in
      let s := sam_init s in
      Some (update_status_message (Msg "Model is ready!") s)
    | Manual_select =>
      let s := drop_current_coord s in
      Some (update_status_message (Msg "Click on the center of mezophase.") s)
    | Remove_tool =>
      let s := drop_current_coord s in
      Some (update_status_message (Msg "Click on mezophase to remove it.") s)
    end
  end.

(** [on_keyboard(e)], editor.py 1381-1437. *)
Definition on_keyboard (e_key : string) (e_ctrl : bool) (s : session)
  : option session :=
  s <- (if String.eqb e_key "Escape" then
          match current_coord s with
          | Some _ => Some (drop_current_coord s)
          | None => Some (set_tool None s)
          end
        else Some s) ;;
  s <- (if String.eqb e_key "1" then change_tool 0 s else Some s) ;;
  s <- (if String.eqb e_key "2" then change_tool 1 s else Some s) ;;
  s <- (if String.eqb e_key "3" then change_tool 2 s else Some s) ;;
  if String.eqb e_key "Z" && e_ctrl then
    let ready_to_drop :=
      match mezo_data s with
      | Some data =>
        match current_coord s with
        | None => (0 <? List.length data)%nat
        | Some _ => false
        end
      | None => false
      end in
    if ready_to_drop then remove_mezo Key_undo s else Some s
  else Some s.

(** ** Opening an image *)

(** What [open_image] reads from the disk and from the tables [samples] and
    [images]: the image id, the image size and the predictor that the model
    gives for this image. *)
Record image_file := mk_image_file {
  file_image_id : Z;
  file_size : Z * Z;
  file_predictor : predictor
}.

Definition set_view_scale (x : Q) (drop_offsets : bool) (v : viewport) : viewport :=
  {| image_size := image_size v;
     viewer_size := viewer_size v;
     viewer_scale := x;
     window_scale := window_scale v;
     image_scale := image_scale v;
     scale := scale v;
     main_offset := main_offset v;
     viewer_offset := if drop_offsets then None else viewer_offset v;
     margin := margin v;
     start_cursor := start_cursor v;
     start_scale := start_scale v;
     start_offset := if drop_offsets then None else start_offset v;
     move := move v |}.

Definition set_image_size (sz : Z * Z) (v : viewport) : viewport :=
  {| image_size := Some sz;
     viewer_size := viewer_size v;
     viewer_scale := viewer_scale v;
     window_scale := window_scale v;
     image_scale := image_scale v;
     scale := scale v;
     main_offset := main_offset v;
     viewer_offset := viewer_offset v;
     margin := margin v;
     start_cursor := start_cursor v;
     start_scale := start_scale v;
     start_offset := start_offset v;
     move := move v |}.

(** [open_image(sample_id, image_index)], editor.py 825-960; [page_width]
    and [page_height] are the page's size, read by [window_resized(page)]. *)
Definition open_image (f : image_file) (page_width page_height : Q) (s : session)
  : session :=
  let id := file_image_id f in
  let mask_ :=
    match mask_files s id with
    | Some m => m
    | None => image_new transparent
    end in
  let v := set_view_scale 1 true (view s) in
  let v := set_image_size (file_size f) v in
  let v := window_resized page_width page_height v in
  {| view := v;
     tool := None;
     current_coord := None;
     center_markers := [];
     image_id := id;
     mezo_data := Some (db_select_image id (db s));
     mask := mask_;
     mask_files := mask_files s;
     prev_masks := [];
     db := db s;
     sam_model := None;
     image_predictor := file_predictor f;
     status_message := Msg "" |}.

(** [reset_viewer(e)], editor.py 1346-1379. *)
Definition reset_viewer (page_width page_height : Q) (s : session) : session :=
  let v := view s in
  let v :=
    {| image_size := image_size v;
       viewer_size := viewer_size v;
       viewer_scale := 1;
       window_scale := window_scale v;
       image_scale := window_scale v;
       scale := scale v;
       main_offset := main_offset v;
       viewer_offset := None;
       margin := margin v;
       start_cursor := start_cursor v;
       start_scale := start_scale v;
       start_offset := None;
       move := move v |} in
  set_view (window_resized page_width page_height v) s.

(** ** The editor as an event-driven machine *)

Inductive event :=
| Interaction_start (local_focal_point : Q * Q)
| Interaction_update (e_scale : Q) (local_focal_point : Q * Q)
| Interaction_end
| Keyboard (e_key : string) (e_ctrl : bool)
| Toolbar_change (selected_index : nat)
| Window_resize (width height : Q)
| Reset_viewer (page_width page_height : Q)
| Open_image (f : image_file) (page_width page_height : Q).

Definition handle (e : event) (s : session) : option session :=
  match e with
  | Interaction_start p => Some (set_view (viewer_interaction_start p (view s)) s)
  | Interaction_update sc p =>
    Some (set_view (viewer_interaction_update sc p (view s)) s)
  | Interaction_end => viewer_interaction_end s
  | Keyboard k c => on_keyboard k c s
  | Toolbar_change i => change_tool i s
  | Window_resize w h => Some (set_view (window_resized w h (view s)) s)
  | Reset_viewer w h => Some (reset_viewer w h s)
  | Open_image f w h => Some (open_image f w h s)
  end.

(** A handler that raises leaves the session as it was when the event
    arrived; the application goes on with the next event. *)
Definition step (e : event) (s : session) : session :=
  match handle e s with
  | Some s' => s'
  | None => s
  end.

Definition run (es : list event) (s : session) : session :=
  fold_left (fun s e => step e s) es s.

(** ** Notions used in the statements *)

(** What [remove_mezo_from_viewer] and [add_mezo_to_viewer] do to the
    mask. *)
Definition erase_mezo (row : mezo_row) (m : image) : image :=
  draw_ellipse (center_x row) (center_y row) (diameter row / 2) transparent None m.

Definition paint_mezo (row : mezo_row) (m : image) : image :=
  alpha_composite m (mezo_overlay (center_x row) (center_y row) (diameter row / 2)).

Definition erase_all (rows : list mezo_row) (m : image) : image :=
  fold_left (fun m row => erase_mezo row m) rows m.

Definition paint_all (rows : list mezo_row) (m : image) : image :=
  fold_left (fun m row => paint_mezo row m) rows m.

Definition intersects (r1 r2 : mezo_row) : Prop :=
  circles_intersect (circle_of r1) (circle_of r2) = true.

(** The rows in the order in which the traversal of [recursive_removing]
    and [recursive_adding] reaches them; a row reached along several chains
    is listed once for each. *)
Fixpoint discovery_order_upto (depth : nat) (start_mezo : mezo_row)
  (all_mezo : list mezo_row) : list mezo_row :=
  match depth with
  | O => []
  | S depth' =>
    flat_map
      (fun '(i, row) =>
         if circles_intersect (circle_of start_mezo) (circle_of row) then
           row :: discovery_order_upto depth' row (list_pop i all_mezo)
         else [])
      (enumerate all_mezo)
  end.

Definition discovery_order (start_mezo : mezo_row) (all_mezo : list mezo_row)
  : list mezo_row :=
  discovery_order_upto (List.length all_mezo) start_mezo all_mezo.


(** Between [s] and [s'] nothing but the mask and its file has changed. *)
Definition only_mask_changed (s s' : session) : Prop :=
  view s' = view s /\ tool s' = tool s /\ current_coord s' = current_coord s /\
  center_markers s' = center_markers s /\ image_id s' = image_id s /\
  mezo_data s' = mezo_data s /\ prev_masks s' = prev_masks s /\
  db s' = db s /\ sam_model s' = sam_model s /\
  image_predictor s' = image_predictor s /\
  status_message s' = status_message s.

(** "An undo snapshot of the mask as it was before the transition from [s]
    to [s'] has been pushed." *)
Definition snapshot_pushed (s s' : session) : Prop :=
  prev_masks s' = push_mask (mask s) (prev_masks s).

(** "The transition from [s] to [s'] created no record and left the mask
    unchanged." *)
Definition nothing_changed (s s' : session) : Prop :=
  mezo_table (db s') = mezo_table (db s) /\
  forall px py, mask s' px py = mask s px py.

(** Two masks that agree on every pixel. *)
Definition pixel_identical (m1 m2 : image) : Prop :=
  forall px py, m1 px py = m2 px py.

(** The session mirrors the store, as [get_mezo_data] leaves it. *)
Definition mirrors_store (s : session) : Prop :=
  mezo_data s = Some (db_select_image (image_id s) (db s)).

(** A gesture end that is handled as a click: no pan and no zoom are
    pending and the scale limit is not reported. *)
Definition is_tap (v : viewport) : Prop :=
  move v = None /\ scale v = None /\ scale_limit v = false.

Definition margins_nonneg (m : margins) : Prop :=
  0 <= left m /\ 0 <= top m /\ 0 <= right m /\ 0 <= bottom m.

(** The margin invariant as the specification words it. *)
Definition margin_invariant (v : viewport) : Prop :=
  let bb := bounding_box_of v in
  margins_nonneg (margin v) /\
  left (margin v) + right (margin v)
    == bounding_box_width bb - scaled_image_width bb /\
  top (margin v) + bottom (margin v)
    == bounding_box_height bb - scaled_image_height bb.

(** The two margins [lo], [hi] of one axis after a reconciliation: either
    one of them is pinned to 0 and they sum to the play of the image inside
    its bounding box, or nothing was pinned and they sum to [free]. *)
Definition axis_reconciled (lo hi play free : Q) : Prop :=
  ((lo == 0 \/ hi == 0) /\ lo + hi == play) \/ lo + hi == free.

(** ** Example sessions *)

Definition blank_viewport : viewport :=
  {| image_size := None; viewer_size := (0, 0); viewer_scale := 1;
     window_scale := 1; image_scale := 1; scale := None;
     main_offset := mk_offset 0 0; viewer_offset := None;
     margin := zero_margins; start_cursor := (0, 0); start_scale := 1;
     start_offset := None; move := None |}.

(** The session before the first image is opened. *)
Definition blank_session : session :=
  {| view := blank_viewport; tool := None; current_coord := None;
     center_markers := []; image_id := 0; mezo_data := None;
     mask := image_new transparent; mask_files := fun _ => None;
     prev_masks := []; db := mk_database [] 0; sam_model := None;
     image_predictor := fun c => (c, 0); status_message := Msg "" |}.

(** An 800x600 image; its predictor answers every click with a circle of
    radius 5 around it. *)
Definition sample_file : image_file :=
  {| file_image_id := 1; file_size := (800, 600)%Z;
     file_predictor := fun c => (c, 5) |}.

(** The image opened in a window whose viewer measures 800x600. *)
Definition opened : session := open_image sample_file 810 676 blank_session.

(** A tap at a viewport point. *)
Definition tap (x y : Q) : list event := [Interaction_start (x, y); Interaction_end].

(** The first gesture after opening finds the ['scale'] key left by
    [update_scale(1)] and is reconciled as a zoom; the session after it. *)
Definition ready : session := run (tap 0 0) opened.

(** A zoom by the factor 2 about the viewport point (0, 0). *)
Definition zoomed : session :=
  run [Interaction_start (0, 0); Interaction_update 2 (0, 0); Interaction_end] ready.

(** A small zoom, by the factor 1.001, about the viewport point (100, 50):
    the viewport when the gesture ends. *)
Definition nudging : viewport :=
  view (run [Interaction_start (100, 50);
             Interaction_update (1001 # 1000) (100, 50)] ready).

(** A pan by (30, -20) at the viewer scale 2: the viewport when the gesture
    ends. *)
Definition panning : viewport :=
  view (run [Interaction_start (400, 300);
             Interaction_update 1 (430, 280)] zoomed).

(** Manual select: a circle from a click on its centre and a click on its
    rim. *)
Definition draw_circle (cx cy rx ry : Q) : list event := tap cx cy ++ tap rx ry.

(** Three annotations drawn with Manual select: A and C of radius 10 around
    (20, 20) and (40, 20), which touch without intersecting, and between
    them B of radius 1 around (30, 24), which intersects both. *)
Definition three_circles : session :=
  run (Keyboard "2" false
         :: draw_circle 20 20 30 20 ++ draw_circle 30 24 31 24
         ++ draw_circle 40 20 50 20)
      ready.

(** The same session had B never been drawn. *)
Definition two_circles : session :=
  run (Keyboard "2" false :: draw_circle 20 20 30 20 ++ draw_circle 40 20 50 20)
      ready.


(** B removed with the Remove tool, by a click on its centre. *)
Definition b_removed : session :=
  run (Keyboard "3" false :: tap 30 24) three_circles.

(** The image with its three annotations closed and opened again, which
    empties the undo history. *)
Definition reopened : session := open_image sample_file 810 676 three_circles.

(** After reopening, B removed with the Remove tool. *)
Definition reopened_b_removed : session :=
  run (tap 0 0 ++ Keyboard "3" false :: tap 30 24) reopened.

(** After reopening, Ctrl+Z. *)
Definition reopened_undone : session := run [Keyboard "Z" true] reopened.

(** Manual select with both clicks on the image point (100, 100). *)
Definition degenerate : session :=
  run (Keyboard "2" false :: draw_circle 100 100 100 100) ready.

(** The Remove tool selected after reopening and a click on B begun: the
    session when the gesture ends. *)
Definition remove_click : session :=
  run (tap 0 0 ++ [Keyboard "3" false; Interaction_start (30, 24)]) reopened.

(** Manual select with the centre set at (100, 100) and the second click
    begun on the same point: the session when the gesture ends. *)
Definition degenerate_click : session :=
  run (Keyboard "2" false :: tap 100 100 ++ [Interaction_start (100, 100)]) ready.


(** The mask file of the open image holds the mask of the session; or
    there is no such file yet and the mask is still the transparent one
    that [open_image] made. *)
Definition mask_saved (s : session) : Prop :=
  match mask_files s (image_id s) with
  | Some m => m = mask s
  | None => mask s = image_new transparent
  end.

(** From [s] to [s'] the open image is the same, the mask files of the
    other images are untouched, and a saved mask stays saved. *)
Definition same_image (s s' : session) : Prop :=
  image_id s' = image_id s /\
  (forall i, i <> image_id s -> mask_files s' i = mask_files s i) /\
  (mask_saved s -> mask_saved s').

Definition opens_image (e : event) : bool :=
  match e with Open_image _ _ _ => true | _ => false end.

(** The mask shows the stored annotations of the open image, painted in
    their insertion order on a transparent image. *)
Definition mask_shows_store (s : session) : Prop :=
  pixel_identical (mask s)
    (paint_all (db_select_image (image_id s) (db s)) (image_new transparent)).




(** The three circles drawn right after the image was opened. *)
Definition drawn : session :=
  run (tap 0 0 ++ Keyboard "2" false
         :: draw_circle 20 20 30 20 ++ draw_circle 30 24 31 24
         ++ draw_circle 40 20 50 20)
      (open_image sample_file 810 676 blank_session).

(** The primary key of [mezo_data] (main.py: [mezo_id INTEGER PRIMARY KEY
    AUTOINCREMENT]): the ids are positive, they grow along the table and
    none is above the last one given out. *)
Definition store_wf (d : database) : Prop :=
  StronglySorted (fun a b => (mezo_id a < mezo_id b)%Z) (mezo_table d) /\
  Forall (fun r => (0 < mezo_id r <= mezo_seq d)%Z) (mezo_table d) /\
  (0 <= mezo_seq d)%Z.

(** What one event can do to the store: nothing, one [INSERT] or one
    [DELETE]. *)
Definition store_step (d d' : database) : Prop :=
  d' = d \/
  (exists i cx cy dm sq, d' = db_insert i cx cy dm sq d) \/
  (exists k, d' = db_delete k d).

(** What a step keeps of the store it started from. *)
Definition store_extends (d d' : database) : Prop :=
  (mezo_seq d <= mezo_seq d')%Z /\
  forall r, In r (mezo_table d') ->
            In r (mezo_table d) \/ (mezo_seq d < mezo_id r)%Z.

(** "The session [s2] has the table, the collection, the mask, the mask file
    and the history of [s] again"; the sequence number stays advanced by the
    record that was created and deleted in between. *)
Definition creation_undone (s s2 : session) : Prop :=
  mezo_table (db s2) = mezo_table (db s) /\
  mezo_seq (db s2) = (mezo_seq (db s) + 1)%Z /\
  mezo_data s2 = Some (db_select_image (image_id s) (db s)) /\
  mask s2 = mask s /\
  mask_files s2 (image_id s) = Some (mask s) /\
  ((List.length (prev_masks s) < 3)%nat -> prev_masks s2 = prev_masks s) /\
  (forall oldest rest,
     prev_masks s = oldest :: rest -> (3 <= List.length (prev_masks s))%nat ->
     prev_masks s2 = rest).

(** Manual select with the centre of a circle set at (20, 20). *)
Definition centre_set : session := run (Keyboard "2" false :: tap 20 20) ready.

(** The circles A and C drawn and the Remove tool selected. *)
Definition removing : session := run [Keyboard "3" false] two_circles.

(** The canvas stack carries one centre indicator, that of the pending
    centre, while a centre of Manual select is pending, and none
    otherwise. *)
Definition markers_match (s : session) : Prop :=
  match current_coord s with
  | Some c => center_markers s = [c]
  | None => center_markers s = []
  end.

(** A zoom by the factor 20 about the viewport point (0, 0), which the clamp
    stops at the viewer scale 15. *)
Definition full_zoom : session :=
  run [Interaction_start (0, 0); Interaction_update 20 (0, 0); Interaction_end] ready.

(** ** Navigation between the images of a sample *)

(** [COLOR_SCHEME['primary']], editor.py 85. *)
Definition primary : string := "#C3C7CF".

(** An arrow button of the menubar: [disabled] and [icon_color]. *)
Record arrow := mk_arrow { disabled : bool; icon_color : string }.

(** What the navigation handlers read and write around the editor: the
    ['count'] and the ['images'] of ['sample_data'] (a dictionary keyed by
    the indices 0, 1, ...), ['image_index'], the arrow buttons and the page
    whose size [open_image] passes to [window_resized]. *)
Record navigator := mk_navigator {
  sample_count : Z;
  sample_images : list image_file;
  image_index : Z;
  left_arrow : arrow;
  right_arrow : arrow;
  page_size : Q * Q;
  editor : session
}.

(** [arrow_styling(image_index, image_count)], editor.py 993-1022: the left
    and the right arrow. *)
Definition arrow_styling (image_index_ image_count : Z) : arrow * arrow :=
  let left_arrow_ := mk_arrow false primary in
  let right_arrow_ := mk_arrow false primary in
  if (image_index_ =? 0)%Z then
    (mk_arrow true (primary ++ ",0.25"), right_arrow_)
  else if (image_index_ =? image_count - 1)%Z then
    (left_arrow_, mk_arrow true (primary ++ ",0.25"))
  else (left_arrow_, right_arrow_).

(** [sample_data['images'][image_index]]: a missing key raises. *)
Definition image_at (image_index_ : Z) (images : list image_file)
  : option image_file :=
  if (image_index_ <? 0)%Z then None
  else nth_error images (Z.to_nat image_index_).

(** The common tail of [previous_image] and [next_image], editor.py
    1039-1041 and 1059-1061. *)
Definition go_to_image (image_index_ : Z) (n : navigator) : option navigator :=
  let '(left_arrow_, right_arrow_) := arrow_styling image_index_ (sample_count n) in
  f <- image_at image_index_ (sample_images n) ;;
  Some {| sample_count := sample_count n;
          sample_images := sample_images n;
          image_index := image_index_;
          left_arrow := left_arrow_;
          right_arrow := right_arrow_;
          page_size := page_size n;
          editor := open_image f (fst (page_size n)) (snd (page_size n)) (editor n) |}.

(** [previous_image(e)], editor.py 1024-1042. *)
Definition previous_image (n : navigator) : option navigator :=
  let image_index_ := image_index n in
  if (0 <? image_index_)%Z then go_to_image (image_index_ - 1) n
  else Some n.

(** [next_image(e)], editor.py 1044-1062. *)
Definition next_image (n : navigator) : option navigator :=
  let image_index_ := image_index n in
  let image_count := sample_count n in
  if (image_index_ <? image_count - 1)%Z then go_to_image (image_index_ + 1) n
  else Some n.

Definition set_editor (s : session) (n : navigator) : navigator :=
  {| sample_count := sample_count n;
     sample_images := sample_images n;
     image_index := image_index n;
     left_arrow := left_arrow n;
     right_arrow := right_arrow n;
     page_size := page_size n;
     editor := s |}.

(** The clicks on the arrows and the events of the editor in between. *)
Inductive nav_event :=
| Previous_click
| Next_click
| Editing (es : list event).

Definition nav_handle (e : nav_event) (n : navigator) : option navigator :=
  match e with
  | Previous_click => previous_image n
  | Next_click => next_image n
  | Editing es => Some (set_editor (run es (editor n)) n)
  end.

(** The events handled one after the other, as long as no navigation
    handler raises. *)
Fixpoint nav_run (es : list nav_event) (n : navigator) : option navigator :=
  match es with
  | [] => Some n
  | e :: es => n' <- nav_handle e n ;; nav_run es n'
  end.

(** The editor as [open_editor] and the menubar start it, editor.py
    1926-1937 and 2036, library.py 147: the first image open, the left
    arrow disabled, the right one enabled. *)
Definition nav_start (count : Z) (images : list image_file) (page : Q * Q)
  (f : image_file) (s : session) : navigator :=
  {| sample_count := count;
     sample_images := images;
     image_index := 0;
     left_arrow := mk_arrow true (primary ++ ",0.25");
     right_arrow := mk_arrow false primary;
     page_size := page;
     editor := open_image f (fst page) (snd page) s |}.

(** The arrows show where the index stands. *)
Definition arrows_match (n : navigator) : Prop :=
  disabled (left_arrow n) = (image_index n =? 0)%Z /\
  disabled (right_arrow n)
  = negb (image_index n =? 0)%Z && (image_index n =? sample_count n - 1)%Z /\
  icon_color (left_arrow n)
  = (if disabled (left_arrow n) then primary ++ ",0.25" else primary)%string /\
  icon_color (right_arrow n)
  = (if disabled (right_arrow n) then primary ++ ",0.25" else primary)%string.

Definition nav_wf (n : navigator) : Prop :=
  sample_count n = Z.of_nat (List.length (sample_images n)) /\
  (0 <= image_index n < sample_count n)%Z /\
  arrows_match n /\
  exists f, image_at (image_index n) (sample_images n) = Some f /\
            image_id (editor n) = file_image_id f.

(** The editor events of a navigation sequence open no image themselves. *)
Definition edits_only (e : nav_event) : Prop :=
  match e with
  | Editing es => forallb (fun e => negb (opens_image e)) es = true
  | _ => True
  end.

(** A second image of the sample. *)
Definition second_file : image_file :=
  {| file_image_id := 2; file_size := (640, 480)%Z;
     file_predictor := fun c => (c, 5) |}.

(** The editor started on a sample of two images. *)
Definition two_images : navigator :=
  nav_start 2 [sample_file; second_file] (810, 676) sample_file blank_session.

(** From [s] to [s'] the store, the collection of the session, the mask,
    the mask files and the undo history are untouched, and the same image
    is open. *)
Definition annotations_kept (s s' : session) : Prop :=
  db s' = db s /\ mezo_data s' = mezo_data s /\ mask s' = mask s /\
  mask_files s' = mask_files s /\ prev_masks s' = prev_masks s /\
  image_id s' = image_id s.

(** The events whose handlers can reach a tool, the undo or [open_image]. *)
Definition may_edit (e : event) : bool :=
  match e with
  | Interaction_end => true
  | Keyboard e_key e_ctrl => String.eqb e_key "Z" && e_ctrl
  | Open_image _ _ _ => true
  | _ => false
  end.








(** The two clicks of Manual select that draw one circle: the centre, then
    a point of the outline. *)
Definition create_circle (clicks : (Z * Z) * (Z * Z)) (s : session) : session :=
  manual_select (snd clicks) (manual_select (fst clicks) s).

Definition create_all (circles : list ((Z * Z) * (Z * Z))) (s : session) : session :=
  fold_left (fun s clicks => create_circle clicks s) circles s.

(** Ctrl+Z pressed [k] times, as long as the handler returns. *)
Fixpoint undo_times (k : nat) (s : session) : option session :=
  match k with
  | O => Some s
  | S k => s' <- on_keyboard "Z" true s ;; undo_times k s'
  end.

(** The annotations of [s'] are those of [s]: the same rows, collection,
    mask, undo history, pending centre and image; the sequence number of
    the store may have advanced. *)
Definition same_annotations (s s' : session) : Prop :=
  mezo_table (db s') = mezo_table (db s) /\
  (mezo_seq (db s) <= mezo_seq (db s'))%Z /\
  mezo_data s' = mezo_data s /\
  mask s' = mask s /\
  prev_masks s' = prev_masks s /\
  current_coord s' = current_coord s /\
  image_id s' = image_id s.

(** Manual select chosen on the opened image. *)
Definition manual_ready : session := run [Keyboard "2" false] ready.

(** ** Binary64 arithmetic

    The floats of the program are binary64 numbers, and every operation on
    them rounds its exact result to the nearest one.  [b64] is that
    rounding on the rationals; overflow to infinity is not part of it, so
    it stands for the operation only on results below [2^1024] in
    magnitude. *)

(** [floor(log2 |x|)] of a rational other than 0. *)
Definition Qlog2 (x : Q) : Z :=
  let e := (Z.log2 (Z.abs (Qnum x)) - Z.log2 (Zpos (Qden x)))%Z in
  if Qle_bool (2 ^ e) (Qabs x) then e else (e - 1)%Z.

(** The distance of the binary64 numbers around [x]: 53 significant bits,
    and [2^-1074] in the subnormal range. *)
Definition b64_ulp (x : Q) : Q := 2 ^ Z.max (Qlog2 x - 52) (-1074).

(** The binary64 number nearest to [x], ties to the even significand. *)
Definition b64 (x : Q) : Q := inject_Z (py_round (x / b64_ulp x)) * b64_ulp x.

(** The unit roundoff [2^-53], and half the smallest subnormal number. *)
Definition b64_u : Q := 1 # 9007199254740992.
Definition b64_tiny : Q := 2 ^ (-1075).

(** The rational that a finite [spec_float] stands for. *)
Definition sf_value (f : spec_float) : Q :=
  match f with
  | S754_finite s m e => (if s then -1 else 1) * inject_Z (Zpos m) * 2 ^ e
  | _ => 0
  end.

(** The click coordinates of [viewer_interaction_end], editor.py 536-543,
    in binary64 arithmetic: the integer offset is converted to a float, the
    difference and the quotient are rounded, and a division by an image
    scale of 0 raises ZeroDivisionError. *)
Definition click_coord_b64 (v : viewport) : option (Z * Z) :=
  match viewer_offset v with
  | None => None
  | Some offset_ =>
    if py_eqb (image_scale v) 0 then None
    else
      Some (py_round (b64 (b64 (fst (start_cursor v) - b64 (inject_Z (off_x offset_)))
                           / image_scale v)),
            py_round (b64 (b64 (snd (start_cursor v) - b64 (inject_Z (off_y offset_)))
                           / image_scale v)))
  end.

(** [update_scale(scale)], editor.py 255-309, in binary64 arithmetic: every
    float operation is rounded, the integers of the image size are converted
    to floats first, and the divisions raise ZeroDivisionError on a zero
    divisor. *)
Definition update_scale_b64 (factor : Q) (v : viewport) : option viewport :=
  match image_size v with
  | None => Some v
  | Some (image_width, image_height) =>
    let '(viewer_width, viewer_height) := viewer_size v in
    let viewer_scale_0 := viewer_scale v in
    let viewer_scale' := b64 (viewer_scale_0 * factor) in
    let viewer_scale' := py_max 1 (py_min 15 viewer_scale') in
    if (image_width =? 0)%Z || (image_height =? 0)%Z then None
    else
      let window_scale' :=
        py_min3 (b64 (viewer_width / b64 (inject_Z image_width)))
                (b64 (viewer_height / b64 (inject_Z image_height))) 1 in
      let image_scale' := b64 (window_scale' * viewer_scale') in
      let scaled_image_width := b64 (b64 (inject_Z image_width) * image_scale') in
      let scaled_image_height := b64 (b64 (inject_Z image_height) * image_scale') in
      let main_viewer_offset :=
        mk_offset (py_round (b64 (b64 (viewer_width - scaled_image_width) / 2)))
                  (py_round (b64 (b64 (viewer_height - scaled_image_height) / 2))) in
      let first := match viewer_offset v with None => true | Some _ => false end in
      if py_eqb viewer_scale_0 0 then None
      else
        Some {| image_size := image_size v;
                viewer_size := viewer_size v;
                viewer_scale := viewer_scale';
                window_scale := window_scale';
                image_scale := image_scale';
                scale := Some (b64 (viewer_scale' / viewer_scale_0));
                main_offset := main_viewer_offset;
                viewer_offset := if first then Some main_viewer_offset else viewer_offset v;
                margin := if first then zero_margins else margin v;
                start_cursor := start_cursor v;
                start_scale := start_scale v;
                start_offset := start_offset v;
                move := move v |}
  end.

(** A portrait image of 1200 x 1600 pixels in a viewer of 1910 x 880,
    before the first [update_scale]. *)
Definition tall_image : viewport :=
  {| image_size := Some (1200, 1600)%Z;
     viewer_size := (1910, 880);
     viewer_scale := 1;
     window_scale := 1;
     image_scale := 1;
     scale := None;
     main_offset := mk_offset 0 0;
     viewer_offset := None;
     margin := zero_margins;
     start_cursor := (0, 0);
     start_scale := 1;
     start_offset := None;
     move := None |}.

(** A gesture that starts at the viewport point (6, 6) while the image
    scale is the float 0.8 and the viewer offset is (0, 0): half way
    between the image points 7 and 8, up to the rounding of 0.8. *)
Definition boundary_click : viewport :=
  {| image_size := Some (1000, 750)%Z;
     viewer_size := (800, 600);
     viewer_scale := 1;
     window_scale := b64 (4 # 5);
     image_scale := b64 (4 # 5);
     scale := None;
     main_offset := mk_offset 0 0;
     viewer_offset := Some (mk_offset 0 0);
     margin := zero_margins;
     start_cursor := (6, 6);
     start_scale := 1;
     start_offset := Some (mk_offset 0 0);
     move := None |}.

(** A gesture that starts at (35, 143/10) while the image scale is the
    float 0.8 and the viewer offset is (3, -2). *)
Definition inner_click : viewport :=
  {| image_size := Some (1000, 750)%Z;
     viewer_size := (800, 600);
     viewer_scale := 1;
     window_scale := b64 (4 # 5);
     image_scale := b64 (4 # 5);
     scale := None;
     main_offset := mk_offset 0 0;
     viewer_offset := Some (mk_offset 3 (-2));
     margin := zero_margins;
     start_cursor := (35, 143 # 10);
     start_scale := 1;
     start_offset := Some (mk_offset 3 (-2));
     move := None |}.

(* ================================================================== *)
(** * Properties *)

(** ** Python numerics *)

Lemma py_ltb_lt a b : py_ltb a b = true <-> a < b.
Proof.
  unfold py_ltb. rewrite negb_true_iff.
  destruct (Qle_bool b a) eqn:E.
  - apply Qle_bool_iff in E. split; [discriminate | intro H; exfalso; lra].
  - split; [intros _ | reflexivity].
    apply Qnot_le_lt. intro H. apply Qle_bool_iff in H. congruence.
Qed.

Lemma py_ltb_ge a b : py_ltb a b = false <-> b <= a.
Proof.
  unfold py_ltb. rewrite negb_false_iff. apply Qle_bool_iff.
Qed.

Lemma py_leb_le a b : py_leb a b = true <-> a <= b.
Proof. apply Qle_bool_iff. Qed.

Lemma py_leb_gt a b : py_leb a b = false <-> b < a.
Proof.
  unfold py_leb. destruct (Qle_bool a b) eqn:E.
  - apply Qle_bool_iff in E. split; [discriminate | intro H; exfalso; lra].
  - split; [intros _ | reflexivity].
    apply Qnot_le_lt. intro H. apply Qle_bool_iff in H. congruence.
Qed.

Lemma py_clamp_range x : in_scale_range (py_max 1 (py_min 15 x)).
Proof.
  unfold in_scale_range, py_max, py_min.
  destruct (py_ltb x 15) eqn:E15.
  - apply py_ltb_lt in E15.
    destruct (py_ltb 1 x) eqn:E1.
    + apply py_ltb_lt in E1. lra.
    + lra.
  - destruct (py_ltb 1 15) eqn:E; [lra | discriminate E].
Qed.

Example py_round_ties_to_even :
  py_round (5 # 2) = 2%Z /\ py_round (7 # 2) = 4%Z /\
  py_round (-5 # 2) = (-2)%Z /\ py_round (-1 # 3) = 0%Z /\
  py_round (8 # 10) = 1%Z.
Proof. repeat split. Qed.

Example math_sqrt_exact :
  math_sqrt 100 = 10 /\ math_sqrt 0 = 0 /\ math_sqrt (9 # 4) = 3 # 2.
Proof. repeat split. Qed.


Lemma math_sqrt_bounds (x : Q) :
  0 <= x ->
  let r := math_sqrt x in
  let ulp := 1 # Z.to_pos (2 ^ sqrt_bits) in
  0 <= r /\ r * r <= x /\ x < (r + ulp) * (r + ulp).
Proof.
  intros Hx r ulp. unfold r, ulp, math_sqrt.
  rewrite Qred_correct.
  destruct x as [n d]. cbn [Qnum Qden].
  assert (Hn : (0 <= n)%Z).
  { unfold Qle in Hx. cbn in Hx. lia. }
  set (K := (2 ^ sqrt_bits)%Z).
  assert (HK : (0 < K)%Z) by (unfold K; vm_compute; reflexivity).
  assert (E4 : (4 ^ sqrt_bits = K * K)%Z) by (unfold K; vm_compute; reflexivity).
  rewrite E4.
  set (q := (n * (K * K) / Z.pos d)%Z).
  assert (Hq1 : (Z.pos d * q <= n * (K * K))%Z).
  { unfold q. apply Z.mul_div_le. lia. }
  assert (Hq2 : (n * (K * K) < Z.pos d * (q + 1))%Z).
  { unfold q.
    pose proof (Z.mul_succ_div_gt (n * (K * K)) (Z.pos d) ltac:(lia)). lia. }
  assert (Hq0 : (0 <= q)%Z).
  { unfold q. apply Z.div_pos; nia. }
  pose proof (Z.sqrt_spec q Hq0) as [Hs1 Hs2].
  pose proof (Z.sqrt_nonneg q) as Hs0.
  set (s := Z.sqrt q) in *.
  unfold Qle, Qlt, Qmult, Qplus. cbn [Qnum Qden].
  rewrite !Pos2Z.inj_mul, !Z2Pos.id by exact HK.
  repeat split; nia.
Qed.

Lemma py_ltb_compat a b c d : a == c -> b == d -> py_ltb a b = py_ltb c d.
Proof. intros E1 E2. unfold py_ltb. now rewrite E1, E2. Qed.

(** On binary64 values too the clamp lands in [1.0, 15.0], whatever the
    product is: a number, an infinity or NaN. *)
Lemma clamp_viewer_scale_range (product : spec_float) :
  SFleb sf_1 (clamp_viewer_scale product) = true /\
  SFleb (clamp_viewer_scale product) sf_15 = true.
Proof.
  unfold clamp_viewer_scale, sf_max, sf_min.
  destruct (SFltb product sf_15) eqn:E15.
  - destruct (SFltb sf_1 product) eqn:E1.
    + unfold SFltb in E1, E15. unfold SFleb.
      destruct (SFcompare sf_1 product) as [[| |]|]; try discriminate E1.
      destruct (SFcompare product sf_15) as [[| |]|]; try discriminate E15.
      split; reflexivity.
    + split; reflexivity.
  - split; reflexivity.
Qed.

(** ** Coordinate transform *)

Lemma update_scale_image_size f v : image_size (update_scale f v) = image_size v.
Proof.
  unfold update_scale. destruct (image_size v) as [[w h]|] eqn:E; [|exact E].
  destruct (viewer_size v). reflexivity.
Qed.

Lemma update_scale_range f v :
  image_size v <> None -> in_scale_range (viewer_scale (update_scale f v)).
Proof.
  intros H. unfold update_scale.
  destruct (image_size v) as [[w h]|]; [|congruence].
  destruct (viewer_size v). cbn [viewer_scale]. apply py_clamp_range.
Qed.

Lemma update_scale_range_kept f v :
  in_scale_range (viewer_scale v) -> in_scale_range (viewer_scale (update_scale f v)).
Proof.
  intros H. destruct (image_size v) eqn:E.
  - apply update_scale_range. congruence.
  - unfold update_scale. rewrite E. exact H.
Qed.

(** C3: along every sequence of [update_scale] calls, with arbitrary factors,
    the viewer scale stored after each call lies in [1.0, 15.0].  The call
    stores a scale only when an image is loaded; without one it leaves the
    session, and so a scale already in the range, untouched. *)
Theorem viewer_scale_stays_in_range (factors : list Q) (v : viewport) :
  image_size v <> None \/ in_scale_range (viewer_scale v) ->
  Forall in_scale_range (scale_trace factors v).
Proof.
  revert v. induction factors as [|f fs IH]; intros v H; cbn [scale_trace].
  - constructor.
  - assert (Hr : in_scale_range (viewer_scale (update_scale f v))).
    { destruct H as [H|H].
      - now apply update_scale_range.
      - now apply update_scale_range_kept. }
    constructor; [exact Hr|]. apply IH. now right.
Qed.

Lemma viewer_scale_stays_in_range_witness :
  Forall in_scale_range
    (scale_trace [2; 1000; 1 # 100000; 0; -3; 7 # 2] (view opened)).
Proof.
  apply viewer_scale_stays_in_range. left. discriminate.
Defined.

(** A gesture end that is a tap computes the click coordinates and hands
    them to the active tool. *)
Lemma viewer_interaction_end_tap (s : session) (o : offset) :
  image_size (view s) <> None ->
  is_tap (view s) ->
  viewer_offset (view s) = Some o ->
  let v := view s in
  let coord :=
    (py_round ((fst (start_cursor v) - inject_Z (off_x o)) / image_scale v),
     py_round ((snd (start_cursor v) - inject_Z (off_y o)) / image_scale v)) in
  viewer_interaction_end s =
    match tool s with
    | None => Some (update_status_message (Msg_click (fst coord) (snd coord)) s)
    | Some Magic_select => magic_select coord s
    | Some Manual_select => Some (manual_select coord s)
    | Some Remove_tool => remove_tool coord s
    end.
Proof.
  intros Himg (Hmove & Hscale & Hlimit) Hoff v coord.
  unfold viewer_interaction_end. fold v.
  destruct (image_size v) eqn:E; [|contradiction].
  unfold v in *. rewrite Hmove, Hscale, Hlimit.
  unfold click_coord. rewrite Hoff. cbn [bind fst snd].
  reflexivity.
Qed.



(** The play of the image inside its bounding box is
    [viewer_size * (viewer_scale - 1)] on each axis. *)
Lemma bounding_box_play v :
  let bb := bounding_box_of v in
  bounding_box_width bb - scaled_image_width bb
    == fst (viewer_size v) * (viewer_scale v - 1) /\
  bounding_box_height bb - scaled_image_height bb
    == snd (viewer_size v) * (viewer_scale v - 1).
Proof.
  unfold bounding_box_of.
  destruct (image_size v) as [[iw ih]|]; destruct (viewer_size v) as [vw vh];
    cbn; split; ring.
Qed.

Lemma bounding_box_play_nonneg v :
  0 <= fst (viewer_size v) -> 0 <= snd (viewer_size v) -> 1 <= viewer_scale v ->
  let bb := bounding_box_of v in
  0 <= bounding_box_width bb - scaled_image_width bb /\
  0 <= bounding_box_height bb - scaled_image_height bb.
Proof.
  intros Hw Hh Hs bb. destruct (bounding_box_play v) as [Ex Ey].
  fold bb in Ex, Ey. rewrite Ex, Ey. split; nra.
Qed.

(** The shared [if ... elif ...] block. *)
Lemma clamp_axis_spec m_lo m_hi vc box img b_lo b_hi :
  0 <= box - img ->
  let '(lo, hi, _) := clamp_axis m_lo m_hi vc box img b_lo b_hi in
  0 <= lo /\ 0 <= hi /\ axis_reconciled lo hi (box - img) (m_lo + m_hi).
Proof.
  intros Hplay. unfold clamp_axis, axis_reconciled.
  destruct (py_ltb m_lo 0) eqn:Elo.
  - repeat split; lra.
  - apply py_ltb_ge in Elo.
    destruct (py_ltb m_hi 0) eqn:Ehi.
    + repeat split; lra.
    + apply py_ltb_ge in Ehi. repeat split; lra.
Qed.

Lemma axis_reconciled_free lo hi play free free' :
  free == free' -> axis_reconciled lo hi play free -> axis_reconciled lo hi play free'.
Proof.
  unfold axis_reconciled. intros E [H|H]; [left; exact H | right; lra].
Qed.

(** C5, at the failing input: in the 800x600 viewer that shows the 800x600
    image at the viewer scale 1, a zoom by the factor 1.001 about the
    viewport point (100, 50) ends in the branch of the zoom reconciliation
    that pins no margin.  The four margins are >= 0, but they were measured
    against the rounded bounds: [margin.left + margin.right] is 1.2 (0.9 +
    0.3) while [bounding_box_width - scaled_image_width] is 0.8 (801.6 -
    800.8), and [margin.top + margin.bottom] is 1.4 while
    [bounding_box_height - scaled_image_height] is 0.6, each to within
    10^-9; so the two sums of the margin invariant fail. *)
Theorem unclamped_zoom_breaks_margin_sum :
  exists sc v',
    move nudging = None /\ scale nudging = Some sc /\
    scale_limit nudging = false /\
    end_scaling sc nudging = Some v' /\
    margins_nonneg (margin v') /\
    (let bb := bounding_box_of v' in
     Qabs (left (margin v') + right (margin v') - (6 # 5)) <= 1 # 1000000000 /\
     Qabs (bounding_box_width bb - scaled_image_width bb - (4 # 5))
       <= 1 # 1000000000 /\
     Qabs (top (margin v') + bottom (margin v') - (7 # 5)) <= 1 # 1000000000 /\
     Qabs (bounding_box_height bb - scaled_image_height bb - (3 # 5))
       <= 1 # 1000000000) /\
    ~ margin_invariant v'.
Proof.
  do 2 eexists. split; [reflexivity|].
  split; [vm_compute; reflexivity|].
  split; [vm_compute; reflexivity|].
  split; [vm_compute; reflexivity|].
  split.
  { unfold margins_nonneg. vm_compute. repeat split; discriminate. }
  split.
  { cbv zeta. vm_compute. repeat split; discriminate. }
  unfold margin_invariant. intros (_ & Hx & _).
  vm_compute in Hx. discriminate Hx.
Qed.

(** What the reconciliation does keep, in exact arithmetic: in a viewer of
    non-negative size at a viewer scale of at least 1 all four margins are
    >= 0 after a pan or a zoom; on each axis either a margin was pinned to 0
    and the two margins sum to [bounding_box - scaled_image], or nothing was
    pinned and the sum is the one before the gesture (pan) or the one
    measured against the rounded bounds (zoom). *)
Lemma margins_after_reconciliation (v v' : viewport) :
  0 <= fst (viewer_size v) -> 0 <= snd (viewer_size v) -> 1 <= viewer_scale v ->
  let bb := bounding_box_of v in
  let play_x := bounding_box_width bb - scaled_image_width bb in
  let play_y := bounding_box_height bb - scaled_image_height bb in
  (forall mv, end_moving mv v = Some v' ->
     margins_nonneg (margin v') /\
     axis_reconciled (left (margin v')) (right (margin v')) play_x
                     (left (margin v) + right (margin v)) /\
     axis_reconciled (top (margin v')) (bottom (margin v')) play_y
                     (top (margin v) + bottom (margin v))) /\
  (forall sc, end_scaling sc v = Some v' ->
     margins_nonneg (margin v') /\
     (margin v' = zero_margins \/
      axis_reconciled (left (margin v')) (right (margin v')) play_x
                      (bounds_right bb - bounds_left bb - scaled_image_width bb) /\
      axis_reconciled (top (margin v')) (bottom (margin v')) play_y
                      (bounds_bottom bb - bounds_top bb - scaled_image_height bb))).
Proof.
  intros Hw Hh Hs bb play_x play_y.
  destruct (bounding_box_play_nonneg v Hw Hh Hs) as [Hpx Hpy].
  fold bb in Hpx, Hpy. fold play_x in Hpx. fold play_y in Hpy.
  split.
  - intros mv H. unfold end_moving in H.
    destruct (viewer_offset v) as [o|]; [|discriminate]. fold bb in H.
    match type of H with context [clamp_axis ?a ?b ?c ?d ?e ?f ?g] =>
      pose proof (clamp_axis_spec a b c d e f g Hpx) as Sx;
      destruct (clamp_axis a b c d e f g) as [[lx hx] cx]
    end.
    match type of H with context [clamp_axis ?a ?b ?c ?d ?e ?f ?g] =>
      pose proof (clamp_axis_spec a b c d e f g Hpy) as Sy;
      destruct (clamp_axis a b c d e f g) as [[ly hy] cy]
    end.
    injection H as <-. cbn [margin with_reconciled left right top bottom].
    destruct Sx as (? & ? & Sx), Sy as (? & ? & Sy).
    unfold margins_nonneg; cbn [left right top bottom].
    repeat split; try assumption.
    + eapply axis_reconciled_free; [|exact Sx]. ring.
    + eapply axis_reconciled_free; [|exact Sy]. ring.
  - intros sc H. unfold end_scaling in H.
    destruct (py_eqb (py_round5 (image_scale v)) (py_round5 (window_scale v))).
    + injection H as <-. cbn [margin with_reconciled].
      split; [|left; reflexivity].
      unfold margins_nonneg, zero_margins; cbn. repeat split; lra.
    + destruct (start_offset v) as [so|]; [|discriminate].
      destruct (viewer_offset v) as [o|]; [|discriminate]. fold bb in H.
      match type of H with context [clamp_axis ?a ?b ?c ?d ?e ?f ?g] =>
        pose proof (clamp_axis_spec a b c d e f g Hpx) as Sx;
        destruct (clamp_axis a b c d e f g) as [[lx hx] cx]
      end.
      match type of H with context [clamp_axis ?a ?b ?c ?d ?e ?f ?g] =>
        pose proof (clamp_axis_spec a b c d e f g Hpy) as Sy;
        destruct (clamp_axis a b c d e f g) as [[ly hy] cy]
      end.
      injection H as <-. cbn [margin with_reconciled left right top bottom].
      destruct Sx as (? & ? & Sx), Sy as (? & ? & Sy).
      unfold margins_nonneg; cbn [left right top bottom].
      split; [repeat split; assumption|]. right. split.
      * eapply axis_reconciled_free; [|exact Sx]. ring.
      * eapply axis_reconciled_free; [|exact Sy]. ring.
Qed.

Lemma margins_after_reconciliation_example :
  exists v',
    end_moving (430, 280) panning = Some v' /\
    end_scaling (1001 # 1000) nudging <> None /\
    margins_nonneg (margin v').
Proof.
  eexists. split; [vm_compute; reflexivity|]. split; [vm_compute; discriminate|].
  refine (proj1 (proj1 (margins_after_reconciliation panning _ _ _ _) (430, 280) _)).
  - apply Qle_bool_iff. vm_compute. reflexivity.
  - apply Qle_bool_iff. vm_compute. reflexivity.
  - apply Qle_bool_iff. vm_compute. reflexivity.
  - vm_compute. reflexivity.
Defined.

(** ** Annotation store: the search of the Remove tool *)

Section Reverse_scan.

Context {A : Type} (p : A -> bool).



End Reverse_scan.



(** ** Mask compositor: the traversal of the overlap-aware removal *)




Section Traversal.

Variable start_of : mezo_row -> mezo_row -> bool.

(** The body shared by the two recursive functions, abstracted over the
    action applied to each discovered row. *)
Lemma fold_visit {S : Type} (act : mezo_row -> S -> S)
  (rec : mezo_row -> list mezo_row -> S -> S)
  (order : mezo_row -> list mezo_row -> list mezo_row)
  (all_mezo : list mezo_row) (start_mezo : mezo_row) :
  (forall row rows s,
     rec row rows s = fold_left (fun s r => act r s) (order row rows) s) ->
  forall (l : list (nat * mezo_row)) (s : S),
    fold_left
      (fun s '(i, row) =>
         if start_of start_mezo row
         then rec row (list_pop i all_mezo) (act row s) else s) l s
    = fold_left (fun s r => act r s)
        (flat_map
           (fun '(i, row) =>
              if start_of start_mezo row
              then row :: order row (list_pop i all_mezo) else []) l) s.
Proof.
  intros Hrec. induction l as [|[i row] l IH]; intros s; cbn [fold_left flat_map].
  - reflexivity.
  - rewrite fold_left_app, IH. destruct (start_of start_mezo row).
    + cbn [fold_left]. now rewrite Hrec.
    + reflexivity.
Qed.

End Traversal.

(** [recursive_removing] erases the rows in their discovery order. *)
Lemma recursive_removing_order start_mezo all_mezo s :
  recursive_removing start_mezo all_mezo s
  = fold_left (fun s r => remove_mezo_from_viewer r s)
      (discovery_order start_mezo all_mezo) s.
Proof.
  unfold recursive_removing, discovery_order.
  generalize (List.length all_mezo) as depth.
  intros depth. revert start_mezo all_mezo s.
  induction depth as [|d IH]; intros start_mezo all_mezo s; [reflexivity|].
  cbn [recursive_removing_upto discovery_order_upto].
  apply (fold_visit
           (fun a b => circles_intersect (circle_of a) (circle_of b))
           remove_mezo_from_viewer
           (recursive_removing_upto d) (discovery_order_upto d)).
  intros. apply IH.
Qed.

(** [recursive_adding] repaints the rows in the same order. *)
Lemma recursive_adding_order start_mezo all_mezo s :
  recursive_adding start_mezo all_mezo s
  = fold_left
      (fun s r => add_mezo_to_viewer (center_x r) (center_y r) (diameter r / 2) true s)
      (discovery_order start_mezo all_mezo) s.
Proof.
  unfold recursive_adding, discovery_order.
  generalize (List.length all_mezo) as depth.
  intros depth. revert start_mezo all_mezo s.
  induction depth as [|d IH]; intros start_mezo all_mezo s; [reflexivity|].
  cbn [recursive_adding_upto discovery_order_upto].
  apply (fold_visit
           (fun a b => circles_intersect (circle_of a) (circle_of b))
           (fun r s => add_mezo_to_viewer (center_x r) (center_y r) (diameter r / 2) true s)
           (recursive_adding_upto d) (discovery_order_upto d)).
  intros. apply IH.
Qed.








(** ** Mask compositor: what the overlap-aware removal does to the mask *)

Lemma only_mask_changed_refl s : only_mask_changed s s.
Proof. unfold only_mask_changed. repeat split. Qed.

Lemma only_mask_changed_trans s1 s2 s3 :
  only_mask_changed s1 s2 -> only_mask_changed s2 s3 -> only_mask_changed s1 s3.
Proof.
  unfold only_mask_changed.
  intros (?&?&?&?&?&?&?&?&?&?&?) (?&?&?&?&?&?&?&?&?&?&?).
  repeat split; congruence.
Qed.

Lemma save_mask_frame m s : only_mask_changed s (save_mask m s).
Proof. unfold only_mask_changed. repeat split. Qed.

Lemma remove_mezo_from_viewer_mask row s :
  mask (remove_mezo_from_viewer row s) = erase_mezo row (mask s)
  /\ only_mask_changed s (remove_mezo_from_viewer row s).
Proof. split; [reflexivity | apply save_mask_frame]. Qed.

Lemma add_mezo_to_viewer_recursive_mask row s :
  let s' := add_mezo_to_viewer (center_x row) (center_y row) (diameter row / 2) true s in
  mask s' = paint_mezo row (mask s) /\ only_mask_changed s s'.
Proof. split; [reflexivity | apply save_mask_frame]. Qed.

Lemma erase_fold rows :
  forall s,
    let s' := fold_left (fun s r => remove_mezo_from_viewer r s) rows s in
    mask s' = erase_all rows (mask s) /\ only_mask_changed s s'.
Proof.
  induction rows as [|r rows IH]; intros s; cbn [fold_left erase_all].
  - split; [reflexivity | apply only_mask_changed_refl].
  - destruct (IH (remove_mezo_from_viewer r s)) as [Hm Hf]. split.
    + exact Hm.
    + eapply only_mask_changed_trans; [apply save_mask_frame | exact Hf].
Qed.

Lemma paint_fold rows :
  forall s,
    let s' :=
      fold_left
        (fun s r => add_mezo_to_viewer (center_x r) (center_y r) (diameter r / 2) true s)
        rows s in
    mask s' = paint_all rows (mask s) /\ only_mask_changed s s'.
Proof.
  induction rows as [|r rows IH]; intros s; cbn [fold_left paint_all].
  - split; [reflexivity | apply only_mask_changed_refl].
  - destruct (IH (add_mezo_to_viewer (center_x r) (center_y r) (diameter r / 2) true s))
      as [Hm Hf]. split.
    + exact Hm.
    + eapply only_mask_changed_trans; [apply save_mask_frame | exact Hf].
Qed.

(** The overlap-aware path of [remove_mezo], taken by every removal with
    the Remove tool and by an undo that finds the history empty: the row is
    deleted from the store, the session dictionary reloaded, the row and
    then every row of the discovery order erased, and every row of the
    discovery order painted again; the history is not touched. *)
Lemma remove_mezo_overlap_path (k : key) (s : session) (r : mezo_row) :
  key_falsy k = false ->
  fetch_mezo k s = Some r ->
  is_undo k = false \/ prev_masks s = [] ->
  exists s',
    remove_mezo k s = Some s' /\
    let rows := db_select_image (image_id s) (db_delete (mezo_id r) (db s)) in
    let order := discovery_order r rows in
    db s' = db_delete (mezo_id r) (db s) /\
    mezo_data s' = Some rows /\
    mask s' = paint_all order (erase_all (r :: order) (mask s)) /\
    prev_masks s' = prev_masks s /\
    view s' = view s /\ tool s' = tool s /\ current_coord s' = current_coord s /\
    image_id s' = image_id s.
Proof.
  intros Hkey Hfetch Hpath. unfold remove_mezo. rewrite Hkey, Hfetch.
  cbn [get_mezo_data set_db set_mezo_data prev_masks db image_id].
  assert (Hcond : (0 <? List.length (prev_masks s))%nat && is_undo k = false).
  { destruct Hpath as [-> | ->]; [apply andb_false_r | reflexivity]. }
  rewrite Hcond. eexists. split; [reflexivity|].
  set (rows := db_select_image (image_id s) (db_delete (mezo_id r) (db s))).
  set (order := discovery_order r rows).
  rewrite recursive_adding_order, recursive_removing_order.
  fold order.
  match goal with |- context [fold_left _ order (fold_left _ order ?s0)] =>
    destruct (erase_fold order s0) as [Em Ef];
    destruct (paint_fold order
                (fold_left (fun s r => remove_mezo_from_viewer r s) order s0))
      as [Pm Pf];
    pose proof (only_mask_changed_trans _ _ _ Ef Pf) as F
  end.
  cbv zeta in Em, Pm. rewrite Pm, Em.
  destruct F as (Fv & Ft & Fc & _ & Fi & Fd & Fp & Fdb & _).
  rewrite Fdb, Fd, Fp, Fv, Ft, Fc, Fi. cbn.
  repeat split.
Qed.

(** ** Mask compositor: pixels *)

Lemma erase_mezo_px row m px py :
  erase_mezo row m px py =
  if in_circle (center_x row) (center_y row) (diameter row / 2) px py
  then transparent else m px py.
Proof. reflexivity. Qed.

(** Outside its circle the overlay of a mezo is empty or shows the centre
    dot. *)
Lemma mezo_overlay_outside x y radius px py :
  in_circle x y radius px py = false ->
  mezo_overlay x y radius px py =
  if in_circle x y 2 px py then outline_color else transparent.
Proof.
  intros H. unfold mezo_overlay, draw_ellipse, image_new. rewrite H. reflexivity.
Qed.

Lemma alpha_composite_px_transparent d : alpha_composite_px d transparent = d.
Proof. destruct d as [[[dr dg] db_] da]. reflexivity. Qed.

Lemma alpha_composite_px_opaque d : alpha_composite_px d outline_color = outline_color.
Proof.
  destruct d as [[[dr dg] db_] da].
  unfold alpha_composite_px, outline_color.
  cbn [Z.eqb]. replace (da * (255 - 255))%Z with 0%Z by lia.
  cbn -[Z.mul Z.add]. rewrite !Z.mul_0_r. reflexivity.
Qed.

Lemma paint_mezo_px row m px py :
  paint_mezo row m px py =
  alpha_composite_px (m px py)
    (mezo_overlay (center_x row) (center_y row) (diameter row / 2) px py).
Proof. reflexivity. Qed.



Lemma not_intersects_false r1 r2 :
  ~ intersects r1 r2 -> circles_intersect (circle_of r1) (circle_of r2) = false.
Proof. unfold intersects. now destruct (circles_intersect _ _). Qed.

(** C1, at the failing input: with A, B, C as in [three_circles] (B
    intersects A and C, A and C do not intersect, B has radius 1) the removal
    of B leaves the pixel (30, 26) of B's centre dot painted, whereas it is
    transparent in the mask on which only A and C were ever painted. *)
Theorem removed_center_dot_remains :
  exists A B C A' C',
    mezo_data three_circles = Some [A; B; C] /\
    intersects B A /\ intersects B C /\ ~ intersects A C /\
    diameter B / 2 == 1 /\
    mezo_data b_removed = Some [A; C] /\
    mezo_data two_circles = Some [A'; C'] /\
    circle_of A' = circle_of A /\ circle_of C' = circle_of C /\
    mask b_removed 30%Z 26%Z = outline_color /\
    mask two_circles 30%Z 26%Z = transparent /\
    ~ pixel_identical (mask b_removed) (mask two_circles).
Proof.
  do 5 eexists.
  split; [vm_compute; reflexivity|].
  split; [vm_compute; reflexivity|].
  split; [vm_compute; reflexivity|].
  split; [vm_compute; discriminate|].
  split; [vm_compute; reflexivity|].
  split; [vm_compute; reflexivity|].
  split; [vm_compute; reflexivity|].
  split; [vm_compute; reflexivity|].
  split; [vm_compute; reflexivity|].
  assert (H1 : mask b_removed 30%Z 26%Z = outline_color) by (vm_compute; reflexivity).
  assert (H2 : mask two_circles 30%Z 26%Z = transparent) by (vm_compute; reflexivity).
  split; [exact H1|]. split; [exact H2|].
  intros H. specialize (H 30%Z 26%Z). rewrite H1, H2 in H. discriminate H.
Qed.

(** ** Undo history *)

Lemma push_mask_cases m p :
  ((List.length p < 3)%nat -> push_mask m p = p ++ [m]) /\
  (forall oldest rest,
     p = oldest :: rest -> (3 <= List.length p)%nat ->
     push_mask m p = rest ++ [m]).
Proof.
  unfold push_mask. split.
  - intros H. rewrite length_app. cbn [List.length].
    destruct (Nat.ltb_spec 3 (List.length p + 1)); [lia | reflexivity].
  - intros oldest rest -> H. rewrite length_app. cbn [List.length] in *.
    destruct (Nat.ltb_spec 3 (S (List.length rest) + 1)); [reflexivity | lia].
Qed.

Lemma push_mask_length m p :
  (List.length p <= 3)%nat -> (List.length (push_mask m p) <= 3)%nat.
Proof.
  intros H. unfold push_mask.
  destruct (Nat.ltb_spec 3 (List.length (p ++ [m]))) as [Hlt | Hle]; [|exact Hle].
  rewrite length_app in Hlt. cbn [List.length] in Hlt.
  destruct p as [|a p]; cbn [app tl List.length] in *; [lia|].
  rewrite length_app. cbn [List.length]. lia.
Qed.

Lemma push_mask_last m p d : last (push_mask m p) d = m.
Proof.
  unfold push_mask.
  destruct (3 <? List.length (p ++ [m]))%nat eqn:E.
  - destruct p as [|a p]; [discriminate E|]. cbn [app tl]. apply last_last.
  - apply last_last.
Qed.

Lemma removelast_length {A} (l : list A) :
  (List.length (removelast l) <= List.length l)%nat.
Proof.
  induction l as [|a l IH]; cbn [removelast List.length]; [lia|].
  destruct l; cbn [List.length] in *; lia.
Qed.

Lemma add_mezo_to_viewer_pushes x y radius s :
  prev_masks (add_mezo_to_viewer x y radius false s)
  = push_mask (mask s) (prev_masks s).
Proof. reflexivity. Qed.

(** What [remove_mezo] does to the history: the undo path pops the last
    snapshot when there is one; every other path leaves the history as it
    is. *)
Lemma remove_mezo_history k s s' :
  remove_mezo k s = Some s' ->
  (is_undo k = true /\ prev_masks s <> [] /\
   prev_masks s' = removelast (prev_masks s) /\
   mask s' = last (prev_masks s) (mask s))
  \/ ((is_undo k = false \/ prev_masks s = []) /\ prev_masks s' = prev_masks s).
Proof.
  intros H. destruct (key_falsy k) eqn:Ekey.
  - unfold remove_mezo in H. rewrite Ekey in H. injection H as <-.
    right. split; [|reflexivity].
    destruct k; [discriminate Ekey | left; reflexivity | left; reflexivity].
  - destruct (fetch_mezo k s) as [r|] eqn:Efetch.
    + destruct (is_undo k) eqn:Eundo.
      * destruct (prev_masks s) as [|m p] eqn:Eprev.
        -- right. split; [right; reflexivity|].
           destruct (remove_mezo_overlap_path k s r Ekey Efetch) as (s1 & E1 & H1).
           { right. exact Eprev. }
           rewrite E1 in H. injection H as <-.
           rewrite <- Eprev. apply H1.
        -- left. unfold remove_mezo in H. rewrite Ekey, Efetch in H.
           cbn [get_mezo_data set_db set_mezo_data prev_masks db image_id] in H.
           rewrite Eprev, Eundo in H. cbn [List.length Nat.ltb Nat.leb andb] in H.
           injection H as <-.
           repeat split; discriminate.
      * right. split; [left; reflexivity|].
        destruct (remove_mezo_overlap_path k s r Ekey Efetch) as (s1 & E1 & H1).
        { left. exact Eundo. }
        rewrite E1 in H. injection H as <-. apply H1.
    + unfold remove_mezo in H. rewrite Ekey, Efetch in H. discriminate H.
Qed.

Lemma remove_mezo_history_length k s s' :
  remove_mezo k s = Some s' ->
  (List.length (prev_masks s') <= List.length (prev_masks s))%nat.
Proof.
  intros H. apply remove_mezo_history in H.
  destruct H as [(_ & _ & -> & _) | (_ & ->)];
    [apply removelast_length | apply Nat.le_refl].
Qed.

(** The explicit deletion of one circle never pops. *)
Lemma remove_tool_history coord s s' :
  remove_tool coord s = Some s' -> prev_masks s' = prev_masks s.
Proof.
  destruct coord as [x y]. unfold remove_tool.
  destruct (mezo_data s) as [data|]; [|discriminate].
  intros H. apply remove_mezo_history in H.
  destruct H as [(Hundo & _) | (_ & E)]; [|exact E].
  destruct (mezo_to_remove_at x y data); discriminate Hundo.
Qed.

Lemma magic_select_history coord s s' :
  magic_select coord s = Some s' ->
  prev_masks s' = push_mask (mask s) (prev_masks s).
Proof.
  unfold magic_select. destruct (sam_model s) as [p|]; [|discriminate].
  destruct (p coord) as [[x y] radius]. intros H. injection H as <-. reflexivity.
Qed.

Lemma manual_select_history coord s :
  prev_masks (manual_select coord s) =
  match current_coord s with
  | None => prev_masks s
  | Some _ => push_mask (mask s) (prev_masks s)
  end.
Proof.
  destruct coord as [x y]. unfold manual_select.
  destruct (current_coord s) as [[x0 y0]|]; reflexivity.
Qed.

Lemma change_tool_history i s s' :
  change_tool i s = Some s' -> prev_masks s' = prev_masks s.
Proof.
  unfold change_tool. destruct (nth_error tools i) as [t|]; [|discriminate].
  unfold drop_current_coord, sam_init.
  destruct t; cbn [set_tool current_coord]; destruct (current_coord s);
    cbn [set_tool set_current_coord sam_model]; try destruct (sam_model s);
    intros H; injection H as <-; reflexivity.
Qed.

Lemma set_status_if_no_tool_history m s :
  prev_masks (set_status_if_no_tool m s) = prev_masks s.
Proof. unfold set_status_if_no_tool. now destruct (tool s). Qed.

Lemma drop_current_coord_history s :
  prev_masks (drop_current_coord s) = prev_masks s.
Proof. unfold drop_current_coord. now destruct (current_coord s). Qed.

Lemma on_keyboard_history k c s s' :
  on_keyboard k c s = Some s' ->
  (List.length (prev_masks s') <= List.length (prev_masks s))%nat.
Proof.
  unfold on_keyboard. intros H.
  match type of H with bind ?c1 _ = _ =>
    destruct c1 as [s1|] eqn:E1; [|discriminate H];
    assert (P1 : prev_masks s1 = prev_masks s)
  end.
  { destruct (String.eqb k "Escape"); [|now injection E1 as <-].
    destruct (current_coord s) eqn:Ec; injection E1 as <-;
      [apply drop_current_coord_history | reflexivity]. }
  cbn [bind] in H.
  match type of H with bind ?c1 _ = _ =>
    destruct c1 as [s2|] eqn:E2; [|discriminate H];
    assert (P2 : prev_masks s2 = prev_masks s1)
  end.
  { destruct (String.eqb k "1"); [now apply change_tool_history in E2|].
    now injection E2 as <-. }
  cbn [bind] in H.
  match type of H with bind ?c1 _ = _ =>
    destruct c1 as [s3|] eqn:E3; [|discriminate H];
    assert (P3 : prev_masks s3 = prev_masks s2)
  end.
  { destruct (String.eqb k "2"); [now apply change_tool_history in E3|].
    now injection E3 as <-. }
  cbn [bind] in H.
  match type of H with bind ?c1 _ = _ =>
    destruct c1 as [s4|] eqn:E4; [|discriminate H];
    assert (P4 : prev_masks s4 = prev_masks s3)
  end.
  { destruct (String.eqb k "3"); [now apply change_tool_history in E4|].
    now injection E4 as <-. }
  cbn [bind] in H.
  rewrite <- P1, <- P2, <- P3, <- P4.
  destruct (String.eqb k "Z" && c).
  - match type of H with (if ?b then _ else _) = _ => destruct b end.
    + now apply remove_mezo_history_length in H.
    + injection H as <-. apply Nat.le_refl.
  - injection H as <-. apply Nat.le_refl.
Qed.

Lemma viewer_interaction_end_history s s' :
  viewer_interaction_end s = Some s' ->
  (List.length (prev_masks s) <= 3)%nat ->
  (List.length (prev_masks s') <= 3)%nat.
Proof.
  unfold viewer_interaction_end. intros H Hlen.
  destruct (image_size (view s)); [|discriminate H].
  destruct (move (view s)) as [mv|].
  { destruct (end_moving mv (view s)); [|discriminate H].
    cbn [bind] in H. injection H as <-.
    now rewrite set_status_if_no_tool_history. }
  assert (Hclick :
    (if scale_limit (view s)
     then Some (update_status_message (Msg "scale limit has been reached") s)
     else coord <- click_coord (view s) ;;
          match tool s with
          | None => Some (update_status_message (Msg_click (fst coord) (snd coord)) s)
          | Some Magic_select => magic_select coord s
          | Some Manual_select => Some (manual_select coord s)
          | Some Remove_tool => remove_tool coord s
          end) = Some s' ->
    (List.length (prev_masks s') <= 3)%nat).
  { clear H. intros H. destruct (scale_limit (view s)).
    - now injection H as <-.
    - destruct (click_coord (view s)) as [coord|]; [|discriminate H].
      cbn [bind] in H. destruct (tool s) as [[| |]|].
      + apply magic_select_history in H. rewrite H. now apply push_mask_length.
      + injection H as <-. rewrite manual_select_history.
        destruct (current_coord s); [now apply push_mask_length | exact Hlen].
      + apply remove_tool_history in H. now rewrite H.
      + now injection H as <-. }
  destruct (scale (view s)) as [sc|]; [|exact (Hclick H)].
  destruct (scale_limit (view s)) eqn:El; [exact (Hclick H)|].
  destruct (end_scaling sc (view s)); [|discriminate H].
  cbn [bind] in H. injection H as <-.
  now rewrite set_status_if_no_tool_history.
Qed.

Lemma handle_history e s s' :
  handle e s = Some s' ->
  (List.length (prev_masks s) <= 3)%nat ->
  (List.length (prev_masks s') <= 3)%nat.
Proof.
  destruct e; cbn [handle]; intros H Hlen;
    try (injection H as <-; first [exact Hlen | cbn; lia]).
  - now apply viewer_interaction_end_history in H.
  - apply on_keyboard_history in H. lia.
  - apply change_tool_history in H. now rewrite H.
Qed.

Lemma step_history e s :
  (List.length (prev_masks s) <= 3)%nat ->
  (List.length (prev_masks (step e s)) <= 3)%nat.
Proof.
  intros Hlen. unfold step. destruct (handle e s) eqn:E; [|exact Hlen].
  now apply (handle_history e s).
Qed.

Lemma run_history es :
  forall s,
    (List.length (prev_masks s) <= 3)%nat ->
    (List.length (prev_masks (run es s)) <= 3)%nat.
Proof.
  unfold run. induction es as [|e es IH]; intros s Hlen; cbn [fold_left].
  - exact Hlen.
  - apply IH. now apply step_history.
Qed.

(** C7: the undo history holds at most 3 snapshots after every event once
    an image is open (and stays within 3 from any session within 3); a push
    appends the current mask and drops the oldest snapshot when that makes
    more than 3; only the undo path pops, a deletion of one circle keyed by
    its id, as the Remove tool makes it, leaves the history as it is; and
    opening an image empties the history. *)
Theorem undo_history_bounded :
  (forall f w h s es,
     (List.length (prev_masks (run es (open_image f w h s))) <= 3)%nat) /\
  (forall es s,
     (List.length (prev_masks s) <= 3)%nat ->
     (List.length (prev_masks (run es s)) <= 3)%nat) /\
  (forall x y radius s,
     prev_masks (add_mezo_to_viewer x y radius false s)
     = push_mask (mask s) (prev_masks s)) /\
  (forall m p,
     ((List.length p < 3)%nat -> push_mask m p = p ++ [m]) /\
     (forall oldest rest,
        p = oldest :: rest -> (3 <= List.length p)%nat ->
        push_mask m p = rest ++ [m])) /\
  (forall k s s',
     remove_mezo k s = Some s' ->
     prev_masks s' <> prev_masks s ->
     k = Key_undo /\ prev_masks s' = removelast (prev_masks s)) /\
  (forall id s s',
     remove_mezo (Key_id id) s = Some s' -> prev_masks s' = prev_masks s) /\
  (forall coord s s',
     remove_tool coord s = Some s' -> prev_masks s' = prev_masks s) /\
  (forall f w h s, prev_masks (open_image f w h s) = []).
Proof.
  split; [|split; [|split; [|split; [|split; [|split; [|split]]]]]].
  - intros. apply run_history. cbn. lia.
  - intros es s. apply run_history.
  - intros. apply add_mezo_to_viewer_pushes.
  - intros. apply push_mask_cases.
  - intros k s s' H Hne. apply remove_mezo_history in H.
    destruct H as [(Hundo & _ & E & _) | (_ & E)]; [|contradiction].
    split; [|exact E]. destruct k; [reflexivity | discriminate | discriminate].
  - intros id s s' H. apply remove_mezo_history in H.
    destruct H as [(Hundo & _) | (_ & E)]; [discriminate Hundo | exact E].
  - intros. eapply remove_tool_history; eassumption.
  - reflexivity.
Qed.

Lemma undo_history_bounded_witness :
  (List.length
     (prev_masks
        (run (Keyboard "2" false
                :: draw_circle 20 20 30 20 ++ draw_circle 30 24 31 24
                ++ draw_circle 40 20 50 20 ++ draw_circle 60 60 70 60)
             ready)) <= 3)%nat.
Proof.
  apply (proj1 (proj2 undo_history_bounded)).
  vm_compute. lia.
Defined.

(** ** Keyboard: Ctrl+Z *)

Lemma on_keyboard_ctrl_z s :
  on_keyboard "Z" true s =
  match mezo_data s, current_coord s with
  | Some (_ :: _), None => remove_mezo Key_undo s
  | _, _ => Some s
  end.
Proof.
  unfold on_keyboard. cbn [String.eqb Ascii.eqb Bool.eqb bind andb].
  destruct (mezo_data s) as [[|r data]|]; destruct (current_coord s); reflexivity.
Qed.

(** C10: on Ctrl+Z, when a centre point of Manual select is pending, or the
    annotation collection of the image is absent or empty, nothing is
    mutated: the handler returns the session it was given, so no record is
    deleted and the mask is unchanged; the undo removal runs exactly when
    annotations exist and no centre point is pending. *)
Theorem ctrl_z_guard (s : session) :
  (current_coord s <> None \/ mezo_data s = None \/ mezo_data s = Some [] ->
   on_keyboard "Z" true s = Some s) /\
  (forall data,
     current_coord s = None -> mezo_data s = Some data -> data <> [] ->
     on_keyboard "Z" true s = remove_mezo Key_undo s).
Proof.
  rewrite on_keyboard_ctrl_z. split.
  - intros [H | [H | H]].
    + destruct (current_coord s); [|contradiction].
      destruct (mezo_data s) as [[|]|]; reflexivity.
    + rewrite H. reflexivity.
    + rewrite H. reflexivity.
  - intros data Hc Hd Hne. rewrite Hc, Hd.
    destruct data; [contradiction | reflexivity].
Qed.

Lemma ctrl_z_guard_witness :
  on_keyboard "Z" true ready = Some ready /\
  on_keyboard "Z" true degenerate_click = Some degenerate_click.
Proof.
  split.
  - apply (proj1 (ctrl_z_guard ready)). right. right. vm_compute. reflexivity.
  - apply (proj1 (ctrl_z_guard degenerate_click)). left. vm_compute. discriminate.
Defined.

(** ** Undo with an empty history *)

Section Select_last.

Let pick (acc : option mezo_row) (r : mezo_row) : option mezo_row :=
  match acc with
  | None => Some r
  | Some r0 => if (mezo_id r0 <? mezo_id r)%Z then Some r else acc
  end.

Lemma fold_pick_some (l : list mezo_row) :
  forall acc,
    acc <> None \/ l <> [] ->
    exists r, fold_left pick l acc = Some r /\ (acc = Some r \/ In r l).
Proof.
  induction l as [|a l IH]; intros acc H; cbn [fold_left].
  - destruct H as [H | H]; [|contradiction].
    destruct acc as [r|]; [|contradiction]. exists r. split; [reflexivity | now left].
  - destruct (IH (pick acc a)) as (r & E & Hr).
    { left. unfold pick. destruct acc as [r0|]; [|discriminate].
      destruct (mezo_id r0 <? mezo_id a)%Z; discriminate. }
    exists r. split; [exact E|].
    destruct Hr as [Hr | Hr]; [|right; now right].
    unfold pick in Hr. destruct acc as [r0|].
    + destruct (mezo_id r0 <? mezo_id a)%Z.
      * injection Hr as <-. right. now left.
      * now left.
    + injection Hr as <-. right. now left.
Qed.

End Select_last.

(** With at least one mezo stored for the image, the undo query returns one
    of them. *)
Lemma db_select_last_some image_id_ d :
  db_select_image image_id_ d <> [] ->
  exists r, db_select_last image_id_ d = Some r /\ In r (db_select_image image_id_ d).
Proof.
  intros H. unfold db_select_last.
  destruct (fold_pick_some (db_select_image image_id_ d) None) as (r & E & Hr).
  { now right. }
  exists r. split; [exact E|]. destruct Hr as [Hr | Hr]; [discriminate Hr | exact Hr].
Qed.





(** ** Manual select with a zero-length radius *)

Lemma math_sqrt_0 : math_sqrt (inject_Z 0) = 0.
Proof. reflexivity. Qed.

Lemma in_dot_at_center (x y : Z) :
  in_circle (inject_Z x) (inject_Z y) 2 x y = true.
Proof.
  unfold in_circle. apply andb_true_iff. split; apply py_leb_le; [lra|].
  assert (E : (inject_Z x - inject_Z x) * (inject_Z x - inject_Z x)
              + (inject_Z y - inject_Z y) * (inject_Z y - inject_Z y) == 0) by ring.
  rewrite E. lra.
Qed.

(** The second click of Manual select on the point of the first one: the
    gesture is not rejected. *)
Lemma manual_select_same_point (s : session) (x y : Z) :
  current_coord s = Some (x, y) ->
  let s' := manual_select (x, y) s in
  (exists row,
     mezo_table (db s') = mezo_table (db s) ++ [row] /\
     mezo_id row = (mezo_seq (db s) + 1)%Z /\
     row_image_id row = image_id s /\
     center_x row = inject_Z x /\ center_y row = inject_Z y /\
     diameter row == 0 /\ square row == 0) /\
  snapshot_pushed s s' /\
  mask s' x y = outline_color /\
  current_coord s' = None.
Proof.
  intros Hc. unfold manual_select. rewrite Hc.
  rewrite !Z.sub_diag. cbn [Z.mul Z.add]. rewrite math_sqrt_0.
  cbv zeta. split; [|split; [|split]].
  - eexists. cbn. repeat split; reflexivity.
  - reflexivity.
  - cbn [mask update_status_message add_mezo_to_viewer save_mask].
    unfold alpha_composite, mezo_overlay, draw_ellipse.
    rewrite in_dot_at_center. apply alpha_composite_px_opaque.
  - reflexivity.
Qed.

(** C8, the claim as stated fails: with the centre set at (100, 100) the
    second click on (100, 100) adds a record to the empty store. *)
Lemma degenerate_gesture_counterexample :
  exists s',
    viewer_interaction_end degenerate_click = Some s' /\
    mezo_table (db degenerate_click) = [] /\
    ~ nothing_changed degenerate_click s'.
Proof.
  exists (manual_select (100, 100)%Z degenerate_click). split; [|split].
  - rewrite (viewer_interaction_end_tap degenerate_click (mk_offset 0 0)).
    + assert (Et : tool degenerate_click = Some Manual_select)
        by (vm_compute; reflexivity).
      rewrite Et. cbv zeta. f_equal.
    + vm_compute. discriminate.
    + vm_compute. repeat split.
    + vm_compute. reflexivity.
  - vm_compute. reflexivity.
  - intros [Htable _].
    destruct (manual_select_same_point degenerate_click 100 100)
      as ((row & E & _) & _).
    { vm_compute. reflexivity. }
    rewrite E in Htable. apply (f_equal (@List.length mezo_row)) in Htable.
    rewrite length_app in Htable. cbn [List.length] in Htable. lia.
Qed.

(** C8, amended: when the two clicks of Manual select land on the same
    image point the gesture is not rejected: a record with that centre,
    diameter 0 and square 0 is appended to the store, a snapshot of the mask
    is pushed on the undo history, the centre dot is painted on the mask at
    that point, and the pending centre is cleared. *)
Theorem degenerate_manual_select_creates (s : session) (x y : Z) :
  current_coord s = Some (x, y) ->
  let s' := manual_select (x, y) s in
  (exists row,
     mezo_table (db s') = mezo_table (db s) ++ [row] /\
     mezo_id row = (mezo_seq (db s) + 1)%Z /\
     row_image_id row = image_id s /\
     center_x row = inject_Z x /\ center_y row = inject_Z y /\
     diameter row == 0 /\ square row == 0) /\
  snapshot_pushed s s' /\
  mask s' x y = outline_color /\
  current_coord s' = None.
Proof. exact (manual_select_same_point s x y). Qed.

Lemma degenerate_manual_select_creates_witness :
  mask (manual_select (100, 100)%Z degenerate_click) 100%Z 100%Z = outline_color.
Proof.
  apply (degenerate_manual_select_creates degenerate_click 100 100).
  vm_compute. reflexivity.
Defined.

(** ** Undo snapshots of the creating and deleting transitions *)

Lemma magic_select_creates coord s p :
  sam_model s = Some p ->
  exists s',
    magic_select coord s = Some s' /\
    snapshot_pushed s s' /\
    (forall d, last (prev_masks s') d = mask s) /\
    exists row, mezo_table (db s') = mezo_table (db s) ++ [row].
Proof.
  intros Hp. unfold magic_select. rewrite Hp.
  destruct (p coord) as [[x y] radius]. eexists. split; [reflexivity|].
  split; [reflexivity|]. split.
  - intros d. rewrite add_mezo_to_viewer_pushes. apply push_mask_last.
  - eexists. reflexivity.
Qed.

Lemma manual_select_creates coord s c0 :
  current_coord s = Some c0 ->
  let s' := manual_select coord s in
  snapshot_pushed s s' /\
  (forall d, last (prev_masks s') d = mask s) /\
  exists row, mezo_table (db s') = mezo_table (db s) ++ [row].
Proof.
  intros Hc. destruct coord as [x y], c0 as [x0 y0].
  unfold manual_select. rewrite Hc. cbv zeta.
  split; [reflexivity|]. split.
  - intros d. apply push_mask_last.
  - eexists. reflexivity.
Qed.

(** C2, the claim as stated fails: the Remove tool deletes B from the
    reopened image, whose history is empty, and the history is still empty
    afterwards, where a push would have left the mask in it. *)
Lemma remove_tool_snapshot_counterexample :
  exists s',
    viewer_interaction_end remove_click = Some s' /\
    (List.length (mezo_table (db s'))
     < List.length (mezo_table (db remove_click)))%nat /\
    ~ snapshot_pushed remove_click s'.
Proof.
  assert (Ef : fetch_mezo (Key_id 2) remove_click
               = Some (mk_mezo_row 2 1 30 24 2
                         (3537118876014220 # 1125899906842624)))
    by (vm_compute; reflexivity).
  destruct (remove_mezo_overlap_path (Key_id 2) remove_click _ eq_refl Ef
              (or_introl eq_refl)) as (s' & E & Hdb & _ & _ & Hp & _).
  exists s'. split; [|split].
  - rewrite (viewer_interaction_end_tap remove_click (mk_offset 0 0)).
    + assert (Et : tool remove_click = Some Remove_tool)
        by (vm_compute; reflexivity).
      rewrite Et. cbv zeta.
      assert (Ec : (py_round ((fst (start_cursor (view remove_click))
                               - inject_Z (off_x (mk_offset 0 0)))
                              / image_scale (view remove_click)),
                    py_round ((snd (start_cursor (view remove_click))
                               - inject_Z (off_y (mk_offset 0 0)))
                              / image_scale (view remove_click)))
                   = (30, 24)%Z) by (vm_compute; reflexivity).
      rewrite Ec. unfold remove_tool.
      assert (Ek : match mezo_data remove_click with
                   | Some data => key_of (mezo_to_remove_at 30 24 data)
                   | None => Key_none
                   end = Key_id 2) by (vm_compute; reflexivity).
      destruct (mezo_data remove_click); [|discriminate Ek].
      rewrite Ek. exact E.
    + vm_compute. discriminate.
    + vm_compute. repeat split.
    + vm_compute. reflexivity.
  - rewrite Hdb. vm_compute. lia.
  - unfold snapshot_pushed. rewrite Hp.
    assert (Eprev : prev_masks remove_click = []) by (vm_compute; reflexivity).
    rewrite Eprev. discriminate.
Qed.

(** C2, amended: the annotation-creating transitions, Magic select and the
    second click of Manual select, push on the undo history a snapshot of the
    mask as it was before the paint (it is then the last snapshot) and
    append one record to the store; a deletion with the Remove tool pushes
    no snapshot and leaves the history as it was. *)
Theorem snapshot_pushed_on_creation_only :
  (forall coord s p,
     sam_model s = Some p ->
     exists s',
       magic_select coord s = Some s' /\
       snapshot_pushed s s' /\
       (forall d, last (prev_masks s') d = mask s) /\
       exists row, mezo_table (db s') = mezo_table (db s) ++ [row]) /\
  (forall coord s c0,
     current_coord s = Some c0 ->
     let s' := manual_select coord s in
     snapshot_pushed s s' /\
     (forall d, last (prev_masks s') d = mask s) /\
     exists row, mezo_table (db s') = mezo_table (db s) ++ [row]) /\
  (forall coord s s',
     remove_tool coord s = Some s' -> prev_masks s' = prev_masks s).
Proof.
  split; [exact magic_select_creates|]. split; [exact manual_select_creates|].
  exact remove_tool_history.
Qed.

Lemma snapshot_pushed_on_creation_only_witness :
  snapshot_pushed degenerate_click (manual_select (100, 100)%Z degenerate_click).
Proof.
  apply (proj1 (proj2 snapshot_pushed_on_creation_only) (100, 100)%Z
               degenerate_click (100, 100)%Z).
  vm_compute. reflexivity.
Defined.

(** ** The session mirrors the store *)

Lemma add_mezo_to_db_mirrors center d s : mirrors_store (add_mezo_to_db center d s).
Proof. reflexivity. Qed.

Lemma add_mezo_to_viewer_mirrors x y radius recursive s :
  mirrors_store s -> mirrors_store (add_mezo_to_viewer x y radius recursive s).
Proof. unfold mirrors_store. destruct recursive; exact (fun H => H). Qed.

Lemma magic_select_mirrors coord s s' :
  magic_select coord s = Some s' -> mirrors_store s'.
Proof.
  unfold magic_select. destruct (sam_model s) as [p|]; [|discriminate].
  destruct (p coord) as [[x y] radius]. intros H. injection H as <-.
  apply add_mezo_to_viewer_mirrors, add_mezo_to_db_mirrors.
Qed.

Lemma manual_select_mirrors coord s :
  mirrors_store s -> mirrors_store (manual_select coord s).
Proof.
  destruct coord as [x y]. unfold manual_select.
  destruct (current_coord s) as [[x0 y0]|]; intros H; [reflexivity | exact H].
Qed.

Lemma remove_mezo_mirrors k s s' :
  remove_mezo k s = Some s' -> mirrors_store s -> mirrors_store s'.
Proof.
  intros H Hm. destruct (key_falsy k) eqn:Ekey.
  { unfold remove_mezo in H. rewrite Ekey in H. now injection H as <-. }
  destruct (fetch_mezo k s) as [r|] eqn:Efetch.
  2:{ unfold remove_mezo in H. rewrite Ekey, Efetch in H. discriminate H. }
  destruct ((0 <? List.length (prev_masks s))%nat && is_undo k) eqn:Econd.
  - unfold remove_mezo in H. rewrite Ekey, Efetch in H.
    cbn [get_mezo_data set_db set_mezo_data prev_masks db image_id] in H.
    rewrite Econd in H. injection H as <-. reflexivity.
  - destruct (remove_mezo_overlap_path k s r Ekey Efetch)
      as (s1 & E1 & Hdb & Hmd & _ & _ & _ & _ & _ & Hid).
    { apply andb_false_iff in Econd. destruct Econd as [E | E]; [right | now left].
      destruct (prev_masks s); [reflexivity | discriminate E]. }
    rewrite E1 in H. injection H as <-.
    unfold mirrors_store. now rewrite Hmd, Hdb, Hid.
Qed.

Lemma change_tool_mirrors i s s' :
  change_tool i s = Some s' -> mirrors_store s -> mirrors_store s'.
Proof.
  unfold change_tool, mirrors_store.
  destruct (nth_error tools i) as [t|]; [|discriminate].
  unfold drop_current_coord, sam_init.
  destruct t; cbn [set_tool current_coord]; destruct (current_coord s);
    cbn [set_tool set_current_coord sam_model]; try destruct (sam_model s);
    intros H; injection H as <-; exact (fun H => H).
Qed.

Lemma on_keyboard_mirrors k c s s' :
  on_keyboard k c s = Some s' -> mirrors_store s -> mirrors_store s'.
Proof.
  unfold on_keyboard. intros H Hm.
  match type of H with bind ?c1 _ = _ =>
    destruct c1 as [s1|] eqn:E1; [|discriminate H];
    assert (M1 : mirrors_store s1)
  end.
  { destruct (String.eqb k "Escape"); [|now injection E1 as <-].
    unfold drop_current_coord in E1.
    destruct (current_coord s); injection E1 as <-; exact Hm. }
  cbn [bind] in H.
  match type of H with bind ?c1 _ = _ =>
    destruct c1 as [s2|] eqn:E2; [|discriminate H];
    assert (M2 : mirrors_store s2)
  end.
  { destruct (String.eqb k "1"); [now apply change_tool_mirrors in E2|].
    now injection E2 as <-. }
  cbn [bind] in H.
  match type of H with bind ?c1 _ = _ =>
    destruct c1 as [s3|] eqn:E3; [|discriminate H];
    assert (M3 : mirrors_store s3)
  end.
  { destruct (String.eqb k "2"); [now apply change_tool_mirrors in E3|].
    now injection E3 as <-. }
  cbn [bind] in H.
  match type of H with bind ?c1 _ = _ =>
    destruct c1 as [s4|] eqn:E4; [|discriminate H];
    assert (M4 : mirrors_store s4)
  end.
  { destruct (String.eqb k "3"); [now apply change_tool_mirrors in E4|].
    now injection E4 as <-. }
  cbn [bind] in H.
  destruct (String.eqb k "Z" && c).
  - match type of H with (if ?b then _ else _) = _ => destruct b end.
    + now apply remove_mezo_mirrors in H.
    + now injection H as <-.
  - now injection H as <-.
Qed.

Lemma set_status_if_no_tool_mirrors m s :
  mirrors_store s -> mirrors_store (set_status_if_no_tool m s).
Proof. unfold set_status_if_no_tool. now destruct (tool s). Qed.

Lemma viewer_interaction_end_mirrors s s' :
  viewer_interaction_end s = Some s' -> mirrors_store s -> mirrors_store s'.
Proof.
  unfold viewer_interaction_end. intros H Hm.
  destruct (image_size (view s)); [|discriminate H].
  destruct (move (view s)) as [mv|].
  { destruct (end_moving mv (view s)); [|discriminate H].
    cbn [bind] in H. injection H as <-.
    now apply set_status_if_no_tool_mirrors. }
  assert (Hclick :
    (if scale_limit (view s)
     then Some (update_status_message (Msg "scale limit has been reached") s)
     else coord <- click_coord (view s) ;;
          match tool s with
          | None => Some (update_status_message (Msg_click (fst coord) (snd coord)) s)
          | Some Magic_select => magic_select coord s
          | Some Manual_select => Some (manual_select coord s)
          | Some Remove_tool => remove_tool coord s
          end) = Some s' ->
    mirrors_store s').
  { clear H. intros H. destruct (scale_limit (view s)).
    - now injection H as <-.
    - destruct (click_coord (view s)) as [coord|]; [|discriminate H].
      cbn [bind] in H. destruct (tool s) as [[| |]|].
      + now apply magic_select_mirrors in H.
      + injection H as <-. now apply manual_select_mirrors.
      + destruct coord as [x y]. unfold remove_tool in H.
        destruct (mezo_data s); [|discriminate H].
        now apply remove_mezo_mirrors in H.
      + now injection H as <-. }
  destruct (scale (view s)) as [sc|]; [|exact (Hclick H)].
  destruct (scale_limit (view s)) eqn:El; [exact (Hclick H)|].
  destruct (end_scaling sc (view s)); [|discriminate H].
  cbn [bind] in H. injection H as <-.
  now apply set_status_if_no_tool_mirrors.
Qed.

(** Once an image is open, the session dictionary holds the rows of the
    store for that image after every event; so the Remove tool and Ctrl+Z
    always find in the store the row they select, and [remove_mezo] does not
    raise. *)
Lemma run_mirrors es :
  forall s, mirrors_store s -> mirrors_store (run es s).
Proof.
  unfold run. induction es as [|e es IH]; intros s Hm; cbn [fold_left].
  - exact Hm.
  - apply IH. unfold step. destruct (handle e s) as [s'|] eqn:E; [|exact Hm].
    destruct e; cbn [handle] in E; try (injection E as <-; exact Hm).
    + now apply viewer_interaction_end_mirrors in E.
    + now apply on_keyboard_mirrors in E.
    + now apply change_tool_mirrors in E.
    + injection E as <-. reflexivity.
Qed.

Lemma open_image_mirrors f w h s es : mirrors_store (run es (open_image f w h s)).
Proof. apply run_mirrors. reflexivity. Qed.

(* ================================================================== *)
(** * Further properties of the editor *)

(** ** The recursive erase and repaint *)




(** ** Creating an annotation: the record and the raster agree *)

Lemma py_leb_compat a b c d : a == c -> b == d -> py_leb a b = py_leb c d.
Proof. intros E1 E2. unfold py_leb. now rewrite E1, E2. Qed.

Lemma in_circle_compat x y r r' px py :
  r == r' -> in_circle x y r px py = in_circle x y r' px py.
Proof.
  intros E. unfold in_circle. f_equal; apply py_leb_compat;
    try reflexivity; try exact E. now rewrite E.
Qed.

Lemma mezo_overlay_compat x y r r' px py :
  r == r' -> mezo_overlay x y r px py = mezo_overlay x y r' px py.
Proof.
  intros E. unfold mezo_overlay, draw_ellipse.
  rewrite (in_circle_compat x y r r' px py E).
  rewrite (in_circle_compat x y (r - 3) (r' - 3) px py) by now rewrite E.
  reflexivity.
Qed.

Lemma paint_mezo_ext row m1 m2 :
  pixel_identical m1 m2 -> pixel_identical (paint_mezo row m1) (paint_mezo row m2).
Proof. intros H px py. rewrite !paint_mezo_px. now rewrite H. Qed.

Lemma erase_mezo_ext row m1 m2 :
  pixel_identical m1 m2 -> pixel_identical (erase_mezo row m1) (erase_mezo row m2).
Proof. intros H px py. rewrite !erase_mezo_px. now rewrite H. Qed.

Lemma paint_all_ext rows :
  forall m1 m2,
    pixel_identical m1 m2 -> pixel_identical (paint_all rows m1) (paint_all rows m2).
Proof.
  induction rows as [|r rows IH]; intros m1 m2 H; cbn [paint_all fold_left].
  - exact H.
  - apply IH, paint_mezo_ext, H.
Qed.

Lemma erase_all_ext rows :
  forall m1 m2,
    pixel_identical m1 m2 -> pixel_identical (erase_all rows m1) (erase_all rows m2).
Proof.
  induction rows as [|r rows IH]; intros m1 m2 H; cbn [erase_all fold_left].
  - exact H.
  - apply IH, erase_mezo_ext, H.
Qed.

Lemma paint_all_app rows row m :
  paint_all (rows ++ [row]) m = paint_mezo row (paint_all rows m).
Proof. unfold paint_all. now rewrite fold_left_app. Qed.

(** [add_mezo_to_db] followed by [add_mezo_to_viewer] with the radius whose
    double was stored: one row is appended to the store, and the circle
    painted is the circle of that row. *)
Lemma create_and_paint (x y : Z) (radius : Q) (s : session) :
  let s' :=
    add_mezo_to_viewer (inject_Z x) (inject_Z y) radius false
      (add_mezo_to_db (inject_Z x, inject_Z y) (radius * 2) s) in
  exists row,
    mezo_table (db s') = mezo_table (db s) ++ [row] /\
    mezo_id row = (mezo_seq (db s) + 1)%Z /\
    row_image_id row = image_id s /\
    center_x row = inject_Z x /\ center_y row = inject_Z y /\
    diameter row = radius * 2 /\
    mezo_data s' = Some (db_select_image (image_id s) (db s) ++ [row]) /\
    pixel_identical (mask s') (paint_mezo row (mask s)) /\
    image_id s' = image_id s.
Proof.
  intros s'. eexists. split; [reflexivity|].
  cbn [mezo_id row_image_id center_x center_y diameter].
  split; [reflexivity|]. split; [reflexivity|]. split; [reflexivity|].
  split; [reflexivity|]. split; [reflexivity|]. split; [|split; [|reflexivity]].
  - unfold s'. cbn [mezo_data add_mezo_to_viewer save_mask set_prev_masks
                    add_mezo_to_db get_mezo_data set_mezo_data set_db db image_id
                    db_insert fst snd].
    f_equal. unfold db_select_image, db_insert. cbn [mezo_table].
    rewrite filter_app. cbn [filter row_image_id]. now rewrite Z.eqb_refl.
  - intros px py. unfold s'.
    cbn [mask add_mezo_to_viewer save_mask set_prev_masks add_mezo_to_db
         get_mezo_data set_mezo_data set_db].
    rewrite paint_mezo_px. unfold alpha_composite.
    cbn [center_x center_y diameter]. f_equal.
    apply mezo_overlay_compat. field.
Qed.

(** A creation with Manual select (its second click) or Magic select
    appends one record, whose centre is the first click or the centre the
    model found, and paints on the mask exactly the circle of that record;
    so a mask that shows the stored annotations in insertion order still
    does after the creation, and the mask of a newly opened image without
    records and without a mask file does. *)
Theorem creation_paints_the_record :
  (forall (s : session) (coord : Z * Z) (x0 y0 : Z),
     current_coord s = Some (x0, y0) ->
     let s' := manual_select coord s in
     (exists row,
        mezo_table (db s') = mezo_table (db s) ++ [row] /\
        center_x row = inject_Z x0 /\ center_y row = inject_Z y0 /\
        pixel_identical (mask s') (paint_mezo row (mask s))) /\
     (mask_shows_store s -> mask_shows_store s')) /\
  (forall (s s' : session) (coord : Z * Z),
     magic_select coord s = Some s' ->
     (exists row,
        mezo_table (db s') = mezo_table (db s) ++ [row] /\
        pixel_identical (mask s') (paint_mezo row (mask s))) /\
     (mask_shows_store s -> mask_shows_store s')) /\
  (forall (f : image_file) (w h : Q) (s : session),
     mask_files s (file_image_id f) = None ->
     db_select_image (file_image_id f) (db s) = [] ->
     mask_shows_store (open_image f w h s)).
Proof.
  assert (Hstep : forall x y radius s,
    let s' := add_mezo_to_viewer (inject_Z x) (inject_Z y) radius false
                (add_mezo_to_db (inject_Z x, inject_Z y) (radius * 2) s) in
    mask_shows_store s -> mask_shows_store s').
  { intros x y radius s s' H.
    destruct (create_and_paint x y radius s)
      as (row & Et & _ & Hi & _ & _ & _ & _ & Hm & Hid).
    fold s' in Et, Hm, Hid. unfold mask_shows_store.
    assert (Es : db_select_image (image_id s') (db s')
                 = db_select_image (image_id s) (db s) ++ [row]).
    { unfold db_select_image. rewrite Hid, Et, filter_app.
      cbn [filter]. now rewrite Hi, Z.eqb_refl. }
    rewrite Es, paint_all_app. intros px py. rewrite Hm.
    now apply paint_mezo_ext. }
  split; [|split].
  - intros s [x y] x0 y0 Hc s'. unfold s', manual_select. rewrite Hc.
    set (radius := math_sqrt _).
    set (s0 := set_current_coord None (removelast (center_markers s)) s).
    destruct (create_and_paint x0 y0 radius s0)
      as (row & Et & _ & _ & Hx & Hy & _ & _ & Hm & _).
    split.
    + exists row. repeat split; assumption.
    + intros H. apply (Hstep x0 y0 radius s0). exact H.
  - intros s s' coord E. unfold magic_select in E.
    destruct (sam_model s) as [p|]; [|discriminate E].
    destruct (p coord) as [[x y] radius]. injection E as <-.
    destruct (create_and_paint x y radius s)
      as (row & Et & _ & _ & _ & _ & _ & _ & Hm & _).
    split.
    + exists row. split; assumption.
    + apply Hstep.
  - intros f w h s Hfile Hrows. unfold mask_shows_store.
    cbn [mask open_image image_id db]. rewrite Hfile, Hrows.
    intros px py. reflexivity.
Qed.

Lemma creation_paints_the_record_witness :
  mask_shows_store (manual_select (30, 20)%Z (manual_select (20, 20)%Z opened)).
Proof.
  destruct creation_paints_the_record as (Hman & _ & Hopen).
  assert (H0 : mask_shows_store opened).
  { apply Hopen; reflexivity. }
  assert (Hc : current_coord (manual_select (20, 20)%Z opened) = Some (20, 20)%Z)
    by (vm_compute; reflexivity).
  destruct (Hman (manual_select (20, 20)%Z opened) (30, 20)%Z 20%Z 20%Z Hc)
    as [_ Hkeep].
  apply Hkeep. exact H0.
Defined.

(** ** Survivors that intersect each other are painted twice *)



(** ** The handlers that remove never miss their row *)

Lemma remove_mezo_returns k s :
  key_falsy k = true \/ fetch_mezo k s <> None -> remove_mezo k s <> None.
Proof.
  intros H. unfold remove_mezo. destruct (key_falsy k); [discriminate|].
  destruct H as [H | H]; [discriminate H|].
  destruct (fetch_mezo k s); [|contradiction].
  match goal with |- (if ?b then _ else _) <> None => destruct b end; discriminate.
Qed.

Lemma remove_tool_returns coord s : mirrors_store s -> remove_tool coord s <> None.
Proof.
  intros Hm. destruct coord as [x y]. unfold remove_tool.
  unfold mirrors_store in Hm. rewrite Hm.
  apply remove_mezo_returns. unfold mezo_to_remove_at.
  destruct (find (contains_click x y) (rev (db_select_image (image_id s) (db s))))
    as [m|] eqn:E; [|left; reflexivity].
  right. cbn [key_of fetch_mezo]. unfold db_select_id.
  apply find_some in E. destruct E as [Hin _].
  apply in_rev in Hin. unfold db_select_image in Hin.
  apply filter_In in Hin. destruct Hin as [Hin _].
  intros Hnone.
  pose proof (find_none _ _ Hnone m Hin) as Hf. cbn in Hf.
  rewrite Z.eqb_refl in Hf. discriminate Hf.
Qed.

Lemma change_tool_returns i s : (i < 3)%nat -> change_tool i s <> None.
Proof.
  intros H. unfold change_tool.
  destruct i as [|[|[|i]]]; cbn [nth_error tools]; try discriminate. lia.
Qed.

Lemma on_keyboard_returns k c s : mirrors_store s -> on_keyboard k c s <> None.
Proof.
  intros Hm. unfold on_keyboard.
  match goal with |- bind ?c1 _ <> None =>
    destruct c1 as [s1|] eqn:E1;
    [assert (M1 : mirrors_store s1) | exfalso]
  end.
  { destruct (String.eqb k "Escape"); [|now injection E1 as <-].
    unfold drop_current_coord in E1.
    destruct (current_coord s); injection E1 as <-; exact Hm. }
  2:{ destruct (String.eqb k "Escape"); [|discriminate E1].
      destruct (current_coord s); discriminate E1. }
  cbn [bind].
  match goal with |- bind ?c1 _ <> None =>
    destruct c1 as [s2|] eqn:E2;
    [assert (M2 : mirrors_store s2) | exfalso]
  end.
  { destruct (String.eqb k "1"); [now apply change_tool_mirrors in E2|].
    now injection E2 as <-. }
  2:{ destruct (String.eqb k "1"); [|discriminate E2].
      revert E2. apply change_tool_returns. lia. }
  cbn [bind].
  match goal with |- bind ?c1 _ <> None =>
    destruct c1 as [s3|] eqn:E3;
    [assert (M3 : mirrors_store s3) | exfalso]
  end.
  { destruct (String.eqb k "2"); [now apply change_tool_mirrors in E3|].
    now injection E3 as <-. }
  2:{ destruct (String.eqb k "2"); [|discriminate E3].
      revert E3. apply change_tool_returns. lia. }
  cbn [bind].
  match goal with |- bind ?c1 _ <> None =>
    destruct c1 as [s4|] eqn:E4;
    [assert (M4 : mirrors_store s4) | exfalso]
  end.
  { destruct (String.eqb k "3"); [now apply change_tool_mirrors in E4|].
    now injection E4 as <-. }
  2:{ destruct (String.eqb k "3"); [|discriminate E4].
      revert E4. apply change_tool_returns. lia. }
  cbn [bind].
  destruct (String.eqb k "Z" && c); [|discriminate].
  unfold mirrors_store in M4. rewrite M4.
  destruct (current_coord s4); [discriminate|].
  destruct (db_select_image (image_id s4) (db s4)) as [|r rows] eqn:Erows;
    [discriminate|].
  cbn [List.length Nat.ltb Nat.leb].
  apply remove_mezo_returns. right. cbn [fetch_mezo].
  destruct (db_select_last_some (image_id s4) (db s4)) as (r' & Er & _).
  { rewrite Erows. discriminate. }
  rewrite Er. discriminate.
Qed.

(** Once an image is open the session dictionary ['mezo_data'] holds the
    rows of the store for that image after every sequence of events; and in
    such a session no keyboard event and no click of the Remove tool raises:
    the row they select is always found in the store. *)
Theorem store_is_mirrored :
  (forall f w h s es, mirrors_store (run es (open_image f w h s))) /\
  (forall s k c, mirrors_store s -> on_keyboard k c s <> None) /\
  (forall s coord, mirrors_store s -> remove_tool coord s <> None).
Proof.
  split; [exact open_image_mirrors|]. split.
  - intros s k c. apply on_keyboard_returns.
  - intros s coord. apply remove_tool_returns.
Qed.

Lemma store_is_mirrored_witness :
  on_keyboard "Z" true three_circles <> None /\
  remove_tool (30, 24)%Z three_circles <> None.
Proof.
  destruct store_is_mirrored as (_ & Hk & Ht).
  assert (Hm : mirrors_store three_circles).
  { unfold mirrors_store. vm_compute. reflexivity. }
  split; [apply Hk, Hm | apply Ht, Hm].
Defined.

(** ** The viewport stays consistent *)













(** ** The mask file follows the mask *)

Lemma same_image_refl s : same_image s s.
Proof. unfold same_image. repeat split; auto. Qed.

Lemma same_image_trans s1 s2 s3 :
  same_image s1 s2 -> same_image s2 s3 -> same_image s1 s3.
Proof.
  unfold same_image. intros (E1 & F1 & M1) (E2 & F2 & M2). repeat split.
  - congruence.
  - intros i Hi. rewrite F2, F1; [reflexivity | exact Hi | congruence].
  - auto.
Qed.

Lemma save_mask_same_image m s : same_image s (save_mask m s).
Proof.
  unfold same_image. cbn [image_id mask_files save_mask]. repeat split.
  - intros i Hi. apply Z.eqb_neq in Hi. now rewrite Hi.
  - intros _. unfold mask_saved. cbn [mask_files image_id mask save_mask].
    now rewrite Z.eqb_refl.
Qed.

(** A handler that touches neither the mask, nor the mask files, nor the
    image id. *)
Lemma same_image_untouched s s' :
  image_id s' = image_id s -> mask_files s' = mask_files s -> mask s' = mask s ->
  same_image s s'.
Proof.
  intros Ei Ef Em. unfold same_image, mask_saved. rewrite Ei, Ef, Em.
  repeat split; auto.
Qed.

Lemma add_mezo_to_viewer_same_image x y radius recursive s :
  same_image s (add_mezo_to_viewer x y radius recursive s).
Proof.
  unfold add_mezo_to_viewer. destruct recursive.
  - apply save_mask_same_image.
  - eapply same_image_trans; [|apply save_mask_same_image].
    now apply same_image_untouched.
Qed.

Lemma erase_fold_same_image rows :
  forall s, same_image s (fold_left (fun s r => remove_mezo_from_viewer r s) rows s).
Proof.
  induction rows as [|r rows IH]; intros s; cbn [fold_left].
  - apply same_image_refl.
  - eapply same_image_trans; [|apply IH].
    unfold remove_mezo_from_viewer.
    destruct (circle_of r) as [[x y] radius]. apply save_mask_same_image.
Qed.

Lemma paint_fold_same_image rows :
  forall s,
    same_image s
      (fold_left
         (fun s r => add_mezo_to_viewer (center_x r) (center_y r) (diameter r / 2) true s)
         rows s).
Proof.
  induction rows as [|r rows IH]; intros s; cbn [fold_left].
  - apply same_image_refl.
  - eapply same_image_trans; [|apply IH]. apply add_mezo_to_viewer_same_image.
Qed.

Lemma remove_mezo_same_image k s s' :
  remove_mezo k s = Some s' -> same_image s s'.
Proof.
  unfold remove_mezo. destruct (key_falsy k).
  { intros H. injection H as <-. apply same_image_refl. }
  destruct (fetch_mezo k s) as [r|]; [|discriminate].
  unfold get_mezo_data. cbv zeta.
  match goal with |- context [set_mezo_data ?a (set_db ?b s)] =>
    set (s0 := set_mezo_data a (set_db b s))
  end.
  assert (H0 : same_image s s0) by now apply same_image_untouched.
  destruct ((0 <? List.length (prev_masks s0))%nat && is_undo k);
    intros H; injection H as <-.
  - eapply same_image_trans; [exact H0|].
    eapply same_image_trans; [|apply save_mask_same_image].
    now apply same_image_untouched.
  - rewrite recursive_adding_order, recursive_removing_order.
    eapply same_image_trans; [exact H0|].
    eapply same_image_trans; [|apply paint_fold_same_image].
    eapply same_image_trans; [|apply erase_fold_same_image].
    unfold remove_mezo_from_viewer.
    destruct (circle_of r) as [[x y] radius]. apply save_mask_same_image.
Qed.

Lemma magic_select_same_image coord s s' :
  magic_select coord s = Some s' -> same_image s s'.
Proof.
  unfold magic_select. destruct (sam_model s) as [pr|]; [|discriminate].
  destruct (pr coord) as [[x y] radius]. intros H. injection H as <-.
  eapply same_image_trans; [|apply add_mezo_to_viewer_same_image].
  now apply same_image_untouched.
Qed.

Lemma manual_select_same_image coord s : same_image s (manual_select coord s).
Proof.
  destruct coord as [x y]. unfold manual_select.
  destruct (current_coord s) as [[x0 y0]|].
  - match goal with |- same_image _ (update_status_message _ ?t) =>
      apply same_image_trans with (s2 := t);
      [|now apply same_image_untouched]
    end.
    eapply same_image_trans; [|apply add_mezo_to_viewer_same_image].
    now apply same_image_untouched.
  - now apply same_image_untouched.
Qed.

Lemma change_tool_same_image i s s' : change_tool i s = Some s' -> same_image s s'.
Proof.
  unfold change_tool. destruct (nth_error tools i) as [t|]; [|discriminate].
  unfold drop_current_coord, sam_init.
  destruct t; cbn [set_tool current_coord]; destruct (current_coord s);
    cbn [set_tool set_current_coord sam_model]; try destruct (sam_model s);
    intros H; injection H as <-; now apply same_image_untouched.
Qed.

Lemma on_keyboard_same_image k c s s' :
  on_keyboard k c s = Some s' -> same_image s s'.
Proof.
  unfold on_keyboard. intros H.
  match type of H with bind ?c1 _ = _ =>
    destruct c1 as [s1|] eqn:E1; [|discriminate H];
    assert (V1 : same_image s s1)
  end.
  { destruct (String.eqb k "Escape");
      [|injection E1 as <-; apply same_image_refl].
    unfold drop_current_coord in E1.
    destruct (current_coord s); injection E1 as <-;
      now apply same_image_untouched. }
  cbn [bind] in H.
  match type of H with bind ?c1 _ = _ =>
    destruct c1 as [s2|] eqn:E2; [|discriminate H];
    assert (V2 : same_image s1 s2)
  end.
  { destruct (String.eqb k "1"); [now apply change_tool_same_image in E2|].
    injection E2 as <-. apply same_image_refl. }
  cbn [bind] in H.
  match type of H with bind ?c1 _ = _ =>
    destruct c1 as [s3|] eqn:E3; [|discriminate H];
    assert (V3 : same_image s2 s3)
  end.
  { destruct (String.eqb k "2"); [now apply change_tool_same_image in E3|].
    injection E3 as <-. apply same_image_refl. }
  cbn [bind] in H.
  match type of H with bind ?c1 _ = _ =>
    destruct c1 as [s4|] eqn:E4; [|discriminate H];
    assert (V4 : same_image s3 s4)
  end.
  { destruct (String.eqb k "3"); [now apply change_tool_same_image in E4|].
    injection E4 as <-. apply same_image_refl. }
  cbn [bind] in H.
  apply same_image_trans with (s2 := s4).
  { eapply same_image_trans; [exact V1|].
    eapply same_image_trans; [exact V2|].
    eapply same_image_trans; [exact V3 | exact V4]. }
  destruct (String.eqb k "Z" && c).
  - match type of H with (if ?b then _ else _) = _ => destruct b end.
    + now apply remove_mezo_same_image in H.
    + injection H as <-. apply same_image_refl.
  - injection H as <-. apply same_image_refl.
Qed.

Lemma set_status_if_no_tool_same_image m s :
  same_image s (set_status_if_no_tool m s).
Proof.
  unfold set_status_if_no_tool. destruct (tool s);
    [apply same_image_refl | now apply same_image_untouched].
Qed.

Lemma viewer_interaction_end_same_image s s' :
  viewer_interaction_end s = Some s' -> same_image s s'.
Proof.
  unfold viewer_interaction_end. intros H.
  destruct (image_size (view s)); [|discriminate H].
  destruct (move (view s)) as [mv|].
  { destruct (end_moving mv (view s)) as [v'|]; [|discriminate H].
    cbn [bind] in H. injection H as <-.
    eapply same_image_trans; [|apply set_status_if_no_tool_same_image].
    now apply same_image_untouched. }
  assert (Hclick :
    (if scale_limit (view s)
     then Some (update_status_message (Msg "scale limit has been reached") s)
     else coord <- click_coord (view s) ;;
          match tool s with
          | None => Some (update_status_message (Msg_click (fst coord) (snd coord)) s)
          | Some Magic_select => magic_select coord s
          | Some Manual_select => Some (manual_select coord s)
          | Some Remove_tool => remove_tool coord s
          end) = Some s' ->
    same_image s s').
  { clear H. intros H. destruct (scale_limit (view s)).
    - injection H as <-. now apply same_image_untouched.
    - destruct (click_coord (view s)) as [coord|]; [|discriminate H].
      cbn [bind] in H. destruct (tool s) as [[| |]|].
      + now apply magic_select_same_image in H.
      + injection H as <-. apply manual_select_same_image.
      + destruct coord as [x y]. unfold remove_tool in H.
        destruct (mezo_data s); [|discriminate H].
        now apply remove_mezo_same_image in H.
      + injection H as <-. now apply same_image_untouched. }
  destruct (scale (view s)) as [sc|]; [|exact (Hclick H)].
  destruct (scale_limit (view s)) eqn:El; [exact (Hclick H)|].
  destruct (end_scaling sc (view s)) as [v'|]; [|discriminate H].
  cbn [bind] in H. injection H as <-.
  eapply same_image_trans; [|apply set_status_if_no_tool_same_image].
  now apply same_image_untouched.
Qed.

Lemma step_same_image e s : opens_image e = false -> same_image s (step e s).
Proof.
  intros He. unfold step. destruct (handle e s) as [s'|] eqn:E;
    [|apply same_image_refl].
  destruct e; cbn [handle] in E; try discriminate He;
    try (injection E as <-; now apply same_image_untouched).
  - now apply viewer_interaction_end_same_image.
  - now apply on_keyboard_same_image in E.
  - now apply change_tool_same_image in E.
Qed.

Lemma run_same_image es :
  forall s, forallb (fun e => negb (opens_image e)) es = true ->
            same_image s (run es s).
Proof.
  unfold run. induction es as [|e es IH]; intros s H; cbn [fold_left].
  - apply same_image_refl.
  - cbn [forallb] in H. apply andb_true_iff in H. destruct H as [He Hes].
    eapply same_image_trans; [|apply IH, Hes].
    apply step_same_image. now apply negb_true_iff.
Qed.

Lemma open_image_mask_saved f w h s : mask_saved (open_image f w h s).
Proof.
  unfold mask_saved. cbn [mask_files image_id mask open_image].
  destruct (mask_files s (file_image_id f)); reflexivity.
Qed.

Lemma run_mask_saved es : forall s, mask_saved s -> mask_saved (run es s).
Proof.
  unfold run. induction es as [|e es IH]; intros s H; cbn [fold_left].
  - exact H.
  - apply IH. destruct (opens_image e) eqn:He.
    + destruct e; try discriminate He. unfold step. cbn [handle].
      apply open_image_mask_saved.
    + now apply (step_same_image e s He).
Qed.

(** The mask file of the open image follows every change of the mask:
    after every sequence of events that starts with the opening of an image
    the file holds the mask of the session (or does not exist yet, the mask
    being untouched).  So the mask comes back when the image is opened
    again, also after other images were opened and edited in between. *)
Theorem mask_file_follows_mask :
  (forall f w h s es, mask_saved (run es (open_image f w h s))) /\
  (forall s f w h,
     mask_saved s -> file_image_id f = image_id s ->
     mask (open_image f w h s) = mask s) /\
  (forall s f2 w2 h2 es f1 w1 h1,
     mask_saved s ->
     file_image_id f2 <> image_id s ->
     file_image_id f1 = image_id s ->
     forallb (fun e => negb (opens_image e)) es = true ->
     mask (open_image f1 w1 h1 (run es (open_image f2 w2 h2 s))) = mask s).
Proof.
  assert (Hreopen : forall s0 s1 f w h,
    mask_saved s0 -> file_image_id f = image_id s0 ->
    mask_files s1 (image_id s0) = mask_files s0 (image_id s0) ->
    mask (open_image f w h s1) = mask s0).
  { intros s0 s1 f w h Hs Hf Hfiles. cbn [mask open_image].
    rewrite Hf, Hfiles. unfold mask_saved in Hs.
    destruct (mask_files s0 (image_id s0)); [exact Hs | now symmetry]. }
  split; [|split].
  - intros. apply run_mask_saved, open_image_mask_saved.
  - intros s f w h Hs Hf. now apply Hreopen.
  - intros s f2 w2 h2 es f1 w1 h1 Hs Hne Hf Hes.
    apply Hreopen; [exact Hs | exact Hf |].
    destruct (run_same_image es (open_image f2 w2 h2 s) Hes) as (_ & Hfiles & _).
    rewrite Hfiles; [reflexivity|]. cbn [image_id open_image]. congruence.
Qed.

Lemma mask_file_follows_mask_witness :
  mask (open_image sample_file 810 676 drawn) = mask drawn.
Proof.
  destruct mask_file_follows_mask as (Hsaved & Hreopen & _).
  apply Hreopen.
  - unfold drawn. apply Hsaved.
  - vm_compute. reflexivity.
Defined.

(** ** The store: fresh ids, undo of a creation, undo after a removal *)

Lemma remove_mezo_db k s s' :
  remove_mezo k s = Some s' ->
  db s' = db s \/
  exists r, fetch_mezo k s = Some r /\ db s' = db_delete (mezo_id r) (db s).
Proof.
  unfold remove_mezo. destruct (key_falsy k).
  { intros H. injection H as <-. now left. }
  destruct (fetch_mezo k s) as [r|]; [|discriminate].
  unfold get_mezo_data. cbv zeta.
  match goal with |- context [set_mezo_data ?a (set_db ?b s)] =>
    set (s0 := set_mezo_data a (set_db b s))
  end.
  destruct ((0 <? List.length (prev_masks s0))%nat && is_undo k);
    intros H; injection H as <-; right; exists r; (split; [reflexivity|]).
  - reflexivity.
  - rewrite recursive_adding_order, recursive_removing_order.
    match goal with |- context [fold_left ?f ?o (fold_left ?g ?o ?s1)] =>
      destruct (erase_fold o s1) as [_ Ef];
      destruct (paint_fold o (fold_left g o s1)) as [_ Pf];
      pose proof (only_mask_changed_trans _ _ _ Ef Pf) as F
    end.
    destruct F as (_ & _ & _ & _ & _ & _ & _ & Fdb & _).
    rewrite Fdb. unfold remove_mezo_from_viewer.
    destruct (circle_of r) as [[x y] radius]. reflexivity.
Qed.

Lemma remove_mezo_store k s s' :
  remove_mezo k s = Some s' -> store_step (db s) (db s').
Proof.
  intros H. apply remove_mezo_db in H. destruct H as [H | (r & _ & H)].
  - now left.
  - right. right. now exists (mezo_id r).
Qed.

Lemma magic_select_store coord s s' :
  magic_select coord s = Some s' -> store_step (db s) (db s').
Proof.
  unfold magic_select. destruct (sam_model s) as [pr|]; [|discriminate].
  destruct (pr coord) as [[x y] radius]. intros H. injection H as <-.
  right. left. do 5 eexists. reflexivity.
Qed.

Lemma manual_select_store coord s : store_step (db s) (db (manual_select coord s)).
Proof.
  destruct coord as [x y]. unfold manual_select.
  destruct (current_coord s) as [[x0 y0]|].
  - right. left. do 5 eexists. reflexivity.
  - now left.
Qed.

Lemma change_tool_db i s s' : change_tool i s = Some s' -> db s' = db s.
Proof.
  unfold change_tool. destruct (nth_error tools i) as [t|]; [|discriminate].
  unfold drop_current_coord, sam_init.
  destruct t; cbn [set_tool current_coord]; destruct (current_coord s);
    cbn [set_tool set_current_coord sam_model]; try destruct (sam_model s);
    intros H; injection H as <-; reflexivity.
Qed.

Lemma on_keyboard_store k c s s' :
  on_keyboard k c s = Some s' -> store_step (db s) (db s').
Proof.
  unfold on_keyboard. intros H.
  match type of H with bind ?c1 _ = _ =>
    destruct c1 as [s1|] eqn:E1; [|discriminate H];
    assert (V1 : db s1 = db s)
  end.
  { destruct (String.eqb k "Escape"); [|now injection E1 as <-].
    unfold drop_current_coord in E1.
    destruct (current_coord s); now injection E1 as <-. }
  cbn [bind] in H.
  match type of H with bind ?c1 _ = _ =>
    destruct c1 as [s2|] eqn:E2; [|discriminate H];
    assert (V2 : db s2 = db s1)
  end.
  { destruct (String.eqb k "1"); [now apply change_tool_db in E2|].
    now injection E2 as <-. }
  cbn [bind] in H.
  match type of H with bind ?c1 _ = _ =>
    destruct c1 as [s3|] eqn:E3; [|discriminate H];
    assert (V3 : db s3 = db s2)
  end.
  { destruct (String.eqb k "2"); [now apply change_tool_db in E3|].
    now injection E3 as <-. }
  cbn [bind] in H.
  match type of H with bind ?c1 _ = _ =>
    destruct c1 as [s4|] eqn:E4; [|discriminate H];
    assert (V4 : db s4 = db s3)
  end.
  { destruct (String.eqb k "3"); [now apply change_tool_db in E4|].
    now injection E4 as <-. }
  cbn [bind] in H.
  assert (E : db s4 = db s) by congruence. rewrite <- E.
  destruct (String.eqb k "Z" && c).
  - match type of H with (if ?b then _ else _) = _ => destruct b end.
    + now apply remove_mezo_store in H.
    + injection H as <-. now left.
  - injection H as <-. now left.
Qed.

Lemma set_status_if_no_tool_db m s : db (set_status_if_no_tool m s) = db s.
Proof. unfold set_status_if_no_tool. now destruct (tool s). Qed.

Lemma viewer_interaction_end_store s s' :
  viewer_interaction_end s = Some s' -> store_step (db s) (db s').
Proof.
  unfold viewer_interaction_end. intros H.
  destruct (image_size (view s)); [|discriminate H].
  destruct (move (view s)) as [mv|].
  { destruct (end_moving mv (view s)) as [v'|]; [|discriminate H].
    cbn [bind] in H. injection H as <-. left.
    now rewrite set_status_if_no_tool_db. }
  assert (Hclick :
    (if scale_limit (view s)
     then Some (update_status_message (Msg "scale limit has been reached") s)
     else coord <- click_coord (view s) ;;
          match tool s with
          | None => Some (update_status_message (Msg_click (fst coord) (snd coord)) s)
          | Some Magic_select => magic_select coord s
          | Some Manual_select => Some (manual_select coord s)
          | Some Remove_tool => remove_tool coord s
          end) = Some s' ->
    store_step (db s) (db s')).
  { clear H. intros H. destruct (scale_limit (view s)).
    - injection H as <-. now left.
    - destruct (click_coord (view s)) as [coord|]; [|discriminate H].
      cbn [bind] in H. destruct (tool s) as [[| |]|].
      + now apply magic_select_store in H.
      + injection H as <-. apply manual_select_store.
      + destruct coord as [x y]. unfold remove_tool in H.
        destruct (mezo_data s); [|discriminate H].
        now apply remove_mezo_store in H.
      + injection H as <-. now left. }
  destruct (scale (view s)) as [sc|]; [|exact (Hclick H)].
  destruct (scale_limit (view s)) eqn:El; [exact (Hclick H)|].
  destruct (end_scaling sc (view s)) as [v'|]; [|discriminate H].
  cbn [bind] in H. injection H as <-. left.
  now rewrite set_status_if_no_tool_db.
Qed.

Lemma step_store e s : store_step (db s) (db (step e s)).
Proof.
  unfold step. destruct (handle e s) as [s'|] eqn:E; [|now left].
  destruct e; cbn [handle] in E;
    try (injection E as <-; now left).
  - now apply viewer_interaction_end_store.
  - now apply on_keyboard_store in E.
  - apply change_tool_db in E. now left.
Qed.

Lemma StronglySorted_app_one {A} (R : A -> A -> Prop) l a :
  StronglySorted R l -> Forall (fun b => R b a) l -> StronglySorted R (l ++ [a]).
Proof.
  induction l as [|b l IH]; intros Hs Hf; cbn [app].
  - constructor; constructor.
  - inversion Hs; subst. inversion Hf; subst. constructor.
    + now apply IH.
    + apply Forall_app. split; [assumption | now constructor].
Qed.

Lemma StronglySorted_filter {A} (R : A -> A -> Prop) f l :
  StronglySorted R l -> StronglySorted R (filter f l).
Proof.
  induction 1 as [|a l Hs IH Hf]; cbn [filter]; [constructor|].
  destruct (f a); [|exact IH]. constructor; [exact IH|].
  rewrite Forall_forall in *. intros x Hx. apply filter_In in Hx. now apply Hf.
Qed.

Lemma db_insert_wf i cx cy dm sq d : store_wf d -> store_wf (db_insert i cx cy dm sq d).
Proof.
  intros (Hs & Hb & Hq). unfold store_wf, db_insert. cbn [mezo_table mezo_seq].
  split; [|split; [|lia]].
  - apply StronglySorted_app_one; [exact Hs|].
    eapply Forall_impl; [|exact Hb]. cbn. intros; lia.
  - apply Forall_app. split.
    + eapply Forall_impl; [|exact Hb]. cbn. intros; lia.
    + constructor; [cbn; lia | constructor].
Qed.

Lemma db_delete_wf k d : store_wf d -> store_wf (db_delete k d).
Proof.
  intros (Hs & Hb & Hq). unfold store_wf, db_delete. cbn [mezo_table mezo_seq].
  split; [|split; [|exact Hq]].
  - now apply StronglySorted_filter.
  - rewrite Forall_forall in *. intros x Hx. apply filter_In in Hx. now apply Hb.
Qed.

Lemma store_step_extends d d' : store_step d d' -> store_extends d d'.
Proof.
  intros [-> | [(i & cx & cy & dm & sq & ->) | (k & ->)]]; unfold store_extends;
    cbn [db_insert db_delete mezo_seq mezo_table].
  - split; [lia | now left].
  - split; [lia|]. intros r Hr. apply in_app_or in Hr.
    destruct Hr as [Hr | [<- | []]]; [now left | right; cbn; lia].
  - split; [lia|]. intros r Hr. apply filter_In in Hr. now left.
Qed.

Lemma store_step_wf d d' : store_step d d' -> store_wf d -> store_wf d'.
Proof.
  intros [-> | [(i & cx & cy & dm & sq & ->) | (k & ->)]] H;
    [exact H | now apply db_insert_wf | now apply db_delete_wf].
Qed.

Lemma select_id_of_member d r :
  store_wf d -> In r (mezo_table d) -> db_select_id (mezo_id r) d = Some r.
Proof.
  intros [Hs _]. unfold db_select_id. induction Hs as [|a l Hs IH Hf]; intros Hr.
  - destruct Hr.
  - cbn [find]. destruct Hr as [-> | Hr].
    + now rewrite Z.eqb_refl.
    + rewrite Forall_forall in Hf. specialize (Hf r Hr).
      destruct (Z.eqb_spec (mezo_id a) (mezo_id r)); [lia | now apply IH].
Qed.

(** The editor changes the store only by inserting a record under a fresh
    id and by deleting records: from a store whose ids are positive,
    increasing and bounded by the sequence number, every sequence of events leads to such a
    store again; the sequence number never goes down; a record found
    afterwards was either there before, unchanged, or carries an id above
    the old sequence number, so no id is given out twice, also after
    deletions; and the lookup by id returns each stored record itself. *)
Theorem mezo_ids_never_reused (es : list event) (s : session) :
  store_wf (db s) ->
  store_wf (db (run es s)) /\
  (mezo_seq (db s) <= mezo_seq (db (run es s)))%Z /\
  (forall r, In r (mezo_table (db (run es s))) ->
             In r (mezo_table (db s)) \/ (mezo_seq (db s) < mezo_id r)%Z) /\
  (forall r, In r (mezo_table (db (run es s))) ->
             db_select_id (mezo_id r) (db (run es s)) = Some r).
Proof.
  intros Hwf0.
  assert (H : store_wf (db (run es s)) /\
              (mezo_seq (db s) <= mezo_seq (db (run es s)))%Z /\
              forall r, In r (mezo_table (db (run es s))) ->
                        In r (mezo_table (db s)) \/ (mezo_seq (db s) < mezo_id r)%Z).
  { revert s Hwf0. unfold run.
    induction es as [|e es IH]; intros s Hwf; cbn [fold_left].
    - split; [exact Hwf|]. split; [lia | now left].
    - pose proof (step_store e s) as Hstep.
      destruct (IH (step e s) (store_step_wf _ _ Hstep Hwf)) as (Hwf' & Hseq & Hin).
      destruct (store_step_extends _ _ Hstep) as [Hseq1 Hin1].
      split; [exact Hwf'|]. split; [lia|].
      intros r Hr. destruct (Hin r Hr) as [H | H].
      + exact (Hin1 r H).
      + right. lia. }
  destruct H as (Hwf & Hseq & Hin).
  split; [exact Hwf|]. split; [exact Hseq|]. split; [exact Hin|].
  intros r Hr. now apply select_id_of_member.
Qed.

Lemma fold_pick_in (l : list mezo_row) :
  forall acc r,
    fold_left
      (fun acc r =>
         match acc with
         | None => Some r
         | Some r0 => if (mezo_id r0 <? mezo_id r)%Z then Some r else acc
         end) l acc = Some r ->
    acc = Some r \/ In r l.
Proof.
  induction l as [|a l IH]; intros acc r H; cbn [fold_left] in H; [now left|].
  apply IH in H. destruct H as [H | H]; [|right; now right].
  destruct acc as [r0|].
  - destruct (mezo_id r0 <? mezo_id a)%Z.
    + injection H as <-. right. now left.
    + now left.
  - injection H as <-. right. now left.
Qed.

Lemma db_select_last_appended i t q row :
  row_image_id row = i ->
  Forall (fun r => (mezo_id r < mezo_id row)%Z) t ->
  db_select_last i (mk_database (t ++ [row]) q) = Some row.
Proof.
  intros Hi Hlt. unfold db_select_last, db_select_image. cbn [mezo_table].
  rewrite filter_app. cbn [filter]. rewrite Hi, Z.eqb_refl.
  rewrite fold_left_app. cbn [fold_left].
  match goal with |- match ?f with _ => _ end = _ => destruct f as [r0|] eqn:E end;
    [|reflexivity].
  apply fold_pick_in in E. destruct E as [E | E]; [discriminate E|].
  apply filter_In in E. destruct E as [E _].
  rewrite Forall_forall in Hlt. apply Hlt in E.
  apply Z.ltb_lt in E. now rewrite E.
Qed.

Lemma filter_all {A} (f : A -> bool) l :
  Forall (fun a => f a = true) l -> filter f l = l.
Proof.
  induction 1 as [|a l Ha _ IH]; cbn [filter]; [reflexivity|].
  now rewrite Ha, IH.
Qed.

Lemma push_mask_nonempty m p : (0 <? List.length (push_mask m p))%nat = true.
Proof.
  apply Nat.ltb_lt. unfold push_mask.
  destruct (Nat.ltb_spec 3 (List.length (p ++ [m]))) as [H | H].
  - destruct p as [|a p]; cbn [app tl List.length] in *; [lia|].
    rewrite length_app in *. cbn [List.length] in *. lia.
  - rewrite length_app. cbn [List.length]. lia.
Qed.

Lemma removelast_push_mask m p :
  ((List.length p < 3)%nat -> removelast (push_mask m p) = p) /\
  (forall oldest rest,
     p = oldest :: rest -> (3 <= List.length p)%nat ->
     removelast (push_mask m p) = rest).
Proof.
  destruct (push_mask_cases m p) as [H1 H2]. split.
  - intros H. rewrite (H1 H). apply removelast_last.
  - intros oldest rest E H. rewrite (H2 oldest rest E H). apply removelast_last.
Qed.

Lemma undo_after_insert (s s1 : session) (row : mezo_row) :
  store_wf (db s) ->
  db s1 = mk_database (mezo_table (db s) ++ [row]) (mezo_seq (db s) + 1) ->
  mezo_id row = (mezo_seq (db s) + 1)%Z ->
  row_image_id row = image_id s ->
  image_id s1 = image_id s ->
  mezo_data s1 = Some (db_select_image (image_id s) (db s) ++ [row]) ->
  current_coord s1 = None ->
  prev_masks s1 = push_mask (mask s) (prev_masks s) ->
  exists s2, on_keyboard "Z" true s1 = Some s2 /\ creation_undone s s2.
Proof.
  intros (_ & Hb & _) Hdb Hid Himg Hi Hdata Hcoord Hprev.
  rewrite on_keyboard_ctrl_z, Hdata, Hcoord.
  destruct (db_select_image (image_id s) (db s) ++ [row]) as [|r0 data] eqn:E.
  { symmetry in E. now apply app_cons_not_nil in E. }
  clear E. unfold remove_mezo, fetch_mezo. cbn [key_falsy].
  rewrite Hdb, Hi, db_select_last_appended; [|exact Himg|].
  2:{ eapply Forall_impl; [|exact Hb]. cbn. intros; lia. }
  cbn [get_mezo_data set_db set_mezo_data prev_masks db image_id].
  rewrite Hprev, push_mask_nonempty. cbn [is_undo andb].
  eexists. split; [reflexivity|].
  assert (Et : filter (fun r => negb (mezo_id r =? mezo_id row)%Z)
                 (mezo_table (db s) ++ [row]) = mezo_table (db s)).
  { rewrite filter_app. cbn [filter]. rewrite Z.eqb_refl. cbn [negb].
    rewrite app_nil_r. apply filter_all.
    eapply Forall_impl; [|exact Hb]. cbn. intros a Ha.
    apply negb_true_iff, Z.eqb_neq. lia. }
  unfold creation_undone.
  cbn [db mezo_data mask mask_files prev_masks image_id save_mask set_prev_masks
       get_mezo_data set_mezo_data set_db db_delete mezo_table mezo_seq].
  unfold db_select_image. cbn [mezo_table db_delete].
  rewrite Et, push_mask_last, ?Hi, Z.eqb_refl.
  destruct (removelast_push_mask (mask s) (prev_masks s)) as [H1 H2].
  repeat split; auto.
Qed.

Lemma add_mezo_to_db_data c d s :
  mezo_data (add_mezo_to_db c d s) =
  Some (db_select_image (image_id s) (db s)
        ++ [mk_mezo_row (mezo_seq (db s) + 1) (image_id s) (fst c) (snd c) d
              ((1 # 4) * math_pi * (d * d))]).
Proof.
  unfold add_mezo_to_db, get_mezo_data, db_select_image, db_insert.
  cbn [mezo_data set_mezo_data set_db db mezo_table].
  rewrite filter_app. cbn [filter row_image_id]. now rewrite Z.eqb_refl.
Qed.

(** Ctrl+Z right after a creation takes it back: after the second click of
    Manual select, and after a Magic select creation with no centre pending,
    the undo deletes exactly the record just created and restores the mask,
    the mask file and the collection of the session before the creation;
    the history is the one before the creation, less its oldest snapshot
    when it was full.  Only the sequence number of the store stays
    advanced. *)
Theorem undo_reverts_creation :
  (forall s coord x0 y0,
     store_wf (db s) -> current_coord s = Some (x0, y0) ->
     exists s2,
       on_keyboard "Z" true (manual_select coord s) = Some s2 /\
       creation_undone s s2) /\
  (forall s coord s1,
     store_wf (db s) -> current_coord s = None ->
     magic_select coord s = Some s1 ->
     exists s2, on_keyboard "Z" true s1 = Some s2 /\ creation_undone s s2).
Proof.
  split.
  - intros s [x y] x0 y0 Hwf Hc.
    unfold manual_select. rewrite Hc.
    eapply undo_after_insert with (row := mk_mezo_row _ _ _ _ _ _);
      [exact Hwf | reflexivity | reflexivity | reflexivity | reflexivity
       | | reflexivity | reflexivity].
    exact (add_mezo_to_db_data _ _ _).
  - intros s coord s1 Hwf Hc H. unfold magic_select in H.
    destruct (sam_model s) as [pr|]; [|discriminate H].
    destruct (pr coord) as [[x y] radius]. injection H as <-.
    eapply undo_after_insert with (row := mk_mezo_row _ _ _ _ _ _);
      [exact Hwf | reflexivity | reflexivity | reflexivity | reflexivity
       | | exact Hc | reflexivity].
    exact (add_mezo_to_db_data _ _ _).
Qed.

Lemma mezo_ids_never_reused_witness :
  store_wf (db drawn) /\ (0 <= mezo_seq (db drawn))%Z.
Proof.
  unfold drawn.
  destruct (mezo_ids_never_reused
              (tap 0 0 ++ Keyboard "2" false
                 :: draw_circle 20 20 30 20 ++ draw_circle 30 24 31 24
                 ++ draw_circle 40 20 50 20)
              (open_image sample_file 810 676 blank_session)) as (Hwf & Hseq & _).
  - split; [constructor|]. split; [constructor | discriminate].
  - split; [exact Hwf | exact Hseq].
Defined.

Lemma undo_reverts_creation_witness :
  exists s2,
    on_keyboard "Z" true (manual_select (30, 20)%Z centre_set) = Some s2 /\
    creation_undone centre_set s2.
Proof.
  destruct undo_reverts_creation as [H _].
  apply (H centre_set (30, 20)%Z 20%Z 20%Z).
  - unfold store_wf. vm_compute. split; [constructor|]. split; [constructor | discriminate].
  - vm_compute. reflexivity.
Defined.

Lemma remove_mezo_coord k s s' :
  remove_mezo k s = Some s' ->
  current_coord s' = current_coord s /\ image_id s' = image_id s.
Proof.
  unfold remove_mezo. destruct (key_falsy k).
  { intros H. injection H as <-. now split. }
  destruct (fetch_mezo k s) as [r|]; [|discriminate].
  unfold get_mezo_data. cbv zeta.
  match goal with |- context [set_mezo_data ?a (set_db ?b s)] =>
    set (s0 := set_mezo_data a (set_db b s))
  end.
  destruct ((0 <? List.length (prev_masks s0))%nat && is_undo k);
    intros H; injection H as <-.
  - now split.
  - rewrite recursive_adding_order, recursive_removing_order.
    match goal with |- context [fold_left ?f ?o (fold_left ?g ?o ?s1)] =>
      destruct (erase_fold o s1) as [_ Ef];
      destruct (paint_fold o (fold_left g o s1)) as [_ Pf];
      pose proof (only_mask_changed_trans _ _ _ Ef Pf) as F
    end.
    destruct F as (_ & _ & Fc & _ & Fi & _).
    rewrite Fc, Fi. unfold remove_mezo_from_viewer.
    destruct (circle_of r) as [[x y] radius]. now split.
Qed.

Lemma last_default {A} (l : list A) d1 d2 : l <> [] -> last l d1 = last l d2.
Proof.
  induction l as [|a l IH]; intros H; [contradiction|].
  destruct l as [|b l]; [reflexivity|]. cbn [last] in *. apply IH. discriminate.
Qed.

(** A deletion with the Remove tool is not part of the undo history: when
    snapshots exist and annotations remain, the Ctrl+Z that follows it
    deletes the newest remaining record and puts back the last snapshot
    taken before the deletion, whatever the deletion did to the mask. *)
Theorem undo_ignores_removal (s s1 : session) (coord : Z * Z) :
  mirrors_store s -> current_coord s = None -> prev_masks s <> [] ->
  remove_tool coord s = Some s1 ->
  db_select_image (image_id s) (db s1) <> [] ->
  exists s2 victim,
    on_keyboard "Z" true s1 = Some s2 /\
    db_select_last (image_id s) (db s1) = Some victim /\
    db s2 = db_delete (mezo_id victim) (db s1) /\
    mask s2 = last (prev_masks s) (mask s) /\
    prev_masks s2 = removelast (prev_masks s).
Proof.
  intros Hm Hc Hp H Hne.
  pose proof (remove_tool_history _ _ _ H) as Hprev.
  destruct coord as [x y]. unfold remove_tool in H.
  destruct (mezo_data s) as [data|] eqn:Ed; [|discriminate H].
  destruct (remove_mezo_coord _ _ _ H) as [Hc1 Hi1].
  assert (Hm1 : mirrors_store s1).
  { eapply remove_mezo_mirrors; [exact H|]. unfold mirrors_store. congruence. }
  unfold mirrors_store in Hm1. rewrite Hi1 in Hm1.
  destruct (db_select_last_some _ _ Hne) as (victim & Ev & _).
  rewrite on_keyboard_ctrl_z, Hm1, Hc1, Hc.
  destruct (db_select_image (image_id s) (db s1)) as [|r0 rows] eqn:Erows;
    [contradiction|].
  unfold remove_mezo, fetch_mezo. cbn [key_falsy]. rewrite Hi1, Ev.
  cbn [get_mezo_data set_db set_mezo_data prev_masks db image_id].
  rewrite Hprev.
  destruct (prev_masks s) as [|m p] eqn:Ep; [contradiction|].
  cbn [List.length Nat.ltb Nat.leb is_undo andb].
  eexists. exists victim. split; [reflexivity|].
  split; [reflexivity|]. split; [reflexivity|].
  split; [|reflexivity].
  cbn [mask save_mask]. apply last_default. discriminate.
Qed.

Lemma undo_ignores_removal_witness :
  exists s1 s2,
    remove_tool (20, 20)%Z removing = Some s1 /\
    on_keyboard "Z" true s1 = Some s2 /\
    mask s2 = last (prev_masks removing) (mask removing) /\
    mezo_table (db s2) = [].
Proof.
  assert (L : option_map (fun x => List.length (db_select_image 1 (db x)))
                (remove_tool (20, 20)%Z removing) = Some 1%nat)
    by (vm_compute; reflexivity).
  assert (L' : option_map (fun x => List.length (mezo_table (db x)))
                (remove_tool (20, 20)%Z removing) = Some 1%nat)
    by (vm_compute; reflexivity).
  destruct (remove_tool (20, 20)%Z removing) as [s1|] eqn:E;
    [|discriminate L].
  cbn [option_map] in L, L'. injection L as L. injection L' as L'.
  destruct (undo_ignores_removal removing s1 (20, 20)%Z) as (s2 & victim & H).
  - unfold mirrors_store. vm_compute. reflexivity.
  - vm_compute. reflexivity.
  - intros E0. apply (f_equal (@List.length _)) in E0. vm_compute in E0.
    discriminate E0.
  - exact E.
  - change (image_id removing) with 1%Z. intros E0. rewrite E0 in L.
    discriminate L.
  - exists s1, s2. destruct H as (H1 & H2 & H3 & H4 & _).
    split; [reflexivity|]. split; [exact H1|]. split; [exact H4|].
    rewrite H3. cbn [db_delete mezo_table].
    destruct (mezo_table (db s1)) as [|r [|r' t]] eqn:Et; try discriminate L'.
    unfold db_select_last, db_select_image in H2. rewrite Et in H2.
    cbn [filter] in H2. destruct (row_image_id r =? image_id removing)%Z;
      cbn [fold_left] in H2; [|discriminate H2].
    injection H2 as <-. cbn [filter]. now rewrite Z.eqb_refl.
Defined.

(** ** Rounding, the click mapping and the fit to the window *)

Lemma py_round_spec x :
  inject_Z (py_round x) - (1 # 2) <= x /\ x <= inject_Z (py_round x) + (1 # 2).
Proof.
  unfold py_round.
  pose proof (Qfloor_le x) as Hlo. pose proof (Qlt_floor x) as Hhi.
  rewrite inject_Z_plus in Hhi. change (inject_Z 1) with 1 in Hhi.
  destruct (py_ltb (x - inject_Z (Qfloor x)) (1 # 2)) eqn:E1.
  { apply py_ltb_lt in E1. lra. }
  apply py_ltb_ge in E1.
  destruct (py_ltb (1 # 2) (x - inject_Z (Qfloor x))) eqn:E2.
  { rewrite inject_Z_plus. change (inject_Z 1) with 1. lra. }
  apply py_ltb_ge in E2.
  destruct (Z.even (Qfloor x)).
  - lra.
  - rewrite inject_Z_plus. change (inject_Z 1) with 1. lra.
Qed.

Lemma py_round_near x (z : Z) :
  inject_Z z - (1 # 2) < x -> x < inject_Z z + (1 # 2) -> py_round x = z.
Proof.
  intros Hlo Hhi. destruct (py_round_spec x) as [Rlo Rhi].
  assert (H1 : inject_Z (py_round x) < inject_Z z + 1) by lra.
  assert (H2 : inject_Z z < inject_Z (py_round x) + 1) by lra.
  change 1 with (inject_Z 1) in H1, H2. rewrite <- inject_Z_plus in H1, H2.
  rewrite <- Zlt_Qlt in H1, H2. lia.
Qed.

Lemma py_round_nonneg x : 0 <= x -> (0 <= py_round x)%Z.
Proof.
  intros H. destruct (py_round_spec x) as [_ Rhi].
  assert (H1 : inject_Z (-1) < inject_Z (py_round x)).
  { change (inject_Z (-1)) with (-1 # 1). lra. }
  rewrite <- Zlt_Qlt in H1. lia.
Qed.

Lemma py_eqb_eq a b : py_eqb a b = true <-> a == b.
Proof. apply Qeq_bool_iff. Qed.

Lemma py_min_spec a b :
  py_min a b <= a /\ py_min a b <= b /\ (py_min a b = a \/ py_min a b = b).
Proof.
  unfold py_min. destruct (py_ltb b a) eqn:E.
  - apply py_ltb_lt in E. repeat split; try lra. now right.
  - apply py_ltb_ge in E. repeat split; try lra. now left.
Qed.

(** At the largest viewer scale no click reaches a tool: when the viewer
    scale is 15 and no pan is pending, a gesture that starts and ends
    without an update only sets the status message to "scale limit has been
    reached"; the store, the mask, the history and the tool state stay as
    they are, whatever tool is selected. *)
Theorem taps_ignored_at_scale_limit (s : session) (x y : Q) :
  image_size (view s) <> None ->
  move (view s) = None ->
  viewer_scale (view s) == 15 ->
  run (tap x y) s =
  update_status_message (Msg "scale limit has been reached")
    (set_view (viewer_interaction_start (x, y) (view s)) s).
Proof.
  intros Hsize Hmove Hscale.
  unfold run, tap. cbn [fold_left]. unfold step at 2. cbn [handle].
  unfold step. cbn [handle]. unfold viewer_interaction_end.
  cbn [view set_view image_size move scale viewer_interaction_start].
  destruct (image_size (view s)); [|contradiction].
  rewrite Hmove.
  assert (El : scale_limit (viewer_interaction_start (x, y) (view s)) = true).
  { unfold scale_limit. cbn [start_scale viewer_scale viewer_interaction_start].
    apply py_eqb_eq in Hscale. now rewrite Hscale. }
  rewrite El. now destruct (scale (view s)).
Qed.

Lemma taps_ignored_at_scale_limit_witness :
  run (tap 100 100) full_zoom =
  update_status_message (Msg "scale limit has been reached")
    (set_view (viewer_interaction_start (100, 100) (view full_zoom)) full_zoom).
Proof.
  apply taps_ignored_at_scale_limit.
  - vm_compute. discriminate.
  - vm_compute. reflexivity.
  - vm_compute. reflexivity.
Defined.

Lemma pending_scale_gesture (s : session) (x y sc : Q) (o : offset) :
  image_size (view s) <> None ->
  move (view s) = None ->
  scale (view s) = Some sc ->
  viewer_offset (view s) = Some o ->
  ~ viewer_scale (view s) == 15 ->
  exists v',
    run (tap x y) s = set_status_if_no_tool (Msg "scaling") (set_view v' s) /\
    scale v' = None /\ move v' = None /\
    viewer_scale v' = viewer_scale (view s) /\
    image_size v' = image_size (view s).
Proof.
  intros Hsize Hmove Hsc Ho Hscale.
  unfold run, tap. cbn [fold_left]. unfold step at 2. cbn [handle].
  unfold step. cbn [handle]. unfold viewer_interaction_end.
  cbn [view set_view image_size move scale viewer_interaction_start].
  destruct (image_size (view s)) eqn:Es; [|contradiction].
  rewrite Hmove, Hsc.
  assert (El : scale_limit (viewer_interaction_start (x, y) (view s)) = false).
  { unfold scale_limit. cbn [start_scale viewer_scale viewer_interaction_start].
    destruct (py_eqb (viewer_scale (view s)) 15) eqn:E; [|reflexivity].
    apply py_eqb_eq in E. contradiction. }
  rewrite El. unfold end_scaling.
  cbn [image_scale window_scale start_offset viewer_offset viewer_interaction_start].
  rewrite Ho.
  destruct (py_eqb (py_round5 (image_scale (view s))) (py_round5 (window_scale (view s))));
    repeat match goal with
           | |- context [clamp_axis ?a ?b ?c ?d ?e ?f ?g] =>
             destruct (clamp_axis a b c d e f g) as [[? ?] ?]
           end;
    cbn [bind]; eexists; (split; [reflexivity|]);
    cbn [scale move viewer_scale image_size with_reconciled viewer_interaction_start];
    auto.
Qed.

Lemma window_resized_pending w h v :
  image_size v <> None -> viewer_scale v < 15 ->
  let v0 := window_resized w h v in
  image_size v0 = image_size v /\ move v0 = move v /\
  (exists sc, scale v0 = Some sc) /\ (exists o, viewer_offset v0 = Some o) /\
  ~ viewer_scale v0 == 15.
Proof.
  intros Hsize Hscale. unfold window_resized, update_scale.
  cbn [image_size viewer_size viewer_scale viewer_offset margin move].
  destruct (image_size v) as [[iw ih]|]; [|contradiction].
  cbn [image_size move scale viewer_offset viewer_scale].
  split; [reflexivity|]. split; [reflexivity|]. split; [eauto|]. split.
  - destruct (viewer_offset v); eauto.
  - unfold py_max, py_min.
    destruct (py_ltb (viewer_scale v * 1) 15) eqn:E15.
    + apply py_ltb_lt in E15.
      destruct (py_ltb 1 (viewer_scale v * 1)); lra.
    + apply py_ltb_ge in E15. lra.
Qed.

Lemma change_tool_frame i s s' :
  change_tool i s = Some s' ->
  tool s' = nth_error tools i /\ current_coord s' = None /\
  view s' = view s /\ db s' = db s /\ mask s' = mask s /\
  prev_masks s' = prev_masks s /\ mezo_data s' = mezo_data s /\
  image_id s' = image_id s.
Proof.
  unfold change_tool. destruct (nth_error tools i) as [t|]; [|discriminate].
  unfold drop_current_coord, sam_init.
  destruct t; cbn [set_tool current_coord]; destruct (current_coord s) eqn:Ec;
    cbn [set_tool set_current_coord sam_model]; try destruct (sam_model s);
    intros H; injection H as <-; repeat split; exact Ec.
Qed.

(** [update_scale] leaves the key ['scale'] in the session, so the first
    gesture after a resize of the window, and the first one after an image
    was opened and a tool selected, is reconciled as a zoom and does not
    reach the tool: the session only gets a new viewport (and the message
    "scaling" when no tool is selected); no record is created, no centre is
    set and the mask is untouched.  The key is removed by that gesture. *)
Theorem gesture_after_resize_is_zoom :
  (forall s w h x y,
     image_size (view s) <> None -> move (view s) = None ->
     viewer_scale (view s) < 15 ->
     exists v',
       run (Window_resize w h :: tap x y) s
       = set_status_if_no_tool (Msg "scaling") (set_view v' s) /\
       scale v' = None /\ move v' = None) /\
  (forall s f w h i x y,
     move (view s) = None -> (i < 3)%nat ->
     let s1 := run (Open_image f w h :: Toolbar_change i :: tap x y) s in
     tool s1 = nth_error tools i /\ current_coord s1 = None /\
     db s1 = db s /\ mask s1 = mask (open_image f w h s) /\
     prev_masks s1 = [] /\ scale (view s1) = None /\ move (view s1) = None).
Proof.
  split.
  - intros s w h x y Hsize Hmove Hscale.
    destruct (window_resized_pending w h (view s) Hsize Hscale)
      as (Es & Em & (sc & Esc) & (o & Eo) & Hlim).
    change (run (Window_resize w h :: tap x y) s)
      with (run (tap x y) (set_view (window_resized w h (view s)) s)).
    destruct (pending_scale_gesture
                (set_view (window_resized w h (view s)) s) x y sc o)
      as (v' & E & Hs & Hm & _); cbn [view set_view];
      try assumption; try congruence.
    exists v'. split; [exact E|]. now split.
  - intros s f w h i x y Hmove Hi s1.
    destruct (change_tool i (open_image f w h s)) as [s2|] eqn:E2.
    2:{ exfalso. revert E2. now apply change_tool_returns. }
    assert (Es1 : s1 = run (tap x y) s2).
    { assert (E : step (Toolbar_change i) (open_image f w h s) = s2)
        by (unfold step; cbn [handle]; now rewrite E2).
      rewrite <- E. reflexivity. }
    destruct (change_tool_frame _ _ _ E2)
      as (Ft & Fc & Fv & Fdb & Fm & Fp & _).
    destruct (window_resized_pending w h
                (set_image_size (file_size f) (set_view_scale 1 true (view s))))
      as (Es & Em & (sc & Esc) & (o & Eo) & Hlim).
    { discriminate. }
    { cbn [viewer_scale set_image_size set_view_scale]. lra. }
    destruct (pending_scale_gesture s2 x y sc o) as (v' & E & Hs & Hm & _);
      rewrite ?Fv; cbn [view open_image]; try assumption.
    { rewrite Es. discriminate. }
    { rewrite Em. exact Hmove. }
    rewrite Es1, E. unfold set_status_if_no_tool. cbn [tool set_view].
    rewrite Ft. destruct (nth_error tools i) eqn:Et.
    + cbn [tool current_coord db mask prev_masks view set_view].
      rewrite Fc, Fdb, Fm, Fp. now repeat split.
    + apply nth_error_None in Et. cbn [tools List.length] in Et. lia.
Qed.

Lemma gesture_after_resize_is_zoom_witness :
  exists v',
    run (Window_resize 1000 800 :: tap 50 50) ready
    = set_status_if_no_tool (Msg "scaling") (set_view v' ready) /\
    scale v' = None /\ move v' = None.
Proof.
  destruct gesture_after_resize_is_zoom as [H _].
  apply H.
  - vm_compute. discriminate.
  - vm_compute. reflexivity.
  - vm_compute. reflexivity.
Defined.

(** ** The centre indicator *)

Lemma markers_untouched s s' :
  current_coord s' = current_coord s -> center_markers s' = center_markers s ->
  markers_match s -> markers_match s'.
Proof. unfold markers_match. now intros -> ->. Qed.

Lemma drop_current_coord_markers s :
  markers_match s -> markers_match (drop_current_coord s).
Proof.
  unfold markers_match, drop_current_coord.
  destruct (current_coord s) eqn:E; cbn [current_coord center_markers set_current_coord].
  - now intros ->.
  - now rewrite E.
Qed.

Lemma remove_mezo_markers k s s' :
  remove_mezo k s = Some s' -> markers_match s -> markers_match s'.
Proof.
  unfold remove_mezo. destruct (key_falsy k).
  { intros H. now injection H as <-. }
  destruct (fetch_mezo k s) as [r|]; [|discriminate].
  unfold get_mezo_data. cbv zeta.
  match goal with |- context [set_mezo_data ?a (set_db ?b s)] =>
    set (s0 := set_mezo_data a (set_db b s))
  end.
  destruct ((0 <? List.length (prev_masks s0))%nat && is_undo k);
    intros H; injection H as <-.
  - now apply markers_untouched.
  - rewrite recursive_adding_order, recursive_removing_order.
    match goal with |- context [fold_left ?f ?o (fold_left ?g ?o ?s1)] =>
      destruct (erase_fold o s1) as [_ Ef];
      destruct (paint_fold o (fold_left g o s1)) as [_ Pf];
      pose proof (only_mask_changed_trans _ _ _ Ef Pf) as F
    end.
    destruct F as (_ & _ & Fc & Fk & _).
    apply markers_untouched; rewrite ?Fc, ?Fk; unfold remove_mezo_from_viewer;
      destruct (circle_of r) as [[x y] radius]; reflexivity.
Qed.

Lemma magic_select_markers coord s s' :
  magic_select coord s = Some s' -> markers_match s -> markers_match s'.
Proof.
  unfold magic_select. destruct (sam_model s) as [pr|]; [|discriminate].
  destruct (pr coord) as [[x y] radius]. intros H. injection H as <-.
  now apply markers_untouched.
Qed.

Lemma manual_select_markers coord s :
  markers_match s -> markers_match (manual_select coord s).
Proof.
  destruct coord as [x y]. unfold manual_select, markers_match.
  destruct (current_coord s) as [[x0 y0]|];
    cbn [current_coord center_markers update_status_message add_mezo_to_viewer
         add_mezo_to_db get_mezo_data set_mezo_data set_db save_mask
         set_prev_masks set_current_coord];
    now intros ->.
Qed.

Lemma change_tool_markers i s s' :
  change_tool i s = Some s' -> markers_match s -> markers_match s'.
Proof.
  unfold change_tool. destruct (nth_error tools i) as [t|]; [|discriminate].
  intros H Hm.
  assert (H0 : markers_match (drop_current_coord (set_tool (Some t) s))).
  { apply drop_current_coord_markers. now apply (markers_untouched s). }
  unfold sam_init in H.
  destruct t; try destruct (sam_model _); injection H as <-;
    revert H0; now apply markers_untouched.
Qed.

Lemma on_keyboard_markers k c s s' :
  on_keyboard k c s = Some s' -> markers_match s -> markers_match s'.
Proof.
  unfold on_keyboard. intros H Hm.
  match type of H with bind ?c1 _ = _ =>
    destruct c1 as [s1|] eqn:E1; [|discriminate H];
    assert (V1 : markers_match s1)
  end.
  { destruct (String.eqb k "Escape"); [|now injection E1 as <-].
    destruct (current_coord s) eqn:Ec; injection E1 as <-.
    - now apply drop_current_coord_markers.
    - revert Hm. now apply markers_untouched. }
  cbn [bind] in H.
  match type of H with bind ?c1 _ = _ =>
    destruct c1 as [s2|] eqn:E2; [|discriminate H];
    assert (V2 : markers_match s2)
  end.
  { destruct (String.eqb k "1"); [now apply change_tool_markers in E2|].
    now injection E2 as <-. }
  cbn [bind] in H.
  match type of H with bind ?c1 _ = _ =>
    destruct c1 as [s3|] eqn:E3; [|discriminate H];
    assert (V3 : markers_match s3)
  end.
  { destruct (String.eqb k "2"); [now apply change_tool_markers in E3|].
    now injection E3 as <-. }
  cbn [bind] in H.
  match type of H with bind ?c1 _ = _ =>
    destruct c1 as [s4|] eqn:E4; [|discriminate H];
    assert (V4 : markers_match s4)
  end.
  { destruct (String.eqb k "3"); [now apply change_tool_markers in E4|].
    now injection E4 as <-. }
  cbn [bind] in H.
  destruct (String.eqb k "Z" && c).
  - match type of H with (if ?b then _ else _) = _ => destruct b end.
    + now apply remove_mezo_markers in H.
    + now injection H as <-.
  - now injection H as <-.
Qed.

Lemma set_status_if_no_tool_markers m s :
  markers_match s -> markers_match (set_status_if_no_tool m s).
Proof. unfold set_status_if_no_tool. now destruct (tool s). Qed.

Lemma viewer_interaction_end_markers s s' :
  viewer_interaction_end s = Some s' -> markers_match s -> markers_match s'.
Proof.
  unfold viewer_interaction_end. intros H Hm.
  destruct (image_size (view s)); [|discriminate H].
  destruct (move (view s)) as [mv|].
  { destruct (end_moving mv (view s)) as [v'|]; [|discriminate H].
    cbn [bind] in H. injection H as <-.
    now apply set_status_if_no_tool_markers. }
  assert (Hclick :
    (if scale_limit (view s)
     then Some (update_status_message (Msg "scale limit has been reached") s)
     else coord <- click_coord (view s) ;;
          match tool s with
          | None => Some (update_status_message (Msg_click (fst coord) (snd coord)) s)
          | Some Magic_select => magic_select coord s
          | Some Manual_select => Some (manual_select coord s)
          | Some Remove_tool => remove_tool coord s
          end) = Some s' ->
    markers_match s').
  { clear H. intros H. destruct (scale_limit (view s)).
    - now injection H as <-.
    - destruct (click_coord (view s)) as [coord|]; [|discriminate H].
      cbn [bind] in H. destruct (tool s) as [[| |]|].
      + now apply magic_select_markers in H.
      + injection H as <-. now apply manual_select_markers.
      + destruct coord as [x y]. unfold remove_tool in H.
        destruct (mezo_data s); [|discriminate H].
        now apply remove_mezo_markers in H.
      + now injection H as <-. }
  destruct (scale (view s)) as [sc|]; [|exact (Hclick H)].
  destruct (scale_limit (view s)) eqn:El; [exact (Hclick H)|].
  destruct (end_scaling sc (view s)) as [v'|]; [|discriminate H].
  cbn [bind] in H. injection H as <-.
  now apply set_status_if_no_tool_markers.
Qed.

Lemma step_markers e s : markers_match s -> markers_match (step e s).
Proof.
  intros Hm. unfold step. destruct (handle e s) as [s'|] eqn:E; [|exact Hm].
  destruct e; cbn [handle] in E;
    try (injection E as <-; exact Hm).
  - now apply viewer_interaction_end_markers in E.
  - now apply on_keyboard_markers in E.
  - now apply change_tool_markers in E.
  - injection E as <-. reflexivity.
Qed.

(** Once an image is open, after every sequence of events the canvas stack
    holds exactly the indicator of the pending centre while a centre of
    Manual select is pending, and no indicator otherwise; so the deletion
    of the last control of the stack, wherever the code performs it, always
    removes a centre indicator. *)
Theorem one_centre_marker (f : image_file) (w h : Q) (s : session)
  (es : list event) :
  markers_match (run es (open_image f w h s)).
Proof.
  assert (H : markers_match (open_image f w h s)) by reflexivity.
  revert H. generalize (open_image f w h s). unfold run.
  induction es as [|e es IH]; intros s0 H; cbn [fold_left]; [exact H|].
  apply IH, step_markers, H.
Qed.

(** ** Navigation between the images of a sample *)

Lemma image_at_some i images :
  (0 <= i < Z.of_nat (List.length images))%Z -> exists f, image_at i images = Some f.
Proof.
  intros H. unfold image_at.
  destruct (Z.ltb_spec i 0); [lia|].
  destruct (nth_error images (Z.to_nat i)) as [f|] eqn:E; [eauto|].
  apply nth_error_None in E. lia.
Qed.

Lemma arrow_styling_match i count :
  let '(l, r) := arrow_styling i count in
  disabled l = (i =? 0)%Z /\
  disabled r = negb (i =? 0)%Z && (i =? count - 1)%Z /\
  icon_color l = (if disabled l then primary ++ ",0.25" else primary)%string /\
  icon_color r = (if disabled r then primary ++ ",0.25" else primary)%string.
Proof.
  unfold arrow_styling. destruct (i =? 0)%Z; [now repeat split|].
  destruct (i =? count - 1)%Z; now repeat split.
Qed.

Lemma go_to_image_wf i n :
  sample_count n = Z.of_nat (List.length (sample_images n)) ->
  (0 <= i < sample_count n)%Z ->
  exists n' f,
    go_to_image i n = Some n' /\ nav_wf n' /\
    image_at i (sample_images n) = Some f /\
    image_index n' = i /\
    sample_count n' = sample_count n /\ sample_images n' = sample_images n /\
    page_size n' = page_size n /\
    editor n' = open_image f (fst (page_size n)) (snd (page_size n)) (editor n).
Proof.
  intros Hc Hi. unfold go_to_image.
  pose proof (arrow_styling_match i (sample_count n)) as Ha.
  destruct (arrow_styling i (sample_count n)) as [l r].
  destruct (image_at_some i (sample_images n)) as [f Ef]; [lia|].
  rewrite Ef. cbn [bind]. eexists. exists f. split; [reflexivity|].
  split; [|now repeat split].
  unfold nav_wf, arrows_match.
  cbn [sample_count sample_images image_index left_arrow right_arrow editor].
  split; [exact Hc|]. split; [exact Hi|]. split; [exact Ha|].
  exists f. now split.
Qed.

Lemma nav_handle_wf e n :
  nav_wf n ->
  (forall es, e = Editing es -> forallb (fun e => negb (opens_image e)) es = true) ->
  exists n',
    nav_handle e n = Some n' /\ nav_wf n' /\
    sample_count n' = sample_count n /\ sample_images n' = sample_images n.
Proof.
  intros Hwf He. pose proof Hwf as (Hc & Hi & Ha & f & Ef & Eid).
  destruct e as [| |es]; cbn [nav_handle].
  - unfold previous_image. destruct (Z.ltb_spec 0 (image_index n)).
    + destruct (go_to_image_wf (image_index n - 1) n Hc) as (n' & f' & E & W & _ & _ & C & I & _);
        [lia|]. now exists n'.
    + exists n. split; [reflexivity|]. split; [exact Hwf|]. now split.
  - unfold next_image. destruct (Z.ltb_spec (image_index n) (sample_count n - 1)).
    + destruct (go_to_image_wf (image_index n + 1) n Hc) as (n' & f' & E & W & _ & _ & C & I & _);
        [lia|]. now exists n'.
    + exists n. split; [reflexivity|]. split; [exact Hwf|]. now split.
  - eexists. split; [reflexivity|]. split; [|now split].
    unfold nav_wf, arrows_match.
    cbn [sample_count sample_images image_index left_arrow right_arrow editor set_editor].
    split; [exact Hc|]. split; [exact Hi|]. split; [exact Ha|].
    exists f. split; [exact Ef|].
    destruct (run_same_image es (editor n) (He es eq_refl)) as (Ei & _).
    congruence.
Qed.

Lemma nav_run_wf es :
  forall n,
    nav_wf n -> Forall edits_only es ->
    exists n',
      nav_run es n = Some n' /\ nav_wf n' /\
      sample_count n' = sample_count n /\ sample_images n' = sample_images n.
Proof.
  induction es as [|e es IH]; intros n Hn Hes; cbn [nav_run].
  - exists n. split; [reflexivity|]. split; [exact Hn|]. now split.
  - inversion Hes as [|e' es' He Hes']; subst.
    destruct (nav_handle_wf e n Hn) as (n1 & E1 & W1 & C1 & I1).
    { intros es0 ->. exact He. }
    rewrite E1. cbn [bind].
    destruct (IH n1 W1 Hes') as (n' & E & W & C & I).
    exists n'. split; [exact E|]. split; [exact W|]. split; congruence.
Qed.

Lemma nav_start_wf count images page f s :
  count = Z.of_nat (List.length images) ->
  image_at 0 images = Some f ->
  nav_wf (nav_start count images page f s).
Proof.
  intros Hc Hf. unfold nav_wf, arrows_match, nav_start.
  cbn [sample_count sample_images image_index left_arrow right_arrow editor
       disabled icon_color].
  split; [exact Hc|]. split.
  - unfold image_at in Hf. cbn in Hf. destruct images; [discriminate Hf|].
    cbn [List.length] in Hc. lia.
  - split; [now repeat split|]. exists f. now split.
Qed.

(** Navigation keeps the image index inside the sample: the editor starts
    well formed (index 0 of a non-empty sample, left arrow disabled, right
    arrow enabled), and from a well-formed state no click on an arrow
    raises and every sequence of arrow clicks and editor events leads to a
    well-formed state again: the index lies in [0, count - 1], the image of
    that index is the open one, the left arrow is disabled exactly at index
    0 and the right one exactly at the last index when that is not 0 (on a
    sample of one image the right arrow stays enabled), with the faded
    colour exactly on a disabled arrow.  A click on Previous at index 0 and a
    click on Next at the last index change nothing. *)
Theorem navigation_stays_in_range :
  (forall count images page f s,
     count = Z.of_nat (List.length images) ->
     image_at 0 images = Some f ->
     nav_wf (nav_start count images page f s)) /\
  (forall es n,
     nav_wf n -> Forall edits_only es ->
     exists n',
       nav_run es n = Some n' /\ nav_wf n' /\
       sample_count n' = sample_count n /\ sample_images n' = sample_images n) /\
  (forall n, nav_wf n -> image_index n = 0%Z -> previous_image n = Some n) /\
  (forall n, nav_wf n -> image_index n = (sample_count n - 1)%Z ->
             next_image n = Some n).
Proof.
  split; [exact nav_start_wf|]. split; [exact nav_run_wf|]. split.
  - intros n _ E. unfold previous_image. now rewrite E.
  - intros n _ E. unfold next_image. rewrite E. now rewrite Z.ltb_irrefl.
Qed.

Lemma navigation_stays_in_range_witness :
  nav_wf two_images /\
  exists n',
    nav_run [Next_click; Next_click; Editing (tap 0 0); Previous_click] two_images
    = Some n' /\ nav_wf n'.
Proof.
  destruct navigation_stays_in_range as (Hstart & Hrun & _).
  assert (Hwf : nav_wf two_images).
  { apply Hstart; reflexivity. }
  split; [exact Hwf|].
  destruct (Hrun [Next_click; Next_click; Editing (tap 0 0); Previous_click]
              two_images Hwf) as (n' & E & W & _).
  - repeat constructor.
  - exists n'. split; [exact E | exact W].
Defined.

(** Going to the next image, editing it and coming back shows the image
    left before with its mask as it was: the index, the arrows, the image
    id and the mask are the ones before the excursion; the undo history is
    empty and no tool is selected. *)
Theorem next_then_previous_restores (n : navigator) (es : list event) :
  nav_wf n ->
  (image_index n < sample_count n - 1)%Z ->
  mask_saved (editor n) ->
  forallb (fun e => negb (opens_image e)) es = true ->
  (forall f1 f2,
     image_at (image_index n) (sample_images n) = Some f1 ->
     image_at (image_index n + 1) (sample_images n) = Some f2 ->
     file_image_id f1 <> file_image_id f2) ->
  exists n',
    nav_run [Next_click; Editing es; Previous_click] n = Some n' /\
    image_index n' = image_index n /\
    left_arrow n' = left_arrow n /\ right_arrow n' = right_arrow n /\
    image_id (editor n') = image_id (editor n) /\
    mask (editor n') = mask (editor n) /\
    prev_masks (editor n') = [] /\ tool (editor n') = None.
Proof.
  intros Hwf Hlt Hsaved Hes Hids.
  pose proof Hwf as (Hc & Hi & Ha & f1 & Ef1 & Eid).
  cbn [nav_run nav_handle]. unfold next_image.
  destruct (Z.ltb_spec (image_index n) (sample_count n - 1)); [|lia].
  destruct (go_to_image_wf (image_index n + 1) n Hc)
    as (n1 & f2 & E1 & W1 & Ef2 & I1 & C1 & S1 & P1 & D1); [lia|].
  rewrite E1. cbn [bind]. unfold previous_image.
  cbn [image_index set_editor]. rewrite I1.
  destruct (Z.ltb_spec 0 (image_index n + 1)); [|lia].
  destruct (go_to_image_wf (image_index n + 1 - 1)
              (set_editor (run es (editor n1)) n1))
    as (n2 & f1' & E2 & W2 & Ef1' & I2 & C2 & S2 & P2 & D2);
    cbn [sample_count sample_images set_editor]; [congruence | lia |].
  cbn [sample_images page_size editor set_editor] in *.
  rewrite E2. cbn [bind].
  replace (image_index n + 1 - 1)%Z with (image_index n) in * by lia.
  rewrite S1 in Ef1'. rewrite Ef1 in Ef1'. injection Ef1' as <-.
  exists n2. split; [reflexivity|]. split; [exact I2|].
  destruct W2 as (_ & _ & A2 & _).
  assert (Harrows : left_arrow n2 = left_arrow n /\ right_arrow n2 = right_arrow n).
  { unfold arrows_match in A2, Ha. rewrite I2, C2 in A2.
    cbn [sample_count set_editor] in A2. rewrite C1 in A2.
    destruct A2 as (A1 & A2 & A3 & A4). destruct Ha as (B1 & B2 & B3 & B4).
    destruct (left_arrow n2) as [d1 c1], (left_arrow n) as [d2 c2],
             (right_arrow n2) as [d3 c3], (right_arrow n) as [d4 c4].
    cbn [disabled icon_color] in *. subst. now split. }
  destruct Harrows as [-> ->]. split; [reflexivity|]. split; [reflexivity|].
  rewrite D2. cbn [image_id mask prev_masks tool open_image].
  split; [now symmetry|]. split; [|now split].
  destruct (run_same_image es (editor n1) Hes) as (Ei & Hfiles & _).
  rewrite Hfiles.
  - rewrite D1. cbn [mask_files open_image]. rewrite <- Eid.
    unfold mask_saved in Hsaved.
    destruct (mask_files (editor n) (image_id (editor n))); now symmetry.
  - rewrite D1. cbn [image_id open_image]. now apply Hids.
Qed.

Lemma next_then_previous_restores_witness :
  exists n',
    nav_run [Next_click;
             Editing (tap 0 0 ++ Keyboard "2" false :: draw_circle 20 20 30 20);
             Previous_click] two_images = Some n' /\
    image_index n' = 0%Z /\ mask (editor n') = mask (editor two_images).
Proof.
  destruct (next_then_previous_restores two_images
              (tap 0 0 ++ Keyboard "2" false :: draw_circle 20 20 30 20))
    as (n' & E & I & _ & _ & _ & M & _).
  - apply nav_start_wf; reflexivity.
  - vm_compute. reflexivity.
  - apply open_image_mask_saved.
  - reflexivity.
  - intros f1 f2 H1 H2. vm_compute in H1, H2.
    injection H1 as <-. injection H2 as <-. cbn [file_image_id]. discriminate.
  - exists n'. split; [exact E|]. split; [exact I | exact M].
Defined.

(** ** What touches the annotations, and handlers that return *)

Lemma annotations_kept_refl s : annotations_kept s s.
Proof. unfold annotations_kept. now repeat split. Qed.

Lemma annotations_kept_trans s1 s2 s3 :
  annotations_kept s1 s2 -> annotations_kept s2 s3 -> annotations_kept s1 s3.
Proof.
  unfold annotations_kept. intros (?&?&?&?&?&?) (?&?&?&?&?&?).
  repeat split; congruence.
Qed.

Lemma change_tool_kept i s s' : change_tool i s = Some s' -> annotations_kept s s'.
Proof.
  unfold change_tool. destruct (nth_error tools i) as [t|]; [|discriminate].
  unfold drop_current_coord, sam_init.
  destruct t; cbn [set_tool current_coord]; destruct (current_coord s);
    cbn [set_tool set_current_coord sam_model]; try destruct (sam_model s);
    intros H; injection H as <-; unfold annotations_kept; now repeat split.
Qed.

Lemma on_keyboard_kept k c s s' :
  on_keyboard k c s = Some s' -> String.eqb k "Z" && c = false ->
  annotations_kept s s'.
Proof.
  unfold on_keyboard. intros H Hz. rewrite Hz in H.
  match type of H with bind ?c1 _ = _ =>
    destruct c1 as [s1|] eqn:E1; [|discriminate H];
    assert (V1 : annotations_kept s s1)
  end.
  { destruct (String.eqb k "Escape");
      [|injection E1 as <-; apply annotations_kept_refl].
    unfold drop_current_coord in E1.
    destruct (current_coord s); injection E1 as <-;
      unfold annotations_kept; now repeat split. }
  cbn [bind] in H.
  match type of H with bind ?c1 _ = _ =>
    destruct c1 as [s2|] eqn:E2; [|discriminate H];
    assert (V2 : annotations_kept s1 s2)
  end.
  { destruct (String.eqb k "1"); [now apply change_tool_kept in E2|].
    injection E2 as <-. apply annotations_kept_refl. }
  cbn [bind] in H.
  match type of H with bind ?c1 _ = _ =>
    destruct c1 as [s3|] eqn:E3; [|discriminate H];
    assert (V3 : annotations_kept s2 s3)
  end.
  { destruct (String.eqb k "2"); [now apply change_tool_kept in E3|].
    injection E3 as <-. apply annotations_kept_refl. }
  cbn [bind] in H.
  match type of H with bind ?c1 _ = _ =>
    destruct c1 as [s4|] eqn:E4; [|discriminate H];
    assert (V4 : annotations_kept s3 s4)
  end.
  { destruct (String.eqb k "3"); [now apply change_tool_kept in E4|].
    injection E4 as <-. apply annotations_kept_refl. }
  cbn [bind] in H. injection H as <-.
  eapply annotations_kept_trans; [exact V1|].
  eapply annotations_kept_trans; [exact V2|].
  eapply annotations_kept_trans; [exact V3 | exact V4].
Qed.

Lemma step_kept e s : may_edit e = false -> annotations_kept s (step e s).
Proof.
  intros He. unfold step. destruct (handle e s) as [s'|] eqn:E;
    [|apply annotations_kept_refl].
  destruct e; cbn [handle may_edit] in *; try discriminate He;
    try (injection E as <-; unfold annotations_kept; now repeat split).
  - now apply on_keyboard_kept in E.
  - now apply change_tool_kept in E.
Qed.

Lemma set_status_if_no_tool_kept m s :
  annotations_kept s (set_status_if_no_tool m s) /\
  current_coord (set_status_if_no_tool m s) = current_coord s.
Proof.
  unfold set_status_if_no_tool.
  destruct (tool s); unfold annotations_kept; now repeat split.
Qed.

(** Only clicks, the undo and the opening of an image touch annotations:
    every sequence of gesture starts and updates, window resizes, viewer
    resets, tool changes and key presses other than Ctrl+Z leaves the
    store, the collection, the mask, the mask files, the undo history and
    the image id as they were; and so does a gesture end that is a pan, a
    zoom or a report of the scale limit, or that finds no tool selected,
    which leaves a pending centre alone too. *)
Theorem only_clicks_and_undo_edit :
  (forall es s,
     forallb (fun e => negb (may_edit e)) es = true ->
     annotations_kept s (run es s)) /\
  (forall s s',
     viewer_interaction_end s = Some s' ->
     move (view s) <> None \/ scale (view s) <> None \/
     scale_limit (view s) = true \/ tool s = None ->
     annotations_kept s s' /\ current_coord s' = current_coord s).
Proof.
  split.
  - unfold run. induction es as [|e es IH]; intros s H; cbn [fold_left].
    + apply annotations_kept_refl.
    + cbn [forallb] in H. apply andb_true_iff in H. destruct H as [He Hes].
      eapply annotations_kept_trans; [|apply IH, Hes].
      apply step_kept. now apply negb_true_iff.
  - intros s s' H Hc. unfold viewer_interaction_end in H.
    destruct (image_size (view s)); [|discriminate H].
    destruct (move (view s)) as [mv|].
    { destruct (end_moving mv (view s)) as [v'|]; [|discriminate H].
      cbn [bind] in H. injection H as <-.
      destruct (set_status_if_no_tool_kept (Msg "moving") (set_view v' s)) as [K C].
      split; [exact K | exact C]. }
    assert (Hlimit : scale_limit (view s) = true ->
              (if scale_limit (view s)
               then Some (update_status_message (Msg "scale limit has been reached") s)
               else coord <- click_coord (view s) ;;
                    match tool s with
                    | None => Some (update_status_message
                                      (Msg_click (fst coord) (snd coord)) s)
                    | Some Magic_select => magic_select coord s
                    | Some Manual_select => Some (manual_select coord s)
                    | Some Remove_tool => remove_tool coord s
                    end) = Some s' ->
              annotations_kept s s' /\ current_coord s' = current_coord s).
    { intros El H'. rewrite El in H'. injection H' as <-.
      unfold annotations_kept; now repeat split. }
    destruct (scale (view s)) as [sc|].
    + destruct (scale_limit (view s)) eqn:El; [now apply Hlimit|].
      destruct (end_scaling sc (view s)) as [v'|]; [|discriminate H].
      cbn [bind] in H. injection H as <-.
      destruct (set_status_if_no_tool_kept (Msg "scaling") (set_view v' s)) as [K C].
      split; [exact K | exact C].
    + destruct Hc as [Hc | [Hc | [Hc | Hc]]]; try contradiction.
      * now apply Hlimit.
      * destruct (scale_limit (view s)) eqn:El; [now apply Hlimit|].
        destruct (click_coord (view s)) as [coord|]; [|discriminate H].
        cbn [bind] in H. rewrite Hc in H. injection H as <-.
        unfold annotations_kept; now repeat split.
Qed.

Lemma only_clicks_and_undo_edit_witness :
  annotations_kept three_circles
    (run [Interaction_start (10, 10); Interaction_update 2 (10, 10);
          Keyboard "Escape" false; Keyboard "3" false; Toolbar_change 0;
          Window_resize 1000 900; Reset_viewer 1000 900] three_circles).
Proof.
  destruct only_clicks_and_undo_edit as [H _]. apply H. reflexivity.
Defined.














(** ** The Remove tool deletes what it hits *)





(** ** Undo of several creations *)

Lemma same_annotations_refl s : same_annotations s s.
Proof. unfold same_annotations. repeat split. lia. Qed.

Lemma manual_select_first x y s :
  current_coord s = None ->
  manual_select (x, y) s
  = update_status_message
      (Msg "Click on the outer point of the mezophase to set the diameter.")
      (set_current_coord (Some (x, y)) (center_markers s ++ [(x, y)]) s).
Proof. intros H. unfold manual_select. now rewrite H. Qed.

Lemma manual_select_second x y x0 y0 s :
  current_coord s = Some (x0, y0) ->
  manual_select (x, y) s
  = let radius :=
      math_sqrt (inject_Z ((x - x0) * (x - x0) + (y - y0) * (y - y0))) in
    update_status_message (Msg "Click on the center of mezophase.")
      (add_mezo_to_viewer (inject_Z x0) (inject_Z y0) radius false
         (add_mezo_to_db (inject_Z x0, inject_Z y0) (radius * 2)
            (set_current_coord None (removelast (center_markers s)) s))).
Proof. intros H. unfold manual_select. now rewrite H. Qed.

Lemma creation_facts center d x y radius s :
  let s1 := add_mezo_to_viewer x y radius false (add_mezo_to_db center d s) in
  let row := mk_mezo_row (mezo_seq (db s) + 1) (image_id s) (fst center)
               (snd center) d ((1 # 4) * math_pi * (d * d)) in
  db s1 = db_insert (image_id s) (fst center) (snd center) d
            ((1 # 4) * math_pi * (d * d)) (db s) /\
  mezo_data s1 = Some (db_select_image (image_id s) (db s) ++ [row]) /\
  prev_masks s1 = push_mask (mask s) (prev_masks s) /\
  current_coord s1 = current_coord s /\
  image_id s1 = image_id s.
Proof.
  cbv zeta. split; [reflexivity|]. split; [|repeat split].
  exact (add_mezo_to_db_data center d s).
Qed.

Lemma create_circle_facts clicks s :
  current_coord s = None ->
  exists row,
    mezo_id row = (mezo_seq (db s) + 1)%Z /\
    row_image_id row = image_id s /\
    db (create_circle clicks s)
    = db_insert (image_id s) (center_x row) (center_y row) (diameter row)
        (square row) (db s) /\
    mezo_data (create_circle clicks s)
    = Some (db_select_image (image_id s) (db s) ++ [row]) /\
    prev_masks (create_circle clicks s) = push_mask (mask s) (prev_masks s) /\
    current_coord (create_circle clicks s) = None /\
    image_id (create_circle clicks s) = image_id s.
Proof.
  intros Hc. destruct clicks as [[x0 y0] [x y]]. unfold create_circle.
  cbn [fst snd]. rewrite (manual_select_first x0 y0 s Hc).
  rewrite (manual_select_second x y x0 y0) by reflexivity. cbv zeta.
  match goal with
  | |- context [add_mezo_to_viewer ?a ?b ?r false (add_mezo_to_db ?c ?d ?s0)] =>
    destruct (creation_facts c d a b r s0) as (F1 & F2 & F3 & F4 & F5);
    cbv zeta in F1, F2, F3, F4, F5;
    set (s1 := add_mezo_to_viewer a b r false (add_mezo_to_db c d s0)) in *
  end.
  cbn [db mezo_data prev_masks current_coord image_id update_status_message].
  rewrite F1, F2, F3, F4, F5.
  eexists (mk_mezo_row _ _ _ _ _ _).
  cbn [mezo_id row_image_id center_x center_y diameter square].
  repeat split.
Qed.

Lemma undo_one (s u : session) (row : mezo_row) (m : image) (p : list image) :
  store_wf (db s) ->
  mezo_table (db u) = mezo_table (db s) ++ [row] ->
  (mezo_seq (db s) <= mezo_seq (db u))%Z ->
  mezo_id row = (mezo_seq (db s) + 1)%Z ->
  row_image_id row = image_id s ->
  image_id u = image_id s ->
  mezo_data u = Some (db_select_image (image_id s) (db s) ++ [row]) ->
  current_coord u = None ->
  prev_masks u = push_mask m p ->
  exists u',
    on_keyboard "Z" true u = Some u' /\
    mezo_table (db u') = mezo_table (db s) /\
    mezo_seq (db u') = mezo_seq (db u) /\
    mezo_data u' = Some (db_select_image (image_id s) (db s)) /\
    mask u' = m /\
    prev_masks u' = removelast (push_mask m p) /\
    current_coord u' = None /\
    image_id u' = image_id s.
Proof.
  intros (_ & Hb & _) Htab Hseq Hid Himg Hi Hdata Hcoord Hprev.
  rewrite on_keyboard_ctrl_z, Hdata, Hcoord.
  destruct (db_select_image (image_id s) (db s) ++ [row]) as [|r0 data] eqn:E.
  { symmetry in E. now apply app_cons_not_nil in E. }
  clear E. unfold remove_mezo, fetch_mezo. cbn [key_falsy].
  destruct (db u) as [tab q] eqn:Edb. cbn [mezo_table mezo_seq] in Htab, Hseq.
  subst tab.
  rewrite Hi, db_select_last_appended; [|exact Himg|].
  2:{ eapply Forall_impl; [|exact Hb]. cbn. intros; lia. }
  cbn [get_mezo_data set_db set_mezo_data prev_masks db image_id].
  rewrite Hprev, push_mask_nonempty. cbn [is_undo andb].
  eexists. split; [reflexivity|].
  assert (Et : filter (fun r => negb (mezo_id r =? mezo_id row)%Z)
                 (mezo_table (db s) ++ [row]) = mezo_table (db s)).
  { rewrite filter_app. cbn [filter]. rewrite Z.eqb_refl. cbn [negb].
    rewrite app_nil_r. apply filter_all.
    eapply Forall_impl; [|exact Hb]. cbn. intros a Ha.
    apply negb_true_iff, Z.eqb_neq. lia. }
  cbn [db mezo_data mask mask_files prev_masks image_id current_coord save_mask
       set_prev_masks get_mezo_data set_mezo_data set_db db_delete mezo_table
       mezo_seq].
  unfold db_select_image. cbn [mezo_table db_delete].
  rewrite Et, push_mask_last. repeat split; assumption.
Qed.

Lemma create_circle_wf clicks s :
  current_coord s = None -> store_wf (db s) -> store_wf (db (create_circle clicks s)).
Proof.
  intros Hc Hwf. destruct (create_circle_facts clicks s Hc)
    as (row & _ & _ & -> & _).
  now apply db_insert_wf.
Qed.

Lemma create_all_facts circles :
  forall s,
    current_coord s = None -> store_wf (db s) ->
    (List.length (prev_masks s) + List.length circles <= 3)%nat ->
    current_coord (create_all circles s) = None /\
    store_wf (db (create_all circles s)) /\
    image_id (create_all circles s) = image_id s /\
    List.length (prev_masks (create_all circles s))
    = (List.length (prev_masks s) + List.length circles)%nat.
Proof.
  unfold create_all.
  induction circles as [|c circles IH]; intros s Hc Hwf Hlen; cbn [fold_left].
  - split; [exact Hc|]. split; [exact Hwf|]. split; [reflexivity|].
    cbn [List.length]. lia.
  - cbn [List.length] in Hlen.
    destruct (create_circle_facts c s Hc)
      as (row & _ & _ & _ & _ & Hp & Hc1 & Hi1).
    assert (Hl : List.length (prev_masks (create_circle c s))
                 = S (List.length (prev_masks s))).
    { rewrite Hp. destruct (push_mask_cases (mask s) (prev_masks s)) as [H1 _].
      rewrite H1 by lia. rewrite length_app. cbn [List.length]. lia. }
    destruct (IH (create_circle c s) Hc1 (create_circle_wf c s Hc Hwf))
      as (H1 & H2 & H3 & H4); [lia|].
    split; [exact H1|]. split; [exact H2|]. split; [congruence|].
    rewrite H4, Hl. cbn [List.length]. lia.
Qed.

Lemma undo_all circles :
  forall s u,
    mirrors_store s -> current_coord s = None -> store_wf (db s) ->
    (List.length (prev_masks s) + List.length circles <= 3)%nat ->
    same_annotations (create_all circles s) u ->
    exists u',
      undo_times (List.length circles) u = Some u' /\ same_annotations s u'.
Proof.
  induction circles as [|c circles IH] using rev_ind; intros s u Hm Hc Hwf Hlen Hu.
  - exists u. split; [reflexivity | exact Hu].
  - rewrite length_app in *. cbn [List.length] in *.
    rewrite Nat.add_1_r. cbn [undo_times].
    unfold create_all in Hu. rewrite fold_left_app in Hu. cbn [fold_left] in Hu.
    fold (create_all circles s) in Hu.
    destruct (create_all_facts circles s Hc Hwf) as (Tc & Twf & Ti & Tl); [lia|].
    set (t := create_all circles s) in *.
    destruct (create_circle_facts c t Tc)
      as (row & Fid & Fimg & Fdb & Fdata & Fprev & Fcoord & Fi).
    assert (Ftab : mezo_table (db (create_circle c t)) = mezo_table (db t) ++ [row]).
    { rewrite Fdb. unfold db_insert. cbn [mezo_table]. rewrite <- Fid.
      rewrite <- Fimg. now destruct row. }
    assert (Fseq : mezo_seq (db (create_circle c t)) = (mezo_seq (db t) + 1)%Z).
    { now rewrite Fdb. }
    destruct Hu as (Utab & Useq & Udata & Umask & Uprev & Ucoord & Ui).
    destruct (undo_one t u row (mask t) (prev_masks t))
      as (u1 & E1 & Vtab & Vseq & Vdata & Vmask & Vprev & Vcoord & Vi);
      try congruence.
    { lia. }
    rewrite E1. cbn [bind].
    assert (Hmt : mezo_data t = Some (db_select_image (image_id t) (db t))).
    { destruct circles as [|c0 circles0] using rev_ind.
      - exact Hm.
      - unfold t, create_all. rewrite fold_left_app. cbn [fold_left].
        fold (create_all circles0 s).
        destruct c0 as [c1 c2]. unfold create_circle. cbn [fst snd].
        apply manual_select_mirrors. apply manual_select_mirrors.
        clear -Hm. revert s Hm. unfold create_all.
        induction circles0 as [|c circles0 IH]; intros s Hm; cbn [fold_left];
          [exact Hm|].
        apply IH. destruct c as [c1 c2]. unfold create_circle. cbn [fst snd].
        apply manual_select_mirrors. now apply manual_select_mirrors. }
    apply (IH s u1 Hm Hc Hwf); [lia|].
    unfold same_annotations. fold t.
    split; [exact Vtab|]. split; [lia|]. split; [congruence|].
    split; [exact Vmask|]. split.
    { rewrite Vprev. destruct (removelast_push_mask (mask t) (prev_masks t)) as [H1 _].
      apply H1. lia. }
    split; [congruence | exact Vi].
Qed.

(** The undo history takes back up to three creations: when circles are
    drawn with Manual select in a session that mirrors a well-formed store
    and has no centre pending, and the history has room for their
    snapshots (at most three in all), pressing Ctrl+Z once for each circle
    never raises and gives back the rows, the collection, the mask and the
    undo history of the session before the first circle; only the sequence
    number of the store has advanced. *)
Theorem undo_takes_back_up_to_three (circles : list ((Z * Z) * (Z * Z)))
  (s : session) :
  mirrors_store s -> current_coord s = None -> store_wf (db s) ->
  (List.length (prev_masks s) + List.length circles <= 3)%nat ->
  exists s',
    undo_times (List.length circles) (create_all circles s) = Some s' /\
    same_annotations s s'.
Proof.
  intros Hm Hc Hwf Hlen.
  apply (undo_all circles s (create_all circles s) Hm Hc Hwf Hlen).
  apply same_annotations_refl.
Qed.

Lemma undo_takes_back_up_to_three_witness :
  exists s',
    undo_times 2
      (create_all [((20, 20), (30, 20)); ((40, 20), (50, 20))]%Z manual_ready)
    = Some s' /\
    same_annotations manual_ready s'.
Proof.
  apply (undo_takes_back_up_to_three
           [((20, 20), (30, 20)); ((40, 20), (50, 20))]%Z manual_ready).
  - unfold mirrors_store. vm_compute. reflexivity.
  - vm_compute. reflexivity.
  - unfold store_wf. vm_compute. repeat constructor; discriminate.
  - vm_compute. repeat constructor.
Defined.

(* ------------------------------------------------------------------ *)
(** ** Binary64 arithmetic: the click mapping and the fit to the window *)

Lemma two_pow_pos e : 0 < 2 ^ e.
Proof. apply Qpower_0_lt. reflexivity. Qed.

Lemma two_pow_inject (a : Z) : (0 <= a)%Z -> inject_Z (2 ^ a) == 2 ^ a.
Proof. intros H. now rewrite Zpower_Qpower. Qed.

Lemma Qabs_as_fraction x :
  Qabs x == inject_Z (Z.abs (Qnum x)) / inject_Z (Zpos (Qden x)).
Proof.
  destruct x as [n d]. unfold Qabs. cbn [Qnum Qden].
  rewrite (Qmake_Qdiv (Z.abs n) d). reflexivity.
Qed.

Lemma Qlog2_spec x :
  ~ x == 0 -> 2 ^ Qlog2 x <= Qabs x /\ Qabs x < 2 ^ (Qlog2 x + 1).
Proof.
  intros Hx.
  set (n := Z.abs (Qnum x)). set (d := Zpos (Qden x)).
  assert (Hn : (0 < n)%Z).
  { unfold n. destruct x as [[|p|p] q]; cbn; try lia. exfalso. apply Hx. reflexivity. }
  assert (Hd : (0 < d)%Z) by (unfold d; lia).
  destruct (Z.log2_spec n Hn) as [Na Nb]. destruct (Z.log2_spec d Hd) as [Da Db].
  set (a := Z.log2 n) in *. set (b := Z.log2 d) in *.
  assert (Ha : (0 <= a)%Z) by apply Z.log2_nonneg.
  assert (Hb : (0 <= b)%Z) by apply Z.log2_nonneg.
  assert (QNa : 2 ^ a <= inject_Z n).
  { rewrite <- two_pow_inject by exact Ha. now rewrite <- Zle_Qle. }
  assert (QNb : inject_Z n < 2 ^ (a + 1)).
  { rewrite <- two_pow_inject by lia. rewrite <- Zlt_Qlt.
    now rewrite Z.add_1_r. }
  assert (QDa : 2 ^ b <= inject_Z d).
  { rewrite <- two_pow_inject by exact Hb. now rewrite <- Zle_Qle. }
  assert (QDb : inject_Z d < 2 ^ (b + 1)).
  { rewrite <- two_pow_inject by lia. rewrite <- Zlt_Qlt.
    now rewrite Z.add_1_r. }
  assert (Pd : 0 < inject_Z d).
  { change 0 with (inject_Z 0). now rewrite <- Zlt_Qlt. }
  assert (E2 : forall k, 2 ^ (k + 1) == 2 * 2 ^ k).
  { intros k. rewrite Qpower_plus by discriminate. rewrite Qpower_1_r. ring. }
  assert (Eab : 2 ^ (a - b) == 2 ^ a / 2 ^ b).
  { apply Qpower_minus. discriminate. }
  pose proof (two_pow_pos a) as Pa. pose proof (two_pow_pos b) as Pb.
  pose proof (two_pow_pos (a - b)) as Pab.
  assert (Eabs : Qabs x == inject_Z n / inject_Z d) by apply Qabs_as_fraction.
  assert (Emul : 2 ^ (a - b) * 2 ^ b == 2 ^ a).
  { rewrite Eab. field. lra. }
  (* the two bounds of the candidate [a - b] *)
  assert (Lo : 2 ^ (a - b - 1) <= Qabs x).
  { rewrite Eabs. apply Qle_shift_div_l; [exact Pd|].
    assert (E : 2 ^ (a - b - 1) * 2 == 2 ^ (a - b)).
    { replace (a - b)%Z with (a - b - 1 + 1)%Z at 2 by lia. rewrite E2. ring. }
    rewrite E2 in QDb.
    pose proof (two_pow_pos (a - b - 1)) as P1.
    set (t := 2 ^ (a - b - 1)) in *. set (A := 2 ^ a) in *. set (B := 2 ^ b) in *.
    set (T := 2 ^ (a - b)) in *.
    assert (t * inject_Z d <= t * (2 * B)).
    { apply Qmult_le_l; [exact P1 | lra]. }
    assert (t * (2 * B) == A).
    { rewrite <- Emul, <- E. ring. }
    lra. }
  assert (Hi : Qabs x < 2 ^ (a - b + 1)).
  { rewrite Eabs. apply Qlt_shift_div_r; [exact Pd|].
    rewrite E2. rewrite E2 in QNb.
    set (A := 2 ^ a) in *. set (B := 2 ^ b) in *. set (T := 2 ^ (a - b)) in *.
    assert (T * B <= T * inject_Z d).
    { apply Qmult_le_l; [exact Pab | exact QDa]. }
    lra. }
  unfold Qlog2. fold n d a b.
  destruct (Qle_bool (2 ^ (a - b)) (Qabs x)) eqn:E.
  - apply Qle_bool_iff in E. split; [exact E | exact Hi].
  - split; [exact Lo|].
    replace (a - b - 1 + 1)%Z with (a - b)%Z by lia.
    apply Qnot_le_lt. intros H. apply Qle_bool_iff in H. congruence.
Qed.

Lemma py_round_compat x y : x == y -> py_round x = py_round y.
Proof.
  intros E. unfold py_round. rewrite (Qfloor_comp _ _ E).
  rewrite (py_ltb_compat (x - inject_Z (Qfloor y)) (1 # 2)
             (y - inject_Z (Qfloor y)) (1 # 2)) by (rewrite ?E; reflexivity).
  rewrite (py_ltb_compat (1 # 2) (x - inject_Z (Qfloor y))
             (1 # 2) (y - inject_Z (Qfloor y))) by (rewrite ?E; reflexivity).
  reflexivity.
Qed.

Lemma b64_ulp_pos x : 0 < b64_ulp x.
Proof. apply two_pow_pos. Qed.

Lemma b64_half_ulp x : Qabs (b64 x - x) <= (1 # 2) * b64_ulp x.
Proof.
  unfold b64. pose proof (b64_ulp_pos x) as Pq. set (q := b64_ulp x) in *.
  destruct (py_round_spec (x / q)) as [Lo Hi].
  set (n := inject_Z (py_round (x / q))) in *.
  assert (E : x == (x / q) * q) by (field; lra).
  set (y := x / q) in *. clearbody y n.
  assert (H1 : (n - (1 # 2)) * q <= y * q) by (apply Qmult_le_compat_r; lra).
  assert (H2 : y * q <= (n + (1 # 2)) * q) by (apply Qmult_le_compat_r; lra).
  rewrite E. apply Qabs_Qle_condition.
  set (nq := n * q) in *. set (yq := y * q) in *.
  assert (E1 : (n - (1 # 2)) * q == nq - (1 # 2) * q) by (unfold nq; ring).
  assert (E2 : (n + (1 # 2)) * q == nq + (1 # 2) * q) by (unfold nq; ring).
  rewrite E1 in H1. rewrite E2 in H2. clearbody nq yq.
  set (hq := (1 # 2) * q) in *. clearbody hq. clear E E1 E2.
  split; lra.
Qed.

Lemma b64_zero x : x == 0 -> b64 x == 0.
Proof.
  intros E. unfold b64. set (q := b64_ulp x).
  assert (E0 : x / q == 0).
  { unfold Qdiv. rewrite (Qmult_comp x 0 E (/ q) (/ q) (Qeq_refl _)). ring. }
  rewrite (py_round_compat _ _ E0).
  change (inject_Z (py_round 0)) with 0. ring.
Qed.

Lemma b64_tiny_pos : 0 < b64_tiny.
Proof. apply two_pow_pos. Qed.

(** The standard model: a relative error of at most [2^-53], and an
    absolute one of at most [2^-1075] in the subnormal range. *)
Lemma b64_error x : Qabs (b64 x - x) <= b64_u * Qabs x + b64_tiny.
Proof.
  destruct (Qeq_dec x 0) as [E | Hx].
  { rewrite (b64_zero x E), E. pose proof b64_tiny_pos.
    change (Qabs (0 - 0)) with 0. change (Qabs 0) with 0. lra. }
  pose proof (b64_half_ulp x) as H. unfold b64_ulp in H.
  destruct (Qlog2_spec x Hx) as [Lo _].
  destruct (Z.max_spec (Qlog2 x - 52) (-1074)) as [[_ Em] | [_ Em]]; rewrite Em in H.
  - assert (E : 2 ^ (-1074) == 2 * 2 ^ (-1075)) by (vm_compute; reflexivity).
    rewrite E in H.
    assert (0 <= b64_u * Qabs x).
    { apply Qmult_le_0_compat; [discriminate | apply Qabs_nonneg]. }
    unfold b64_tiny. set (t := 2 ^ (-1075)) in *. lra.
  - assert (E : (1 # 2) * 2 ^ (Qlog2 x - 52) == b64_u * 2 ^ Qlog2 x).
    { replace (Qlog2 x - 52)%Z with (Qlog2 x + (-52))%Z by lia.
      rewrite Qpower_plus by discriminate.
      assert (E52 : 2 ^ (-52) == 2 * b64_u) by (vm_compute; reflexivity).
      rewrite E52. ring. }
    rewrite E in H.
    assert (b64_u * 2 ^ Qlog2 x <= b64_u * Qabs x).
    { apply Qmult_le_l; [reflexivity | exact Lo]. }
    pose proof b64_tiny_pos. lra.
Qed.

Lemma b64_tiny_small : b64_tiny <= 1 # 1267650600228229401496703205376.
Proof. apply Qle_bool_iff. vm_compute. reflexivity. Qed.

Lemma b64_bounds x :
  x - (b64_u * Qabs x + b64_tiny) <= b64 x /\
  b64 x <= x + (b64_u * Qabs x + b64_tiny).
Proof.
  pose proof (b64_error x) as H. apply Qabs_Qle_condition in H.
  destruct H as [H1 H2]. split; lra.
Qed.

Lemma click_axis_b64 (c o sc : Q) (z : Z) :
  1 # 1048576 <= sc -> sc <= 1048576 ->
  (- 1073741824 <= z <= 1073741824)%Z ->
  Qabs (c - (o + inject_Z z * sc)) <= ((1 # 2) - (1 # 1048576)) * sc ->
  py_round (b64 (b64 (c - o) / sc)) = z.
Proof.
  intros Hlo Hhi [Hz1 Hz2] Hnear.
  assert (Psc : 0 < sc) by lra.
  rewrite Zle_Qle in Hz1, Hz2.
  change (inject_Z (-1073741824)) with (-1073741824 # 1) in Hz1.
  change (inject_Z 1073741824) with 1073741824 in Hz2.
  set (zq := inject_Z z) in *.
  (* the inverse of the scale *)
  set (I := / sc).
  assert (EI : sc * I == 1) by (unfold I; field; lra).
  assert (PI : 0 < I) by (unfold I; now apply Qinv_lt_0_compat).
  assert (HI : I <= 1048576).
  { assert (H : (1 # 1048576) * I <= sc * I)
      by (apply Qmult_le_compat_r; lra).
    rewrite EI in H. lra. }
  (* the exact quotient *)
  set (d := c - o) in *.
  set (r := c - (o + zq * sc)) in *.
  apply Qabs_Qle_condition in Hnear. destruct Hnear as [Hr1 Hr2].
  set (rho := r * I).
  assert (Hrho : - ((1 # 2) - (1 # 1048576)) <= rho /\ rho <= (1 # 2) - (1 # 1048576)).
  { unfold rho. split.
    - assert (H : (- (((1 # 2) - (1 # 1048576)) * sc)) * I <= r * I)
        by (apply Qmult_le_compat_r; lra).
      setoid_replace ((- (((1 # 2) - (1 # 1048576)) * sc)) * I)
        with (- ((1 # 2) - (1 # 1048576)) * (sc * I)) in H by ring.
      rewrite EI in H. lra.
    - assert (H : r * I <= (((1 # 2) - (1 # 1048576)) * sc) * I)
        by (apply Qmult_le_compat_r; lra).
      setoid_replace ((((1 # 2) - (1 # 1048576)) * sc) * I)
        with (((1 # 2) - (1 # 1048576)) * (sc * I)) in H by ring.
      rewrite EI in H. lra. }
  destruct Hrho as [Hrho1 Hrho2].
  set (x := d * I).
  assert (Ex : x == zq + rho).
  { unfold x, rho, r, d.
    setoid_replace ((c - o) * I) with (zq * (sc * I) + (c - (o + zq * sc)) * I)
      by ring.
    rewrite EI. ring. }
  assert (Ed : d == x * sc).
  { unfold x. setoid_replace (d * I * sc) with (d * (sc * I)) by ring.
    rewrite EI. ring. }
  (* the rounded difference *)
  destruct (b64_bounds d) as [D1 D2].
  assert (EAd : Qabs d == Qabs x * sc).
  { rewrite Ed, Qabs_Qmult, (Qabs_pos sc) by lra. reflexivity. }
  rewrite EAd in D1, D2.
  set (X := Qabs x) in *.
  assert (HX : X <= 1073741824 + (1 # 2)).
  { unfold X. apply Qabs_Qle_condition. rewrite Ex. split; lra. }
  assert (PX : 0 <= X) by apply Qabs_nonneg.
  set (d' := b64 d) in *.
  set (delta := (d' - d) * I).
  set (T := b64_tiny * I).
  assert (HT : 0 <= T /\ T <= 1 # 1208925819614629174706176).
  { unfold T. pose proof b64_tiny_pos. pose proof b64_tiny_small. split.
    - apply Qmult_le_0_compat; lra.
    - assert (H1 : b64_tiny * I <= b64_tiny * 1048576)
        by (apply Qmult_le_l; lra).
      lra. }
  destruct HT as [HT1 HT2].
  assert (Hdelta : - (b64_u * X + T) <= delta /\ delta <= b64_u * X + T).
  { unfold delta, T. split.
    - assert (H : (- (b64_u * (X * sc) + b64_tiny)) * I <= (d' - d) * I)
        by (apply Qmult_le_compat_r; lra).
      setoid_replace ((- (b64_u * (X * sc) + b64_tiny)) * I)
        with (- (b64_u * X * (sc * I) + b64_tiny * I)) in H by ring.
      rewrite EI in H. lra.
    - assert (H : (d' - d) * I <= (b64_u * (X * sc) + b64_tiny) * I)
        by (apply Qmult_le_compat_r; lra).
      setoid_replace ((b64_u * (X * sc) + b64_tiny) * I)
        with (b64_u * X * (sc * I) + b64_tiny * I) in H by ring.
      rewrite EI in H. lra. }
  destruct Hdelta as [Hd1 Hd2].
  set (x' := d' / sc).
  assert (Ex' : x' == x + delta).
  { unfold x', delta, x. unfold Qdiv. fold I. ring. }
  (* the rounded quotient *)
  destruct (b64_bounds x') as [Q1 Q2].
  assert (HX' : Qabs x' <= X + (b64_u * X + T)).
  { apply Qabs_Qle_condition. rewrite Ex'.
    assert (Hx : - X <= x /\ x <= X).
    { apply Qabs_Qle_condition. unfold X. apply Qle_refl. }
    split; lra. }
  set (X' := Qabs x') in *.
  assert (PX' : 0 <= X') by apply Qabs_nonneg.
  set (q := b64 x') in *.
  pose proof b64_tiny_pos as Pt. pose proof b64_tiny_small as St.
  unfold b64_u in *.
  apply py_round_near; fold zq;
    clearbody q X' x' T delta d' X x rho I r d zq; lra.
Qed.

Lemma py_round_inject (m : Z) : py_round (inject_Z m) = m.
Proof. apply py_round_near; lra. Qed.

(** Integers below [2^53] in magnitude are binary64 numbers. *)
Lemma b64_int (n : Z) :
  (Z.abs n < 9007199254740992)%Z -> b64 (inject_Z n) == inject_Z n.
Proof.
  intros Hn.
  destruct (Z.eq_dec n 0) as [-> | Hn0].
  { apply b64_zero. reflexivity. }
  assert (Hx : ~ inject_Z n == 0).
  { intros E. apply Hn0. unfold Qeq, inject_Z in E. cbn in E. lia. }
  destruct (Qlog2_spec _ Hx) as [Lo _].
  assert (EA : Qabs (inject_Z n) == inject_Z (Z.abs n)).
  { unfold Qabs, inject_Z. cbn. reflexivity. }
  rewrite EA in Lo.
  assert (He : (Qlog2 (inject_Z n) <= 52)%Z).
  { destruct (Z_le_gt_dec (Qlog2 (inject_Z n)) 52) as [H | H]; [exact H|].
    exfalso.
    assert (H53 : 2 ^ 53 <= 2 ^ Qlog2 (inject_Z n))
      by (apply Qpower_le_compat_l; [lia | lra]).
    assert (Hq : inject_Z (Z.abs n) < inject_Z 9007199254740992)
      by now rewrite <- Zlt_Qlt.
    assert (E53 : 2 ^ 53 == inject_Z 9007199254740992)
      by (vm_compute; reflexivity).
    lra. }
  unfold b64, b64_ulp.
  set (k := Z.max (Qlog2 (inject_Z n) - 52) (-1074)).
  assert (Hk : (k <= 0)%Z) by (unfold k; lia).
  assert (E1 : 2 ^ k * inject_Z (2 ^ (- k)) == 1).
  { rewrite two_pow_inject by lia. rewrite <- Qpower_plus by discriminate.
    replace (k + - k)%Z with 0%Z by lia. reflexivity. }
  pose proof (two_pow_pos k) as Pk.
  set (p := inject_Z (2 ^ (- k))) in *. set (q := 2 ^ k) in *.
  assert (Ep : p == / q).
  { apply (Qmult_inj_l p (/ q) q); [lra|]. rewrite E1. field. lra. }
  assert (E2 : inject_Z n / q == inject_Z (n * 2 ^ (- k))).
  { rewrite inject_Z_mult. fold p. rewrite Ep. reflexivity. }
  rewrite (py_round_compat _ _ E2), py_round_inject, inject_Z_mult.
  fold p.
  setoid_replace (inject_Z n * p * q) with (inject_Z n * (q * p)) by ring.
  rewrite E1. ring.
Qed.

(** In the normal range the error is relative only. *)
Lemma b64_rel x :
  2 ^ (-1022) <= Qabs x -> Qabs (b64 x - x) <= b64_u * Qabs x.
Proof.
  intros Hn.
  assert (Hx : ~ x == 0).
  { intros E. rewrite E in Hn. change (Qabs 0) with 0 in Hn.
    pose proof (two_pow_pos (-1022)). lra. }
  pose proof (b64_half_ulp x) as H. unfold b64_ulp in H.
  destruct (Qlog2_spec x Hx) as [Lo Hi].
  assert (He : (-1022 <= Qlog2 x)%Z).
  { destruct (Z_le_gt_dec (-1022) (Qlog2 x)) as [L | G]; [exact L|]. exfalso.
    assert (2 ^ (Qlog2 x + 1) <= 2 ^ (-1022))
      by (apply Qpower_le_compat_l; [lia | lra]).
    lra. }
  rewrite Z.max_l in H by lia.
  assert (E : (1 # 2) * 2 ^ (Qlog2 x - 52) == b64_u * 2 ^ Qlog2 x).
  { replace (Qlog2 x - 52)%Z with (Qlog2 x + (-52))%Z by lia.
    rewrite Qpower_plus by discriminate.
    assert (E52 : 2 ^ (-52) == 2 * b64_u) by (vm_compute; reflexivity).
    rewrite E52. ring. }
  rewrite E in H.
  assert (b64_u * 2 ^ Qlog2 x <= b64_u * Qabs x).
  { apply Qmult_le_l; [reflexivity | exact Lo]. }
  lra.
Qed.

Lemma inject_Z_pos (n : Z) : (0 < n)%Z -> 0 < inject_Z n.
Proof. intros H. change 0 with (inject_Z 0). now rewrite <- Zlt_Qlt. Qed.

(** One direction of the fit: the rounded quotient of the viewer's extent
    by the image's. *)
Lemma fit_axis (vw : Q) (iw : Z) :
  (0 < iw <= 2147483648)%Z -> 1 <= vw ->
  let a := b64 (vw / b64 (inject_Z iw)) in
  0 < a /\
  vw * (1 - b64_u) <= inject_Z iw * a /\ inject_Z iw * a <= vw * (1 + b64_u).
Proof.
  intros [Hi1 Hi2] Hv a.
  pose proof (inject_Z_pos iw Hi1) as Pw.
  assert (Bw : inject_Z iw <= 2147483648).
  { change 2147483648 with (inject_Z 2147483648). now rewrite <- Zle_Qle. }
  assert (Eiw : b64 (inject_Z iw) == inject_Z iw) by (apply b64_int; lia).
  set (x := vw / b64 (inject_Z iw)) in *.
  assert (Ex : inject_Z iw * x == vw).
  { unfold x. rewrite Eiw. field. lra. }
  assert (Px : 1 # 2147483648 <= x).
  { unfold x. rewrite Eiw. apply Qle_shift_div_l; [exact Pw|]. lra. }
  assert (Hn : 2 ^ (-1022) <= Qabs x).
  { rewrite Qabs_pos by lra.
    assert (2 ^ (-1022) <= 1 # 2147483648)
      by (apply Qle_bool_iff; vm_compute; reflexivity).
    lra. }
  pose proof (b64_rel x Hn) as H. fold a in H.
  rewrite (Qabs_pos x) in H by lra.
  apply Qabs_Qle_condition in H. destruct H as [H1 H2].
  assert (L : inject_Z iw * (x - b64_u * x) <= inject_Z iw * a)
    by (apply Qmult_le_l; [exact Pw | lra]).
  assert (U : inject_Z iw * a <= inject_Z iw * (x + b64_u * x))
    by (apply Qmult_le_l; [exact Pw | lra]).
  setoid_replace (inject_Z iw * (x - b64_u * x))
    with ((inject_Z iw * x) * (1 - b64_u)) in L by ring.
  setoid_replace (inject_Z iw * (x + b64_u * x))
    with ((inject_Z iw * x) * (1 + b64_u)) in U by ring.
  rewrite Ex in L, U. split; [|split; [exact L | exact U]].
  unfold b64_u in *. lra.
Qed.

Lemma b64_abs_bounds x B :
  Qabs x <= B ->
  x - (b64_u * B + b64_tiny) <= b64 x /\ b64 x <= x + (b64_u * B + b64_tiny).
Proof.
  intros HB. destruct (b64_bounds x) as [H1 H2].
  assert (b64_u * Qabs x <= b64_u * B) by (apply Qmult_le_l; [reflexivity | exact HB]).
  split; lra.
Qed.

(** One direction of the centring: an image that fits up to the rounding
    of the window scale gets an offset that is not negative. *)
Lemma centre_axis (vw ws sc : Q) (iw : Z) :
  (0 < iw <= 2147483648)%Z -> 1 <= vw -> vw <= 2147483648 ->
  0 <= ws -> ws <= 1 ->
  inject_Z iw * ws <= vw * (1 + b64_u) ->
  sc == ws ->
  (0 <= py_round (b64 (b64 (vw - b64 (b64 (inject_Z iw) * b64 sc)) / 2)))%Z.
Proof.
  intros [Hi1 Hi2] Hv1 Hv2 Hw0 Hw1 Hfit Esc.
  pose proof (inject_Z_pos iw Hi1) as Pw.
  assert (Bw : inject_Z iw <= 2147483648).
  { change 2147483648 with (inject_Z 2147483648). now rewrite <- Zle_Qle. }
  assert (Eiw : b64 (inject_Z iw) == inject_Z iw) by (apply b64_int; lia).
  pose proof b64_tiny_pos as Pt. pose proof b64_tiny_small as St.
  (* the image scale *)
  assert (As : Qabs sc <= 1) by (rewrite Esc; apply Qabs_Qle_condition; split; lra).
  destruct (b64_abs_bounds sc 1 As) as [S1' S2'].
  set (is_ := b64 sc) in *.
  assert (S1 : ws - (b64_u * 1 + b64_tiny) <= is_) by (clearbody is_; lra).
  assert (S2 : is_ <= ws + (b64_u * 1 + b64_tiny)) by (clearbody is_; lra).
  clear S1' S2'.
  (* the scaled extent *)
  set (y := b64 (inject_Z iw) * is_).
  assert (Ey : y == inject_Z iw * is_) by (unfold y; now rewrite Eiw).
  assert (Y1 : inject_Z iw * (ws - (b64_u * 1 + b64_tiny)) <= inject_Z iw * is_)
    by (apply Qmult_le_l; [exact Pw | exact S1]).
  assert (Y2 : inject_Z iw * is_ <= inject_Z iw * (ws + (b64_u * 1 + b64_tiny)))
    by (apply Qmult_le_l; [exact Pw | exact S2]).
  rewrite <- Ey in Y1, Y2.
  setoid_replace (inject_Z iw * (ws - (b64_u * 1 + b64_tiny)))
    with (inject_Z iw * ws - (b64_u + b64_tiny) * inject_Z iw) in Y1 by ring.
  setoid_replace (inject_Z iw * (ws + (b64_u * 1 + b64_tiny)))
    with (inject_Z iw * ws + (b64_u + b64_tiny) * inject_Z iw) in Y2 by ring.
  assert (P0 : 0 <= inject_Z iw * ws) by (apply Qmult_le_0_compat; lra).
  assert (T1 : (b64_u + b64_tiny) * inject_Z iw <= (b64_u + b64_tiny) * 2147483648).
  { apply Qmult_le_l; [|exact Bw]. unfold b64_u in *. lra. }
  set (P := inject_Z iw * ws) in *. set (T := (b64_u + b64_tiny) * inject_Z iw) in *.
  assert (T0 : 0 <= T).
  { unfold T. apply Qmult_le_0_compat; unfold b64_u in *; lra. }
  assert (Ay : Qabs y <= 4294967296).
  { apply Qabs_Qle_condition. unfold b64_u in *. clearbody P T y is_. split; lra. }
  destruct (b64_abs_bounds y 4294967296 Ay) as [W1 W2].
  set (siw := b64 y) in *.
  (* the difference *)
  set (d := vw - siw).
  assert (Ad : Qabs d <= 8589934592).
  { apply Qabs_Qle_condition. unfold d, b64_u in *. clearbody P T y is_ siw.
    split; lra. }
  destruct (b64_abs_bounds d 8589934592 Ad) as [D1 D2].
  set (d' := b64 d) in *.
  (* its half *)
  set (h := d' / 2).
  assert (Eh : h == (1 # 2) * d') by (unfold h; field).
  assert (Ah : Qabs h <= 8589934592).
  { apply Qabs_Qle_condition. rewrite Eh. unfold d, b64_u in *.
    clearbody P T y is_ siw d'. split; lra. }
  destruct (b64_abs_bounds h 8589934592 Ah) as [H1 H2].
  set (h' := b64 h) in *.
  destruct (py_round_spec h') as [_ R].
  assert (Hr : inject_Z (-1) < inject_Z (py_round h')).
  { change (inject_Z (-1)) with (-1 # 1). rewrite Eh in H1. unfold d, b64_u in *.
    clearbody P T y is_ siw d' h'. clear Ah Ad Ay. lra. }
  rewrite <- Zlt_Qlt in Hr. lia.
Qed.

(** [b64] against the IEEE 754 operations of [SpecFloat] at binary64
    (53 bits, exponents up to 1024): the quotients, the product and the
    difference of the two examples below are the same numbers. *)
Lemma b64_agrees_with_ieee_754 :
  let prec := 53%Z in
  let emax := 1024%Z in
  let sf_int n := S754_finite false n 0%Z in
  let sf_0_8 := S754_finite false 7205759403792794%positive (-53)%Z in
  let sf_0_55 := SFdiv prec emax (sf_int 880%positive) (sf_int 1600%positive) in
  sf_value sf_0_8 == b64 (4 # 5) /\
  sf_value (SFdiv prec emax (sf_int 6%positive) sf_0_8) == b64 (6 / b64 (4 # 5)) /\
  sf_value sf_0_55 == b64 (880 / 1600) /\
  sf_value (SFmul prec emax (sf_int 1600%positive) sf_0_55) == b64 (1600 * b64 (880 / 1600)) /\
  sf_value (SFsub prec emax (sf_int 880%positive) (SFmul prec emax (sf_int 1600%positive) sf_0_55))
    == b64 (880 - b64 (1600 * b64 (880 / 1600))).
Proof. repeat split; vm_compute; reflexivity. Qed.

(** The click mapping inverts the display transform, in the floats of the
    program: for an image scale between 2^-20 and 2^20, a viewer offset
    below 2^53 and an image point (i, j) with coordinates up to 2^30 in
    magnitude, a gesture that starts within (1/2 - 2^-20) displayed pixels
    of viewer_offset + (i, j) * image_scale is reported as the click
    (i, j), and the division does not raise. *)
Theorem click_hits_image_point (v : viewport) (o : offset) (i j : Z) :
  viewer_offset v = Some o ->
  (Z.abs (off_x o) < 9007199254740992)%Z ->
  (Z.abs (off_y o) < 9007199254740992)%Z ->
  1 # 1048576 <= image_scale v -> image_scale v <= 1048576 ->
  (- 1073741824 <= i <= 1073741824)%Z ->
  (- 1073741824 <= j <= 1073741824)%Z ->
  Qabs (fst (start_cursor v) - (inject_Z (off_x o) + inject_Z i * image_scale v))
    <= ((1 # 2) - (1 # 1048576)) * image_scale v ->
  Qabs (snd (start_cursor v) - (inject_Z (off_y o) + inject_Z j * image_scale v))
    <= ((1 # 2) - (1 # 1048576)) * image_scale v ->
  click_coord_b64 v = Some (i, j).
Proof.
  intros Ho Hox Hoy Hlo Hhi Hi Hj Hx Hy. unfold click_coord_b64. rewrite Ho.
  destruct (py_eqb (image_scale v) 0) eqn:E.
  { apply py_eqb_eq in E. lra. }
  assert (Hx' : Qabs (fst (start_cursor v)
                      - (b64 (inject_Z (off_x o)) + inject_Z i * image_scale v))
                <= ((1 # 2) - (1 # 1048576)) * image_scale v).
  { rewrite (b64_int _ Hox). exact Hx. }
  assert (Hy' : Qabs (snd (start_cursor v)
                      - (b64 (inject_Z (off_y o)) + inject_Z j * image_scale v))
                <= ((1 # 2) - (1 # 1048576)) * image_scale v).
  { rewrite (b64_int _ Hoy). exact Hy. }
  now rewrite (click_axis_b64 _ _ _ i Hlo Hhi Hi Hx'),
              (click_axis_b64 _ _ _ j Hlo Hhi Hj Hy').
Qed.

Lemma click_hits_image_point_witness :
  click_coord_b64 inner_click = Some (40, 20)%Z.
Proof.
  apply (click_hits_image_point inner_click (mk_offset 3 (-2))).
  - reflexivity.
  - reflexivity.
  - reflexivity.
  - apply Qle_bool_iff. vm_compute. reflexivity.
  - apply Qle_bool_iff. vm_compute. reflexivity.
  - lia.
  - lia.
  - apply Qle_bool_iff. vm_compute. reflexivity.
  - apply Qle_bool_iff. vm_compute. reflexivity.
Defined.

(** On the boundary between two image points the rounding of the quotient
    decides: 6 / 0.8 is 7.5 in floats and the click is 8 (ties to even),
    where the exact quotient by the float 0.8 is below 7.5. *)
Lemma click_on_a_boundary :
  click_coord_b64 boundary_click = Some (8, 8)%Z /\
  click_coord boundary_click = Some (7, 7)%Z.
Proof. split; vm_compute; reflexivity. Qed.

(** Fit to window, in the floats of the program: after [update_scale] of a
    loaded image and a viewer whose sides are between 1 and 2^31 the window
    scale is at most 1; the image scaled by it exceeds the viewer in neither
    direction by more than the relative rounding error 2^-53; it is the
    largest such scale (it is 1, or the scaled image fills the viewer's
    width or height up to that error); and at the viewer scale 1 the main
    offset, which centres the image, is not negative. *)
Theorem image_fits_viewer (factor : Q) (v : viewport) (iw ih : Z) :
  image_size v = Some (iw, ih) ->
  (0 < iw <= 2147483648)%Z -> (0 < ih <= 2147483648)%Z ->
  1 <= fst (viewer_size v) -> fst (viewer_size v) <= 2147483648 ->
  1 <= snd (viewer_size v) -> snd (viewer_size v) <= 2147483648 ->
  ~ viewer_scale v == 0 ->
  exists v',
    update_scale_b64 factor v = Some v' /\
    let vw := fst (viewer_size v) in
    let vh := snd (viewer_size v) in
    let ws := window_scale v' in
    ws <= 1 /\
    inject_Z iw * ws <= vw * (1 + b64_u) /\
    inject_Z ih * ws <= vh * (1 + b64_u) /\
    (ws == 1 \/ vw * (1 - b64_u) <= inject_Z iw * ws
             \/ vh * (1 - b64_u) <= inject_Z ih * ws) /\
    (viewer_scale v' == 1 ->
     (0 <= off_x (main_offset v'))%Z /\ (0 <= off_y (main_offset v'))%Z).
Proof.
  intros Hsize Hw Hh Hvw1 Hvw2 Hvh1 Hvh2 Hvs.
  unfold update_scale_b64. rewrite Hsize.
  destruct (viewer_size v) as [vw vh]. cbn [fst snd] in *.
  replace (iw =? 0)%Z with false by (symmetry; apply Z.eqb_neq; lia).
  replace (ih =? 0)%Z with false by (symmetry; apply Z.eqb_neq; lia).
  cbn [orb].
  destruct (py_eqb (viewer_scale v) 0) eqn:E0.
  { apply py_eqb_eq in E0. contradiction. }
  eexists. split; [reflexivity|].
  cbn [window_scale viewer_scale main_offset off_x off_y].
  set (vs := py_max 1 (py_min 15 (b64 (viewer_scale v * factor)))).
  destruct (fit_axis vw iw Hw Hvw1) as (Pa & La & Ua).
  destruct (fit_axis vh ih Hh Hvh1) as (Pb & Lb & Ub).
  set (a := b64 (vw / b64 (inject_Z iw))) in *.
  set (b := b64 (vh / b64 (inject_Z ih))) in *.
  pose proof (inject_Z_pos iw (proj1 Hw)) as Pw.
  pose proof (inject_Z_pos ih (proj1 Hh)) as Ph.
  unfold py_min3.
  destruct (py_min_spec a b) as (M1 & M2 & M3).
  destruct (py_min_spec (py_min a b) 1) as (N1 & N2 & N3).
  set (ws := py_min (py_min a b) 1) in *.
  assert (P0 : 0 < ws).
  { destruct N3 as [N3 | N3]; rewrite N3; [|reflexivity].
    destruct M3 as [-> | ->]; assumption. }
  assert (Fw : inject_Z iw * ws <= vw * (1 + b64_u)).
  { apply Qle_trans with (inject_Z iw * a); [|exact Ua].
    apply Qmult_le_l; [exact Pw | lra]. }
  assert (Fh : inject_Z ih * ws <= vh * (1 + b64_u)).
  { apply Qle_trans with (inject_Z ih * b); [|exact Ub].
    apply Qmult_le_l; [exact Ph | lra]. }
  split; [exact N2|]. split; [exact Fw|]. split; [exact Fh|]. split.
  - destruct N3 as [N3 | N3].
    + right. rewrite N3. destruct M3 as [-> | ->]; [left; exact La | right; exact Lb].
    + left. now rewrite N3.
  - intros E1.
    assert (Esc : ws * vs == ws) by (rewrite E1; ring).
    split.
    + apply (centre_axis vw ws (ws * vs) iw); try assumption. lra.
    + apply (centre_axis vh ws (ws * vs) ih); try assumption. lra.
Qed.

Lemma image_fits_viewer_witness :
  exists v', update_scale_b64 1 tall_image = Some v' /\ window_scale v' <= 1.
Proof.
  destruct (image_fits_viewer 1 tall_image 1200 1600) as (v' & E & H & _).
  - reflexivity.
  - lia.
  - lia.
  - apply Qle_bool_iff. reflexivity.
  - apply Qle_bool_iff. reflexivity.
  - apply Qle_bool_iff. reflexivity.
  - apply Qle_bool_iff. reflexivity.
  - discriminate.
  - exists v'. split; [exact E | exact H].
Defined.

(** The tolerance is needed: for the portrait image the window scale is the
    float nearest to 0.55, and 1600 times it is above 880, both exactly and
    as the float that the program computes. *)
Lemma rounded_fit_exceeds_viewer :
  exists v', update_scale_b64 1 tall_image = Some v' /\
    window_scale v' == b64 (11 # 20) /\
    880 < 1600 * window_scale v' /\
    880 < b64 (1600 * image_scale v').
Proof.
  eexists. split; [reflexivity|]. cbn [window_scale image_scale].
  split; [|split]; vm_compute; reflexivity.
Qed.
